(** * Rafiki / SINGA-Auto: model logger and worker bootstrap

  A shallow embedding of

  - [rafiki/model/log.py]: the [ModelLogger] that encodes messages,
    metrics and plot definitions as one JSON line each, and decodes
    batches of such lines;
  - [scripts/start_worker.py]: the install retry loop and the
    [start_worker] / [stop_worker] pair handed to [run_worker].

  Python values are modelled as they are at run time: [str] is a list
  of code points, [int] is [Z], [float] is an IEEE-754 binary64 value
  ([spec_float]), a [dict] is an association list in insertion order.
  The [json] module is modelled after CPython's encoder and scanner. *)

From Stdlib Require Import List ZArith NArith Lia Bool Ascii String.
From Stdlib Require Import Floats.SpecFloat.
From Stdlib Require DecimalPos DecimalN.
Import ListNotations.

Set Implicit Arguments.

(** ** Python strings *)

Module PyStr.

(** A Python [str] is a sequence of code points. *)
Abbreviation char := N.
Abbreviation str := (list N).

(** Source-level string constants, written as Rocq literals. *)
Definition u (s : string) : str :=
  map N_of_ascii (list_ascii_of_string s).

(** The double quote character. *)
Definition dq : char := 34%N.

Fixpoint str_eqb (a b : str) : bool :=
  match a, b with
  | [], [] => true
  | x :: a', y :: b' => N.eqb x y && str_eqb a' b'
  | _, _ => false
  end.

(** [needle in haystack] on two strings: substring test. *)
Fixpoint is_prefix (p s : str) : bool :=
  match p, s with
  | [], _ => true
  | x :: p', y :: s' => N.eqb x y && is_prefix p' s'
  | _ :: _, [] => false
  end.

Fixpoint is_substr (p s : str) : bool :=
  is_prefix p s ||
  match s with
  | [] => false
  | _ :: s' => is_substr p s'
  end.

End PyStr.
Import PyStr.

(** ** Python values and the [json] module *)

Module Json.

Local Open Scope N_scope.

(** The values [json.loads] can return and [json.dumps] can take. *)
Local Unset Elimination Schemes.
Inductive value :=
| VNone
| VBool (b : bool)
| VInt (z : Z)
| VFloat (f : spec_float)
| VStr (s : str)
| VList (l : list value)
| VDict (d : list (str * value)).
Local Set Elimination Schemes.

(** Induction over values, through the lists and dicts in them. *)
Definition value_ind' (P : value -> Prop)
  (HNone : P VNone) (HBool : forall b, P (VBool b))
  (HInt : forall z, P (VInt z)) (HFloat : forall f, P (VFloat f))
  (HStr : forall s, P (VStr s))
  (HList : forall l, Forall P l -> P (VList l))
  (HDict : forall d, Forall (fun kv => P (snd kv)) d -> P (VDict d))
  : forall v, P v :=
  fix F (v : value) : P v :=
    match v with
    | VNone => HNone
    | VBool b => HBool b
    | VInt z => HInt z
    | VFloat f => HFloat f
    | VStr s => HStr s
    | VList l =>
        HList l
          ((fix G (l : list value) : Forall P l :=
              match l with
              | [] => Forall_nil _
              | x :: l' => Forall_cons x (F x) (G l')
              end) l)
    | VDict d =>
        HDict d
          ((fix G (d : list (str * value))
              : Forall (fun kv => P (snd kv)) d :=
              match d with
              | [] => Forall_nil _
              | kv :: d' => Forall_cons kv (F (snd kv)) (G d')
              end) d)
    end.

(** *** [dict]: insertion-ordered, keys unique *)

Definition dict := list (str * value).

(** [k in d] *)
Fixpoint dict_in (k : str) (d : dict) : bool :=
  match d with
  | [] => false
  | (k', _) :: d' => str_eqb k' k || dict_in k d'
  end.

(** [d.get(k)] *)
Fixpoint dict_get (k : str) (d : dict) : option value :=
  match d with
  | [] => None
  | (k', v) :: d' => if str_eqb k' k then Some v else dict_get k d'
  end.

(** [d[k] = v]: an existing key keeps its place, a new one goes last. *)
Fixpoint dict_set (k : str) (v : value) (d : dict) : dict :=
  match d with
  | [] => [(k, v)]
  | (k', v') :: d' =>
      if str_eqb k' k then (k', v) :: d' else (k', v') :: dict_set k v d'
  end.

(** [del d[k]] *)
Fixpoint dict_del (k : str) (d : dict) : dict :=
  match d with
  | [] => []
  | (k', v') :: d' =>
      if str_eqb k' k then dict_del k d' else (k', v') :: dict_del k d'
  end.

(** [d.update(pairs)], also [dict(pairs)] and [{**pairs}] from [d = {}]. *)
Definition dict_update (d : dict) (pairs : list (str * value)) : dict :=
  fold_left (fun acc kv => dict_set (fst kv) (snd kv) acc) pairs d.

Definition dict_of_pairs (pairs : list (str * value)) : dict :=
  dict_update [] pairs.

Definition keys (d : dict) : list str := map fst d.

(** *** Decimal integers *)

Fixpoint uint_chars (d : Decimal.uint) : str :=
  match d with
  | Decimal.Nil => []
  | Decimal.D0 d => 48 :: uint_chars d
  | Decimal.D1 d => 49 :: uint_chars d
  | Decimal.D2 d => 50 :: uint_chars d
  | Decimal.D3 d => 51 :: uint_chars d
  | Decimal.D4 d => 52 :: uint_chars d
  | Decimal.D5 d => 53 :: uint_chars d
  | Decimal.D6 d => 54 :: uint_chars d
  | Decimal.D7 d => 55 :: uint_chars d
  | Decimal.D8 d => 56 :: uint_chars d
  | Decimal.D9 d => 57 :: uint_chars d
  end.

Definition decimal (n : N) : str := uint_chars (N.to_uint n).

(** [int.__repr__] *)
Definition int_repr (z : Z) : str :=
  match z with
  | Zneg p => 45 :: decimal (Npos p)
  | _ => decimal (Z.to_N z)
  end.

Definition is_digit (c : char) : bool := (48 <=? c) && (c <=? 57).

Definition digits_value (ds : str) : N :=
  fold_left (fun acc c => 10 * acc + (c - 48)) ds 0.

(** *** Floats: binary64, [float(text)] and [float.__repr__] *)

Definition prec : Z := 53.
Definition emax : Z := 1024.

Definition sf_eqb (a b : spec_float) : bool :=
  match a, b with
  | S754_zero s, S754_zero s' => Bool.eqb s s'
  | S754_infinity s, S754_infinity s' => Bool.eqb s s'
  | S754_nan, S754_nan => true
  | S754_finite s m e, S754_finite s' m' e' =>
      Bool.eqb s s' && Pos.eqb m m' && Z.eqb e e'
  | _, _ => false
  end.

(** The binary64 value nearest to [D * 10^k] (ties to even). *)
Definition float_of_decimal (neg : bool) (D : N) (k : Z) : spec_float :=
  match D with
  | N0 => S754_zero neg
  | Npos p =>
      if (0 <=? k)%Z then
        binary_normalize prec emax (cond_Zopp neg (Zpos p * 10 ^ k)) 0 neg
      else
        SFdiv prec emax (S754_finite neg p 0)
              (S754_finite false (Z.to_pos (10 ^ (- k))) 0)
  end.

(** The shortest digit string that reads back as the float
    [m * 2^e], and the position of its decimal point. *)
Fixpoint first_scale (fuel : nat) (k : Z) (num den : Z) : Z :=
  match fuel with
  | O => k
  | S f =>
      if (den <=? num * 10 ^ k)%Z then k
      else first_scale f (k + 1)%Z num den
  end.

Definition decpt_of (num den : Z) : Z :=
  let ip := (num / den)%Z in
  if (0 <? ip)%Z then Z.of_nat (List.length (decimal (Z.to_N ip)))
  else (1 - first_scale 400 1 num den)%Z.

Definition candidate (m : positive) (e : Z) (num den decpt n : Z)
  : option N :=
  let s := (n - decpt)%Z in
  let num' := if (0 <=? s)%Z then (num * 10 ^ s)%Z else num in
  let den' := if (0 <=? s)%Z then den else (den * 10 ^ (- s))%Z in
  let lo := (num' / den')%Z in
  let r := (num' mod den')%Z in
  let hi := (lo + 1)%Z in
  let ok d :=
    sf_eqb (float_of_decimal false (Z.to_N d) (- s))
           (S754_finite false m e) in
  match ok lo, ok hi with
  | true, true =>
      match (2 * r ?= den')%Z with
      | Lt => Some (Z.to_N lo)
      | Gt => Some (Z.to_N hi)
      | Eq => Some (Z.to_N (if Z.even lo then lo else hi))
      end
  | true, false => Some (Z.to_N lo)
  | false, true => Some (Z.to_N hi)
  | false, false => None
  end.

Fixpoint shortest_from (fuel : nat) (m : positive) (e : Z)
         (num den decpt n : Z) : N * Z :=
  match fuel with
  | O => (0, n)
  | S f =>
      match candidate m e num den decpt n with
      | Some D => (D, (n - decpt)%Z)
      | None => shortest_from f m e num den decpt (n + 1)%Z
      end
  end.

Fixpoint strip_zeros (r : str) : str :=
  match r with
  | c :: r' => if c =? 48 then strip_zeros r' else r
  | [] => []
  end.

Definition float_digits (m : positive) (e : Z) : str * Z :=
  let num := if (0 <=? e)%Z then (Zpos m * 2 ^ e)%Z else Zpos m in
  let den := if (0 <=? e)%Z then 1%Z else (2 ^ (- e))%Z in
  let decpt := decpt_of num den in
  let '(D, s) := shortest_from 17 m e num den decpt 1 in
  let ds := decimal D in
  (rev (strip_zeros (rev ds)), (Z.of_nat (List.length ds) - s)%Z).

Definition zeros (n : Z) : str := repeat 48 (Z.to_nat n).

(** The layout of [repr]: exponent form when the decimal point is
    far from the digits, [.0] added to whole numbers. *)
Definition format_short (ds : str) (decpt : Z) : str :=
  let n := Z.of_nat (List.length ds) in
  if ((decpt <=? -4) || (16 <? decpt))%Z then
    let x := (decpt - 1)%Z in
    let ex := decimal (Z.to_N (Z.abs x)) in
    let ex := if (Z.abs x <? 10)%Z then 48 :: ex else ex in
    firstn 1 ds ++ (match skipn 1 ds with [] => [] | t => 46 :: t end)
      ++ [101; if (x <? 0)%Z then 45 else 43] ++ ex
  else if (decpt <=? 0)%Z then
    [48; 46] ++ zeros (- decpt) ++ ds
  else if (n <=? decpt)%Z then
    ds ++ zeros (decpt - n) ++ [46; 48]
  else
    firstn (Z.to_nat decpt) ds ++ [46] ++ skipn (Z.to_nat decpt) ds.

Definition sign_prefix (neg : bool) : str := if neg then [45] else [].

(** [float.__repr__] *)
Definition float_repr (f : spec_float) : str :=
  match f with
  | S754_nan => u "nan"
  | S754_infinity s => sign_prefix s ++ u "inf"
  | S754_zero s => sign_prefix s ++ u "0.0"
  | S754_finite s m e =>
      let '(ds, decpt) := float_digits m e in
      sign_prefix s ++ format_short ds decpt
  end.

(** *** Encoder: [json.dumps] with its defaults *)

Definition hexdigit (n : N) : char := if n <? 10 then 48 + n else 87 + n.

(** ['\\u{0:04x}'.format(n)] *)
Definition u_escape (n : N) : str :=
  [92; 117; hexdigit ((n / 4096) mod 16); hexdigit ((n / 256) mod 16);
   hexdigit ((n / 16) mod 16); hexdigit (n mod 16)].

(** [s1] and [s2] of [py_encode_basestring_ascii], for [n] the code
    point less [0x10000]. *)
Definition high_surrogate (n : N) : N :=
  N.lor 55296 (N.land (N.shiftr n 10) 1023).

Definition low_surrogate (n : N) : N := N.lor 56320 (N.land n 1023).

(** [ESCAPE_ASCII] and [ESCAPE_DCT] with the surrogate pairs of
    [py_encode_basestring_ascii]. *)
Definition escape_char (c : char) : str :=
  if c =? 92 then [92; 92]
  else if c =? 34 then [92; 34]
  else if c =? 8 then [92; 98]
  else if c =? 12 then [92; 102]
  else if c =? 10 then [92; 110]
  else if c =? 13 then [92; 114]
  else if c =? 9 then [92; 116]
  else if (32 <=? c) && (c <=? 126) then [c]
  else if c <? 65536 then u_escape c
  else
    let n := c - 65536 in
    u_escape (high_surrogate n) ++ u_escape (low_surrogate n).

Definition encode_basestring_ascii (s : str) : str :=
  dq :: flat_map escape_char s ++ [dq].

(** [floatstr] of the encoder ([allow_nan] is on). *)
Definition floatstr (f : spec_float) : str :=
  match f with
  | S754_nan => u "NaN"
  | S754_infinity false => u "Infinity"
  | S754_infinity true => u "-Infinity"
  | _ => float_repr f
  end.

(** Items separated by [', ']. *)
Fixpoint join_items (items : list str) : str :=
  match items with
  | [] => []
  | x :: rest =>
      match rest with
      | [] => x
      | _ :: _ => x ++ u ", " ++ join_items rest
      end
  end.

Fixpoint dumps (v : value) : str :=
  match v with
  | VNone => u "null"
  | VBool true => u "true"
  | VBool false => u "false"
  | VInt z => int_repr z
  | VFloat f => floatstr f
  | VStr s => encode_basestring_ascii s
  | VList l => [91] ++ join_items (map dumps l) ++ [93]
  | VDict d =>
      [123]
        ++ join_items
             (map (fun kv =>
                     encode_basestring_ascii (fst kv) ++ u ": "
                       ++ dumps (snd kv)) d)
        ++ [125]
  end.

(** *** Decoder: [json.loads] with its defaults *)

(** [ValueError] is what [json.loads] raises ([JSONDecodeError] is a
    subclass); [OutOfFuel] belongs to the model only. *)
Inductive res (A : Type) :=
| Ok (a : A)
| ValueError
| OutOfFuel.
Arguments Ok {A} a.
Arguments ValueError {A}.
Arguments OutOfFuel {A}.

Definition is_ws (c : char) : bool :=
  (c =? 32) || (c =? 9) || (c =? 10) || (c =? 13).

(** [WHITESPACE.match(s, end).end()] *)
Fixpoint skip_ws (s : str) : str :=
  match s with
  | c :: r => if is_ws c then skip_ws r else s
  | [] => []
  end.

Definition hexval (c : char) : option N :=
  if (48 <=? c) && (c <=? 57) then Some (c - 48)
  else if (97 <=? c) && (c <=? 102) then Some (c - 87)
  else if (65 <=? c) && (c <=? 70) then Some (c - 55)
  else None.

Definition hex4 (a b c d : char) : option N :=
  match hexval a, hexval b, hexval c, hexval d with
  | Some x, Some y, Some z, Some w => Some (((x * 16 + y) * 16 + z) * 16 + w)
  | _, _, _, _ => None
  end.

Definition is_high (c : N) : bool := (55296 <=? c) && (c <=? 56319).
Definition is_low (c : N) : bool := (56320 <=? c) && (c <=? 57343).

Definition join_surrogates (hi lo : N) : N :=
  65536 + N.lor (N.shiftl (hi - 55296) 10) (lo - 56320).

(** The [BACKSLASH] table. *)
Definition unescape (c : char) : option char :=
  if c =? 34 then Some 34
  else if c =? 92 then Some 92
  else if c =? 47 then Some 47
  else if c =? 98 then Some 8
  else if c =? 102 then Some 12
  else if c =? 110 then Some 10
  else if c =? 114 then Some 13
  else if c =? 116 then Some 9
  else None.

Definition push (c : char) (r : option (str * str)) : option (str * str) :=
  match r with
  | Some (x, rest) => Some (c :: x, rest)
  | None => None
  end.

(** [scanstring(s, end, strict=True)], from just after the opening
    quote; [None] is a [JSONDecodeError]. *)
Fixpoint scanstring (s : str) : option (str * str) :=
  match s with
  | [] => None
  | c :: r =>
      if c =? 34 then Some ([], r)
      else if c =? 92 then
        match r with
        | [] => None
        | e :: r1 =>
            if e =? 117 then
              match r1 with
              | h1 :: h2 :: h3 :: h4 :: r2 =>
                  match hex4 h1 h2 h3 h4 with
                  | None => None
                  | Some uni =>
                      if is_high uni then
                        match r2 with
                        | b :: v :: l1 :: l2 :: l3 :: l4 :: r3 =>
                            if (b =? 92) && (v =? 117) then
                              match hex4 l1 l2 l3 l4 with
                              | None => None
                              | Some uni2 =>
                                  if is_low uni2 then
                                    push (join_surrogates uni uni2)
                                         (scanstring r3)
                                  else push uni (scanstring r2)
                              end
                            else push uni (scanstring r2)
                        | _ => push uni (scanstring r2)
                        end
                      else push uni (scanstring r2)
                  end
              | _ => None
              end
            else
              match unescape e with
              | Some ch => push ch (scanstring r1)
              | None => None
              end
        end
      else if c <? 32 then None
      else push c (scanstring r)
  end.

(** [NUMBER_RE]: an optional minus, then [0] or a digit [1-9] with
    further digits; an optional fraction; an optional exponent. *)
Fixpoint span_digits (s : str) : str * str :=
  match s with
  | c :: r =>
      if is_digit c then
        let '(d, r') := span_digits r in (c :: d, r')
      else ([], s)
  | [] => ([], [])
  end.

Definition match_integer (s : str) : option (bool * str * str) :=
  let '(neg, s1) :=
    match s with
    | c :: r => if c =? 45 then (true, r) else (false, s)
    | [] => (false, s)
    end in
  match s1 with
  | c :: r =>
      if c =? 48 then Some (neg, [c], r)
      else if is_digit c then
        let '(d, r') := span_digits r in Some (neg, c :: d, r')
      else None
  | [] => None
  end.

Definition match_frac (s : str) : option (str * str) :=
  match s with
  | c :: r =>
      if c =? 46 then
        match span_digits r with
        | ([], _) => None
        | (d, r') => Some (d, r')
        end
      else None
  | [] => None
  end.

Definition match_exp (s : str) : option (bool * str * str) :=
  match s with
  | c :: r =>
      if (c =? 101) || (c =? 69) then
        let '(neg, r1) :=
          match r with
          | sg :: r' =>
              if sg =? 45 then (true, r')
              else if sg =? 43 then (false, r')
              else (false, r)
          | [] => (false, r)
          end in
        match span_digits r1 with
        | ([], _) => None
        | (d, r') => Some (neg, d, r')
        end
      else None
  | [] => None
  end.

(** [int(integer)] *)
Definition py_int (neg : bool) (ds : str) : Z :=
  cond_Zopp neg (Z.of_N (digits_value ds)).

(** [float(integer + frac + exp)] *)
Definition py_float (neg : bool) (ds : str) (frac : option str)
           (exp : option (bool * str)) : spec_float :=
  let fr := match frac with Some f => f | None => [] end in
  let ex :=
    match exp with
    | Some (eneg, eds) => cond_Zopp eneg (Z.of_N (digits_value eds))
    | None => 0%Z
    end in
  float_of_decimal neg (digits_value (ds ++ fr))
                   (ex - Z.of_nat (List.length fr))%Z.

Definition match_number (s : str) : option (value * str) :=
  match match_integer s with
  | None => None
  | Some (neg, ds, r0) =>
      let '(frac, r1) :=
        match match_frac r0 with
        | Some (f, r) => (Some f, r)
        | None => (None, r0)
        end in
      let '(exp, r2) :=
        match match_exp r1 with
        | Some (eneg, eds, r) => (Some (eneg, eds), r)
        | None => (None, r1)
        end in
      match frac, exp with
      | None, None => Some (VInt (py_int neg ds), r2)
      | _, _ => Some (VFloat (py_float neg ds frac exp), r2)
      end
  end.

(** [scan_once], [JSONObject] and [JSONArray].  The two loops return
    what they collected, in order. *)
Fixpoint scan_once (fuel : nat) (s : str) {struct fuel}
  : res (value * str) :=
  match fuel with
  | O => OutOfFuel
  | S fuel' =>
      match s with
      | [] => ValueError
      | c :: r =>
          if c =? 34 then
            match scanstring r with
            | Some (x, r') => Ok (VStr x, r')
            | None => ValueError
            end
          else if c =? 123 then
            match skip_ws r with
            | c1 :: r1 =>
                if c1 =? 125 then Ok (VDict [], r1)
                else if c1 =? 34 then
                  match object_loop fuel' r1 with
                  | Ok (pairs, r2) => Ok (VDict (dict_of_pairs pairs), r2)
                  | ValueError => ValueError
                  | OutOfFuel => OutOfFuel
                  end
                else ValueError
            | [] => ValueError
            end
          else if c =? 91 then
            match skip_ws r with
            | c1 :: r1 =>
                if c1 =? 93 then Ok (VList [], r1)
                else
                  match array_loop fuel' (c1 :: r1) with
                  | Ok (values, r2) => Ok (VList values, r2)
                  | ValueError => ValueError
                  | OutOfFuel => OutOfFuel
                  end
            | [] =>
                match array_loop fuel' [] with
                | Ok (values, r2) => Ok (VList values, r2)
                | ValueError => ValueError
                | OutOfFuel => OutOfFuel
                end
            end
          else if is_prefix (u "null") s then Ok (VNone, skipn 4 s)
          else if is_prefix (u "true") s then Ok (VBool true, skipn 4 s)
          else if is_prefix (u "false") s then Ok (VBool false, skipn 5 s)
          else
            match match_number s with
            | Some (v, r') => Ok (v, r')
            | None =>
                if is_prefix (u "NaN") s then
                  Ok (VFloat S754_nan, skipn 3 s)
                else if is_prefix (u "Infinity") s then
                  Ok (VFloat (S754_infinity false), skipn 8 s)
                else if is_prefix (u "-Infinity") s then
                  Ok (VFloat (S754_infinity true), skipn 9 s)
                else ValueError
            end
      end
  end

(** From just after the opening quote of a key. *)
with object_loop (fuel : nat) (s : str) {struct fuel}
  : res (list (str * value) * str) :=
  match fuel with
  | O => OutOfFuel
  | S fuel' =>
      match scanstring s with
      | None => ValueError
      | Some (key, r) =>
          match skip_ws r with
          | c :: r1 =>
              if c =? 58 then
                match scan_once fuel' (skip_ws r1) with
                | Ok (v, r2) =>
                    match skip_ws r2 with
                    | c2 :: r3 =>
                        if c2 =? 125 then Ok ([(key, v)], r3)
                        else if c2 =? 44 then
                          match skip_ws r3 with
                          | c3 :: r4 =>
                              if c3 =? 34 then
                                match object_loop fuel' r4 with
                                | Ok (pairs, r5) =>
                                    Ok ((key, v) :: pairs, r5)
                                | ValueError => ValueError
                                | OutOfFuel => OutOfFuel
                                end
                              else ValueError
                          | [] => ValueError
                          end
                        else ValueError
                    | [] => ValueError
                    end
                | ValueError => ValueError
                | OutOfFuel => OutOfFuel
                end
              else ValueError
          | [] => ValueError
          end
      end
  end

(** From the first character of an element. *)
with array_loop (fuel : nat) (s : str) {struct fuel}
  : res (list value * str) :=
  match fuel with
  | O => OutOfFuel
  | S fuel' =>
      match scan_once fuel' s with
      | Ok (v, r) =>
          match skip_ws r with
          | c :: r1 =>
              if c =? 93 then Ok ([v], r1)
              else if c =? 44 then
                match array_loop fuel' (skip_ws r1) with
                | Ok (values, r2) => Ok (v :: values, r2)
                | ValueError => ValueError
                | OutOfFuel => OutOfFuel
                end
              else ValueError
          | [] => ValueError
          end
      | ValueError => ValueError
      | OutOfFuel => OutOfFuel
      end
  end.

(** Fuel that never runs out on [s] (see [scan_once_fuel]). *)
Definition fuel_for (s : str) : nat := 2 * List.length s + 1.

(** [s.startswith('\ufeff')] *)
Definition starts_with_bom (s : str) : bool :=
  match s with
  | c :: _ => c =? 65279
  | [] => false
  end.

(** [JSONDecoder.decode] behind [json.loads(s)], [s] a [str].  The
    interpreter's limits (recursion depth, digits of an [int]) are not
    part of the model. *)
Definition loads (s : str) : res value :=
  if starts_with_bom s then ValueError
  else
    let s0 := skip_ws s in
    match scan_once (fuel_for s0) s0 with
    | Ok (v, r) =>
        match skip_ws r with
        | [] => Ok v
        | _ :: _ => ValueError
        end
    | ValueError => ValueError
    | OutOfFuel => OutOfFuel
    end.

(** *** What [loads] reads back from the text [dumps] writes *)

(** A string: a code point beyond [0xFFFF] comes back from its two
    escapes, and a high surrogate directly followed by a low one comes
    back joined. *)
Fixpoint reread_str (s : str) : str :=
  match s with
  | [] => []
  | c :: r =>
      if 65536 <=? c then
        join_surrogates (high_surrogate (c - 65536))
                        (low_surrogate (c - 65536)) :: reread_str r
      else if is_high c then
        match r with
        | d :: r' =>
            if is_low d then join_surrogates c d :: reread_str r'
            else c :: reread_str r
        | [] => [c]
        end
      else c :: reread_str r
  end.

(** A value: strings as above, a [dict] rebuilt from its pairs. *)
Fixpoint reread (v : value) : value :=
  match v with
  | VStr s => VStr (reread_str s)
  | VList l => VList (map reread l)
  | VDict d =>
      VDict (dict_of_pairs
               (map (fun kv => (reread_str (fst kv), reread (snd kv))) d))
  | _ => v
  end.

(** What can follow a run of digits. *)
Definition digit_stop (rest : str) : bool :=
  match rest with
  | [] => true
  | c :: _ => negb (is_digit c)
  end.

(** The characters that can continue a number. *)
Definition number_stop (rest : str) : bool :=
  match rest with
  | [] => true
  | c :: _ => negb (is_digit c || (c =? 46) || (c =? 101) || (c =? 69))
  end.

(** [float(repr(f)) == f], with [repr(f)] a number of the JSON
    grammar: what Python promises of every finite float. *)
Definition float_ok (f : spec_float) : bool :=
  match f with
  | S754_nan | S754_infinity _ => true
  | _ =>
      match match_number (float_repr f) with
      | Some (VFloat f', []) => sf_eqb f' f
      | _ => false
      end
  end.

Fixpoint floats_ok (v : value) : bool :=
  match v with
  | VFloat f => float_ok f
  | VList l => forallb floats_ok l
  | VDict d => forallb (fun kv => floats_ok (snd kv)) d
  | _ => true
  end.

(** Strings of Unicode code points that hold no surrogate pair, and
    dicts with each key once: what [reread] leaves as it is. *)
Definition str_ok (s : str) : bool := str_eqb (reread_str s) s.

Fixpoint unique_keys (ks : list str) : bool :=
  match ks with
  | [] => true
  | k :: ks' => negb (existsb (str_eqb k) ks') && unique_keys ks'
  end.

Fixpoint value_ok (v : value) : bool :=
  match v with
  | VFloat f => float_ok f
  | VStr s => str_ok s
  | VList l => forallb value_ok l
  | VDict d =>
      forallb (fun kv => str_ok (fst kv) && value_ok (snd kv)) d
      && unique_keys (map fst d)
  | _ => true
  end.

(** The text of a value starts with a character that is no white
    space and no closing bracket. *)
Definition value_start (c : char) : Prop :=
  is_ws c = false /\ (c =? 93) = false.

(** What [scan_once] is to give on the text of [v]. *)
Definition reads_back (v : value) : Prop :=
  forall rest, number_stop rest = true ->
  exists f0, forall fuel, (f0 <= fuel)%nat ->
    scan_once fuel (dumps v ++ rest) = Ok (reread v, rest).

(** The text of one member after the opening quote of its key, the
    whole member, and the members after the first one up to the closing
    brace. *)
Definition member_text (kv : str * value) : str :=
  flat_map escape_char (fst kv) ++ dq :: u ": " ++ dumps (snd kv).

Definition member_item_text (kv : str * value) : str :=
  encode_basestring_ascii (fst kv) ++ u ": " ++ dumps (snd kv).

Fixpoint more_members (d : list (str * value)) (rest : str) : str :=
  match d with
  | [] => 125 :: rest
  | kv :: d' => 44 :: 32 :: 34 :: member_text kv ++ more_members d' rest
  end.

(** How the text of one character is written. *)
Inductive written (c : char) : str -> Prop :=
| written_short x :
    escape_char c = [92; x] -> unescape x = Some c -> (x =? 117) = false ->
    c < 128 -> written c [92; x]
| written_plain :
    escape_char c = [c] -> 32 <= c -> c <= 126 -> c <> 34 -> c <> 92 ->
    written c [c]
| written_u :
    escape_char c = u_escape c -> c < 65536 -> written c (u_escape c)
| written_pair :
    escape_char c
    = u_escape (high_surrogate (c - 65536))
        ++ u_escape (low_surrogate (c - 65536)) ->
    65536 <= c ->
    written c (u_escape (high_surrogate (c - 65536))
                 ++ u_escape (low_surrogate (c - 65536))).

End Json.
Import Json.

(** ** rafiki/model/log.py *)

Module Log.

Local Open Scope N_scope.

(** *** [datetime] and [MODEL_LOG_DATETIME_FORMAT] *)

Record datetime := {
  year : N; month : N; day : N;
  hour : N; minute : N; second : N; microsecond : N
}.

(** The ranges [datetime] keeps its fields in; years of four digits. *)
Definition valid_datetime (dt : datetime) : bool :=
  (1000 <=? year dt) && (year dt <=? 9999)
  && (1 <=? month dt) && (month dt <=? 12)
  && (1 <=? day dt) && (day dt <=? 31)
  && (hour dt <? 24) && (minute dt <? 60) && (second dt <? 60)
  && (microsecond dt <? 1000000).

Definition digit (n : N) : char := 48 + n mod 10.

Definition two_digits (n : N) : str := [digit (n / 10); digit n].

Definition four_digits (n : N) : str :=
  [digit (n / 1000); digit (n / 100); digit (n / 10); digit n].

(** [dt.strftime('%Y-%m-%dT%H:%M:%S')] *)
Definition strftime (dt : datetime) : str :=
  four_digits (year dt) ++ [45] ++ two_digits (month dt) ++ [45]
    ++ two_digits (day dt) ++ [84] ++ two_digits (hour dt) ++ [58]
    ++ two_digits (minute dt) ++ [58] ++ two_digits (second dt).

(** The instant at second resolution. *)
Definition whole_second (dt : datetime) : datetime :=
  {| year := year dt; month := month dt; day := day dt;
     hour := hour dt; minute := minute dt; second := second dt;
     microsecond := 0 |}.

Definition digit_value (c : char) : option N :=
  if is_digit c then Some (c - 48) else None.

Definition number2 (a b : char) : option N :=
  match digit_value a, digit_value b with
  | Some x, Some y => Some (10 * x + y)
  | _, _ => None
  end.

Definition number4 (a b c d : char) : option N :=
  match number2 a b, number2 c d with
  | Some x, Some y => Some (100 * x + y)
  | _, _ => None
  end.

(** Modelled from the spec: the reader of a timestamp written in
    [MODEL_LOG_DATETIME_FORMAT], which the source only writes. *)
Definition parse_timestamp (ts : str) : option datetime :=
  match ts with
  | [y1; y2; y3; y4; s1; m1; m2; s2; d1; d2; t; h1; h2; s3; n1; n2; s4;
     c1; c2] =>
      if (s1 =? 45) && (s2 =? 45) && (t =? 84) && (s3 =? 58) && (s4 =? 58)
      then
        match number4 y1 y2 y3 y4, number2 m1 m2, number2 d1 d2,
              number2 h1 h2, number2 n1 n2, number2 c1 c2 with
        | Some y, Some m, Some d, Some h, Some n, Some c =>
            Some {| year := y; month := m; day := d;
                    hour := h; minute := n; second := c;
                    microsecond := 0 |}
        | _, _, _, _, _, _ => None
        end
      else None
  | _ => None
  end.

(** *** [LogType] *)

Module LogType.
Definition PLOT : str := u "PLOT".
Definition METRICS : str := u "METRICS".
Definition MESSAGE : str := u "MESSAGE".
End LogType.

(** *** Python operators the module uses on decoded values *)

Inductive exn := TypeError | KeyError.

Inductive outcome (A : Type) :=
| Return (a : A)
| Raise (e : exn).
Arguments Return {A} a.
Arguments Raise {A} e.

(** [bool(x)] *)
Definition truthy (x : value) : bool :=
  match x with
  | VNone => false
  | VBool b => b
  | VInt z => negb (z =? 0)%Z
  | VFloat (S754_zero _) => false
  | VFloat _ => true
  | VStr s => match s with [] => false | _ :: _ => true end
  | VList l => match l with [] => false | _ :: _ => true end
  | VDict d => match d with [] => false | _ :: _ => true end
  end.

(** [x == s] for a [str] constant [s] *)
Definition eq_str (x : value) (s : str) : bool :=
  match x with
  | VStr s' => str_eqb s' s
  | _ => false
  end.

(** [key in x] for a [str] key *)
Definition contains (key : str) (x : value) : outcome bool :=
  match x with
  | VDict d => Return (dict_in key d)
  | VList l => Return (existsb (fun e => eq_str e key) l)
  | VStr s => Return (is_substr key s)
  | _ => Raise TypeError
  end.

(** [x[key]] for a [str] key *)
Definition getitem (x : value) (key : str) : outcome value :=
  match x with
  | VDict d =>
      match dict_get key d with
      | Some v => Return v
      | None => Raise KeyError
      end
  | _ => Raise TypeError
  end.

(** [del x[key]] for a [str] key *)
Definition delitem (x : value) (key : str) : outcome value :=
  match x with
  | VDict d =>
      if dict_in key d then Return (VDict (dict_del key d))
      else Raise KeyError
  | _ => Raise TypeError
  end.

Definition bind {A B} (m : outcome A) (k : A -> outcome B) : outcome B :=
  match m with
  | Return a => k a
  | Raise e => Raise e
  end.

Notation "x <- m ;; k" := (bind m (fun x => k))
  (at level 61, m at next level, right associativity).

(** *** [ModelLogger] *)

(** What the logger acts on: the clock behind [datetime.now()] and
    the lines handed to [self._logger.info]. *)
Record world := { clock : nat; emitted : list str }.

Definition fresh : world := {| clock := 0; emitted := [] |}.

Section Logger.

(** [now k]: what the [k]-th call of [datetime.datetime.now()]
    returns. *)
Variable now : nat -> datetime.

Definition _log (log_type : str) (log_dict : dict) (w : world) : world :=
  let log_dict := dict_set (u "type") (VStr log_type) log_dict in
  let log_dict :=
    dict_set (u "time") (VStr (strftime (now (clock w)))) log_dict in
  let log_line := dumps (VDict log_dict) in
  {| clock := S (clock w); emitted := emitted w ++ [log_line] |}.

(** [x_axis = None] stands for the argument left out. *)
Definition define_plot (title metrics : value) (x_axis : option value)
           (w : world) : world :=
  let x_axis := match x_axis with Some x => x | None => VNone end in
  _log LogType.PLOT
       [(u "title", title); (u "metrics", metrics); (u "x_axis", x_axis)]
       w.

Definition log (msg : value) (metrics : dict) (w : world) : world :=
  let w :=
    if truthy msg then _log LogType.MESSAGE [(u "message", msg)] w
    else w in
  if truthy (VDict metrics) then _log LogType.METRICS metrics w else w.

Definition define_loss_plot (w : world) : world :=
  define_plot (VStr (u "Loss Over Epochs")) (VList [VStr (u "loss")])
              (Some (VStr (u "epoch"))) w.

Definition log_loss (loss epoch : value) (w : world) : world :=
  log (VStr []) [(u "loss", loss); (u "epoch", epoch)] w.

End Logger.

(** [parse_log_line]: the decoded line, [{}] on [ValueError].  The
    decoder never runs out of fuel ([loads_fuel]). *)
Definition parse_log_line (log_line : str) : value :=
  match loads log_line with
  | Ok v => v
  | ValueError => VDict []
  | OutOfFuel => VDict []
  end.

(** The three lists [parse_logs] fills. *)
Record logs := { messages : list value; metrics : list value;
                 plots : list value }.

(** One iteration of the loop of [parse_logs]. *)
Definition parse_logs_body (acc : logs) (log_line : str) : outcome logs :=
  let log_dict := parse_log_line log_line in
  has_time <- contains (u "time") log_dict ;;
  if negb has_time then Return acc else
  has_type <- contains (u "type") log_dict ;;
  if negb has_type then Return acc else
  log_datetime <- getitem log_dict (u "time") ;;
  log_type <- getitem log_dict (u "type") ;;
  log_dict <- delitem log_dict (u "time") ;;
  log_dict <- delitem log_dict (u "type") ;;
  match log_dict with
  | VDict d =>
      if eq_str log_type LogType.MESSAGE then
        let message :=
          match dict_get (u "message") d with
          | Some v => v
          | None => VNone
          end in
        Return {| messages :=
                    messages acc
                      ++ [VDict [(u "time", log_datetime);
                                 (u "message", message)]];
                  metrics := metrics acc;
                  plots := plots acc |}
      else if eq_str log_type LogType.METRICS then
        Return {| messages := messages acc;
                  metrics :=
                    metrics acc
                      ++ [VDict (dict_update [(u "time", log_datetime)] d)];
                  plots := plots acc |}
      else if eq_str log_type LogType.PLOT then
        Return {| messages := messages acc;
                  metrics := metrics acc;
                  plots := plots acc ++ [VDict (dict_update [] d)] |}
      else Return acc
  | _ => Raise TypeError
  end.

Fixpoint parse_logs_loop (log_lines : list str) (acc : logs)
  : outcome logs :=
  match log_lines with
  | [] => Return acc
  | log_line :: rest =>
      acc' <- parse_logs_body acc log_line ;;
      parse_logs_loop rest acc'
  end.

Definition parse_logs (log_lines : list str) : outcome logs :=
  parse_logs_loop log_lines
                  {| messages := []; metrics := []; plots := [] |}.

(** [x_axis or 'time'] of [ModelLoggerDebugHandler.emit], on a
    decoded plot record. *)
Definition shown_x_axis (log_dict : dict) : value :=
  let x_axis :=
    match dict_get (u "x_axis") log_dict with
    | Some v => v
    | None => VNone
    end in
  if truthy x_axis then x_axis else VStr (u "time").

(** *** The events of the data model and how the logger encodes them *)

Inductive event :=
| MessageEvent (text : str)
| MetricsEvent (values : dict)
| PlotDefinitionEvent (title : str) (metricNames : list str)
                      (xAxis : option str).

(** The type tag and the fields [_log] is called with for an event:
    see [log] and [define_plot]. *)
Definition tag_of (e : event) : str :=
  match e with
  | MessageEvent _ => LogType.MESSAGE
  | MetricsEvent _ => LogType.METRICS
  | PlotDefinitionEvent _ _ _ => LogType.PLOT
  end.

Definition fields_of (e : event) : dict :=
  match e with
  | MessageEvent text => [(u "message", VStr text)]
  | MetricsEvent values => values
  | PlotDefinitionEvent title names x_axis =>
      [(u "title", VStr title);
       (u "metrics", VList (map VStr names));
       (u "x_axis", match x_axis with Some x => VStr x | None => VNone end)]
  end.

(** The call of [_log] that encodes an event. *)
Definition encode (now : nat -> datetime) (e : event) (w : world) : world :=
  _log now (tag_of e) (fields_of e) w.

(** *** Vocabulary for the statements *)

(** The record [_log] serialises: the fields, then [type] and [time]
    assigned. *)
Definition stamped (log_type : str) (log_dict : dict) (dt : datetime)
  : dict :=
  dict_set (u "time") (VStr (strftime dt))
           (dict_set (u "type") (VStr log_type) log_dict).

(** The entries of a decoded line that is a record, none otherwise. *)
Definition entries (v : value) : dict :=
  match v with
  | VDict d => d
  | _ => []
  end.

(** The decoded lines [parse_logs] gets past: records, and lists and
    strings that do not hold both ['time'] and ['type']. *)
Definition accepted (v : value) : bool :=
  match v with
  | VDict _ => true
  | VList l =>
      negb (existsb (fun e => eq_str e (u "time")) l
            && existsb (fun e => eq_str e (u "type")) l)
  | VStr s => negb (is_substr (u "time") s && is_substr (u "type") s)
  | _ => false
  end.

(** A record without its [time] and [type]. *)
Definition stripped (d : dict) : dict :=
  dict_del (u "type") (dict_del (u "time") d).

(** What one record adds to each of the three lists. *)
Definition message_of (d : dict) : list value :=
  match dict_get (u "time") d, dict_get (u "type") d with
  | Some t, Some ty =>
      if eq_str ty LogType.MESSAGE then
        [VDict [(u "time", t);
                (u "message",
                 match dict_get (u "message") (stripped d) with
                 | Some v => v
                 | None => VNone
                 end)]]
      else []
  | _, _ => []
  end.

Definition metrics_of (d : dict) : list value :=
  match dict_get (u "time") d, dict_get (u "type") d with
  | Some t, Some ty =>
      if eq_str ty LogType.MESSAGE then []
      else if eq_str ty LogType.METRICS then
        [VDict (dict_update [(u "time", t)] (stripped d))]
      else []
  | _, _ => []
  end.

Definition plot_of (d : dict) : list value :=
  match dict_get (u "time") d, dict_get (u "type") d with
  | Some t, Some ty =>
      if eq_str ty LogType.MESSAGE then []
      else if eq_str ty LogType.METRICS then []
      else if eq_str ty LogType.PLOT then
        [VDict (dict_update [] (stripped d))]
      else []
  | _, _ => []
  end.

(** The lists [parse_logs] builds from decoded lines, in their order. *)
Definition filed (decoded : list value) : logs :=
  {| messages := flat_map (fun v => message_of (entries v)) decoded;
     metrics := flat_map (fun v => metrics_of (entries v)) decoded;
     plots := flat_map (fun v => plot_of (entries v)) decoded |}.

(** A metrics record of the output, for the decoded record [d]: the
    timestamp and the other entries of [d] in one dict. *)
Definition metrics_record (d : dict) (r : value) : Prop :=
  exists t r',
    dict_get (u "time") d = Some t
    /\ dict_get (u "type") d = Some (VStr LogType.METRICS)
    /\ r = VDict r'
    /\ dict_get (u "time") r' = Some t
    /\ dict_get (u "type") r' = None
    /\ forall k, k <> u "time" -> k <> u "type" ->
                 dict_get k r' = dict_get k d.

(** A plot record of the output: the entries of [d] other than [time]
    and [type]. *)
Definition plot_record (d : dict) (r : value) : Prop :=
  exists r',
    dict_in (u "time") d = true
    /\ dict_get (u "type") d = Some (VStr LogType.PLOT)
    /\ r = VDict r'
    /\ dict_get (u "time") r' = None
    /\ dict_get (u "type") r' = None
    /\ forall k, k <> u "time" -> k <> u "type" ->
                 dict_get k r' = dict_get k d.

(** An event whose fields are valid Python values. *)
Definition valid_event (e : event) : bool := value_ok (VDict (fields_of e)).

(** No field of the event is called [type] or [time]. *)
Definition free_keys (e : event) : bool :=
  negb (dict_in (u "type") (fields_of e))
  && negb (dict_in (u "time") (fields_of e)).

(** The decoded line gives back every field of [e], its type tag, and
    a timestamp that reads as the instant [dt] at second resolution. *)
Definition reproduced (e : event) (dt : datetime) (decoded : value) : Prop :=
  exists d,
    decoded = VDict d
    /\ (forall k x, dict_get k (fields_of e) = Some x ->
                    dict_get k d = Some x)
    /\ dict_get (u "type") d = Some (VStr (tag_of e))
    /\ exists ts,
         dict_get (u "time") d = Some (VStr ts)
         /\ parse_timestamp ts = Some (whole_second dt).

(** A clock for the examples: always 2020-01-02T03:04:05.000678. *)
Definition sample_now (k : nat) : datetime :=
  {| year := 2020; month := 1; day := 2;
     hour := 3; minute := 4; second := 5; microsecond := 678 |}.

(** The float [0.5]. *)
Definition half : spec_float := S754_finite false 4503599627370496 (-53).

End Log.
Import Log.

(** ** scripts/start_worker.py *)

Module StartWorker.

(** What a call of the script's functions ends in. *)
Inductive failure :=
| Exception (msg : str)      (* [raise Exception(msg)] in the script *)
| Foreign (tag : nat).       (* an exception out of a called collaborator *)

Inductive result := Returned | Raised (e : failure).

(** *** The install retry loop (module level) *)

Section Install.

(** [os.environ.get('WORKER_INSTALL_COMMAND', '')] *)
Variable install_command : str.

(** [system i] is the exit status [os.system(install_command)]
    gives in iteration [i] of the loop. *)
Variable system : nat -> Z.

Inductive io :=
| OsSystem (cmd : str)
| PrintLine (msg : str)
| Sleep (secs : Z).

Definition install_msg : str :=
  u "Install command gave non-zero exit code: "
    ++ [dq] ++ install_command ++ [dq].

(** [for i in range: ...]; the boolean tells whether the loop was
    left through [break]. *)
Fixpoint install_loop (range : list nat) : list io * bool :=
  match range with
  | [] => ([], false)
  | i :: range' =>
      let exit_code := system i in
      if negb (exit_code =? 0)%Z then
        let '(t, broke) := install_loop range' in
        (OsSystem install_command :: PrintLine install_msg :: Sleep 3 :: t,
         broke)
      else
        ([OsSystem install_command], true)
  end.

(** The whole statement, with the [else] clause of the [for]. *)
Definition install : list io * result :=
  let '(t, broke) := install_loop (seq 0 10) in
  (t, if broke then Returned else Raised (Exception install_msg)).

Definition is_attempt (e : io) : bool :=
  match e with OsSystem _ => true | _ => false end.

Definition attempts (t : list io) : nat :=
  List.length (filter is_attempt t).

(** What one iteration leaves in the trace. *)
Definition failing_round : list io :=
  [OsSystem install_command; PrintLine install_msg; Sleep 3].

Definition succeeding_round : list io := [OsSystem install_command].

Fixpoint rounds (n : nat) : list io :=
  match n with
  | O => []
  | S n' => failing_round ++ rounds n'
  end.

End Install.

(** *** [start_worker] and [stop_worker] *)

Section Dispatch.

(** [ServiceType.TRAIN], [ServiceType.INFERENCE] and
    [ServiceType.ADVISOR] of [singa_auto.constants]. *)
Variables TRAIN INFERENCE ADVISOR : str.

(** The worker objects the script can build. *)
Inductive worker_obj :=
| TrainWorker (service_id container_id : str)
| InferenceWorker (service_id container_id : str)
| AdvisorWorker (service_id : str).

(** Calls into the worker classes. *)
Inductive extcall :=
| New (w : worker_obj)          (* the constructor building [w] *)
| WorkerStart (w : worker_obj)  (* [worker.start()] *)
| WorkerStop (w : worker_obj).  (* [worker.stop()] *)

(** A call with how it ended: [None] when it returned, [Some tag] when
    it raised. *)
Definition effect : Type := extcall * option nat.

(** [fails history c]: how the collaborator answers call [c] after
    the calls in [history]. *)
Variable fails : list effect -> extcall -> option nat.

(** The module global [worker], and the calls made so far. *)
Record state := { worker : option worker_obj; effects : list effect }.

Definition initial : state := {| worker := None; effects := [] |}.

Definition perform (c : extcall) (st : state) : option nat * state :=
  let r := fails (effects st) c in
  (r, {| worker := worker st; effects := effects st ++ [(c, r)] |}).

(** [worker = W(...); worker.start()] *)
Definition construct_and_start (w : worker_obj) (st : state)
  : result * state :=
  match perform (New w) st with
  | (Some tag, st1) => (Raised (Foreign tag), st1)
  | (None, st1) =>
      let st2 := {| worker := Some w; effects := effects st1 |} in
      match perform (WorkerStart w) st2 with
      | (Some tag, st3) => (Raised (Foreign tag), st3)
      | (None, st3) => (Returned, st3)
      end
  end.

Definition invalid_service_type (service_type : str) : str :=
  u "Invalid service type: " ++ service_type.

Definition start_worker (service_id service_type container_id : str)
           (st : state) : result * state :=
  if str_eqb service_type TRAIN then
    construct_and_start (TrainWorker service_id container_id) st
  else if str_eqb service_type INFERENCE then
    construct_and_start (InferenceWorker service_id container_id) st
  else if str_eqb service_type ADVISOR then
    construct_and_start (AdvisorWorker service_id) st
  else
    (Raised (Exception (invalid_service_type service_type)), st).

Definition stop_worker (st : state) : result * state :=
  match worker st with
  | Some w =>
      match perform (WorkerStop w) st with
      | (Some tag, st1) => (Raised (Foreign tag), st1)
      | (None, st1) => (Returned, st1)
      end
  | None => (Returned, st)
  end.

(** [run_worker] is handed both functions; whatever order it calls
    them in, the script's state evolves by these steps. *)
Inductive call :=
| CallStart (service_id service_type container_id : str)
| CallStop.

Definition step (st : state) (c : call) : state :=
  match c with
  | CallStart sid sty cid => snd (start_worker sid sty cid st)
  | CallStop => snd (stop_worker st)
  end.

Definition run (cs : list call) : state := fold_left step cs initial.

(** The worker a logged call constructed, if it is a constructor call
    that returned. *)
Definition constructed (e : effect) : option worker_obj :=
  match e with
  | (New w, None) => Some w
  | _ => None
  end.

(** No worker was ever constructed. *)
Definition never_constructed (st : state) : Prop :=
  forall e, In e (effects st) -> constructed e = None.

Definition is_stop (e : effect) : bool :=
  match e with
  | (WorkerStop _, _) => true
  | _ => false
  end.

(** The last worker constructed in a log, [acc] if there is none. *)
Fixpoint last_constructed (es : list effect) (acc : option worker_obj)
  : option worker_obj :=
  match es with
  | [] => acc
  | e :: es' =>
      last_constructed es'
        (match constructed e with Some w => Some w | None => acc end)
  end.

(** The global [worker] is the last worker constructed. *)
Definition worker_is_last (st : state) : Prop :=
  worker st = last_constructed (effects st) None.

End Dispatch.

End StartWorker.
Import StartWorker.

(** ** [ModelLoggerDebugHandler] *)

Module DebugHandler.

(** What [emit] can raise: [AttributeError] of its own, or what a
    Python operator it uses raises. *)
Inductive handler_exn := AttributeError | Uncaught (e : exn).

Inductive emitted_or_raised :=
| Printed (stdout : list str)
| Failed (e : handler_exn).

(** [sep.join(items)] on strings *)
Fixpoint join_strs (sep : str) (items : list str) : str :=
  match items with
  | [] => []
  | x :: rest =>
      match rest with
      | [] => x
      | _ :: _ => x ++ sep ++ join_strs sep rest
      end
  end.

(** The members of a list when all of them are strings. *)
Fixpoint all_strs (l : list value) : option (list str) :=
  match l with
  | [] => Some []
  | VStr s :: l' =>
      match all_strs l' with
      | Some ss => Some (s :: ss)
      | None => None
      end
  | _ :: _ => None
  end.

(** [sep.join(x)] on a decoded value: a list of strings, the
    characters of a string or the keys of a dict are joined, anything
    else is a [TypeError]. *)
Definition join (sep : str) (x : value) : outcome str :=
  match x with
  | VList l =>
      match all_strs l with
      | Some ss => Return (join_strs sep ss)
      | None => Raise TypeError
      end
  | VStr s => Return (join_strs sep (map (fun c => [c]) s))
  | VDict d => Return (join_strs sep (keys d))
  | _ => Raise TypeError
  end.

(** [d.get(key)] *)
Definition get (d : dict) (key : str) : value :=
  match dict_get key d with
  | Some v => v
  | None => VNone
  end.

Section Handler.

(** [__name__] of the module. *)
Variable module_name : str.

(** [repr] of a list or of a dict, which is what [str.format] and
    [print] write for one; it depends on the interpreter's tables of
    printable characters and is left open. *)
Variable repr_container : value -> str.

(** [str(v)], as [str.format] with [{}] and [print] write [v]. *)
Definition py_str (v : value) : str :=
  match v with
  | VNone => u "None"
  | VBool true => u "True"
  | VBool false => u "False"
  | VInt z => int_repr z
  | VFloat f => float_repr f
  | VStr s => s
  | VList _ | VDict _ => repr_container v
  end.

(** [_print]: one call of [print], whose text is added to what was
    printed before. *)
Definition _print (message : value) (stdout : list str) : list str :=
  stdout ++ [u "[" ++ module_name ++ u "] " ++ py_str message].

(** ['{}={}'.format(metric, value)] *)
Definition metric_text (kv : str * value) : str :=
  fst kv ++ u "=" ++ py_str (snd kv).

(** [emit], given [record.msg]. *)
Definition emit (log_line : str) (stdout : list str) : emitted_or_raised :=
  match parse_log_line log_line with
  | VDict log_dict =>
      let log_type := get log_dict (u "type") in
      if eq_str log_type LogType.PLOT then
        let title := get log_dict (u "title") in
        let metrics := get log_dict (u "metrics") in
        let x_axis := get log_dict (u "x_axis") in
        match join (u ", ") metrics with
        | Return joined =>
            Printed
              (_print
                 (VStr (u "Plot `" ++ py_str title ++ u "` of " ++ joined
                          ++ u " against "
                          ++ py_str (if truthy x_axis then x_axis
                                     else VStr (u "time"))
                          ++ u " will be registered when this model is being trained on Rafiki"))
                 stdout)
        | Raise e => Failed (Uncaught e)
        end
      else if eq_str log_type LogType.METRICS then
        let metrics_log := join_strs (u ", ") (map metric_text log_dict) in
        Printed (_print (VStr (u "Metric(s) logged: " ++ metrics_log)) stdout)
      else if eq_str log_type LogType.MESSAGE then
        Printed (_print (get log_dict (u "message")) stdout)
      else
        Printed (_print (VStr log_line) stdout)
  | _ => Failed AttributeError
  end.

End Handler.

End DebugHandler.
Import DebugHandler.

(** ** Sequences of calls of the logger *)

Module Session.

(** The public methods of [ModelLogger] that log. *)
Inductive action :=
| Log (msg : value) (metrics : dict)
| LogLoss (loss epoch : value)
| DefinePlot (title metrics : value) (x_axis : option value)
| DefineLossPlot.

Definition act (now : nat -> datetime) (w : world) (a : action) : world :=
  match a with
  | Log msg metrics => log now msg metrics w
  | LogLoss loss epoch => log_loss now loss epoch w
  | DefinePlot title metrics x_axis => define_plot now title metrics x_axis w
  | DefineLossPlot => define_loss_plot now w
  end.

Definition session (now : nat -> datetime) (acts : list action) (w : world)
  : world :=
  fold_left (act now) acts w.

(** The arguments an action hands to [log] or to [define_plot]. *)
Definition log_args (a : action) : option (value * dict) :=
  match a with
  | Log msg metrics => Some (msg, metrics)
  | LogLoss loss epoch =>
      Some (VStr [], [(u "loss", loss); (u "epoch", epoch)])
  | _ => None
  end.

Definition plot_args (a : action) : option (value * value * value) :=
  match a with
  | DefinePlot title metrics (Some x_axis) => Some (title, metrics, x_axis)
  | DefinePlot title metrics None => Some (title, metrics, VNone)
  | DefineLossPlot =>
      Some (VStr (u "Loss Over Epochs"), VList [VStr (u "loss")],
            VStr (u "epoch"))
  | _ => None
  end.

(** Arguments that are valid values, and metrics none of which is
    called [type] or [time]. *)
Definition clean (a : action) : bool :=
  match log_args a, plot_args a with
  | Some (msg, metrics), _ =>
      value_ok msg && value_ok (VDict metrics)
      && negb (dict_in (u "type") metrics)
      && negb (dict_in (u "time") metrics)
  | None, Some (title, metrics, x_axis) =>
      value_ok title && value_ok metrics && value_ok x_axis
  | None, None => true
  end.

(** The records a reader of the lines of one action, called when the
    clock shows [k], is to find. *)
Definition logged (now : nat -> datetime) (a : action) (k : nat) : logs :=
  match log_args a, plot_args a with
  | Some (msg, metrics), _ =>
      {| messages :=
           if truthy msg then
             [VDict [(u "time", VStr (strftime (now k)));
                     (u "message", msg)]]
           else [];
         metrics :=
           if truthy (VDict metrics) then
             [VDict ((u "time",
                      VStr (strftime (now (if truthy msg then S k else k))))
                       :: metrics)]
           else [];
         plots := [] |}
  | None, Some (title, metrics, x_axis) =>
      {| messages := [];
         metrics := [];
         plots := [VDict [(u "title", title); (u "metrics", metrics);
                          (u "x_axis", x_axis)]] |}
  | None, None => {| messages := []; metrics := []; plots := [] |}
  end.

(** The readings of the clock an action makes. *)
Definition ticks (a : action) : nat :=
  match log_args a, plot_args a with
  | Some (msg, metrics), _ =>
      (if truthy msg then 1 else 0) + (if truthy (VDict metrics) then 1 else 0)
  | None, Some _ => 1
  | None, None => 0
  end.

Definition join_logs (a b : logs) : logs :=
  {| messages := messages a ++ messages b;
     metrics := metrics a ++ metrics b;
     plots := plots a ++ plots b |}.

Fixpoint all_logged (now : nat -> datetime) (acts : list action) (k : nat)
  : logs :=
  match acts with
  | [] => {| messages := []; metrics := []; plots := [] |}
  | a :: acts' =>
      join_logs (logged now a k) (all_logged now acts' (k + ticks a))
  end.

End Session.
Import Session.

(** ** Vocabulary for the traces of the worker script *)

(** The seconds a trace of the install step sleeps. *)
Fixpoint slept (t : list io) : Z :=
  match t with
  | [] => 0
  | Sleep secs :: t' => secs + slept t'
  | _ :: t' => slept t'
  end.

(** The worker a service type selects, if any. *)
Definition selected (TRAIN INFERENCE ADVISOR : str)
           (service_id service_type container_id : str) : option worker_obj :=
  if str_eqb service_type TRAIN then
    Some (TrainWorker service_id container_id)
  else if str_eqb service_type INFERENCE then
    Some (InferenceWorker service_id container_id)
  else if str_eqb service_type ADVISOR then
    Some (AdvisorWorker service_id)
  else None.

(** What the calls of one step add to the log. *)
Definition calls_of_step (TRAIN INFERENCE ADVISOR : str)
           (fails : list effect -> extcall -> option nat)
           (st : state) (c : call) : list effect :=
  match c with
  | CallStart sid sty cid =>
      match selected TRAIN INFERENCE ADVISOR sid sty cid with
      | Some w =>
          match fails (effects st) (New w) with
          | Some tag => [(New w, Some tag)]
          | None =>
              [(New w, None);
               (WorkerStart w,
                fails (effects st ++ [(New w, None)]) (WorkerStart w))]
          end
      | None => []
      end
  | CallStop =>
      match worker st with
      | Some w => [(WorkerStop w, fails (effects st) (WorkerStop w))]
      | None => []
      end
  end.

(** [stop()] only reaches a worker whose constructor has returned, and
    [start()] a worker directly after its constructor returned. *)
Definition ordered (es : list effect) : Prop :=
  (forall pre w r post,
      es = pre ++ (WorkerStop w, r) :: post -> In (New w, None) pre)
  /\ (forall pre w r post,
        es = pre ++ (WorkerStart w, r) :: post ->
        exists pre', pre = pre' ++ [(New w, None)]).

(** Every line is the text of a record. *)
Definition records (lines : list str) : Prop :=
  Forall (fun line => exists d, line = dumps (VDict d)) lines.

(** * Facts about strings *)

Lemma str_eqb_refl a : str_eqb a a = true.
Proof.
  induction a as [|x a IH]; simpl; [reflexivity|].
  now rewrite N.eqb_refl, IH.
Qed.

Lemma str_eqb_eq a b : str_eqb a b = true <-> a = b.
Proof.
  split.
  - revert b; induction a as [|x a IH]; intros [|y b]; simpl;
      try discriminate; auto.
    intros H; apply andb_true_iff in H as [Hx Hr].
    apply N.eqb_eq in Hx; subst; f_equal; auto.
  - intros ->; apply str_eqb_refl.
Qed.

Lemma str_eqb_neq a b : str_eqb a b = false <-> a <> b.
Proof.
  split.
  - intros H E; apply str_eqb_eq in E; congruence.
  - intros H; destruct (str_eqb a b) eqn:E; [|reflexivity].
    apply str_eqb_eq in E; contradiction.
Qed.

Lemma str_eqb_sym a b : str_eqb a b = str_eqb b a.
Proof.
  destruct (str_eqb a b) eqn:E.
  - apply str_eqb_eq in E; subst; symmetry; apply str_eqb_refl.
  - symmetry; apply str_eqb_neq; apply str_eqb_neq in E; congruence.
Qed.

Lemma is_prefix_app p rest : is_prefix p (p ++ rest) = true.
Proof. induction p; simpl; [reflexivity|]; now rewrite N.eqb_refl. Qed.

(** * The install retry loop *)

Section InstallFacts.

Variable install_command : str.
Variable system : nat -> Z.

Local Abbreviation loop := (install_loop install_command system).
Local Abbreviation failing := (failing_round install_command).
Local Abbreviation succeeding := (succeeding_round install_command).

Lemma attempts_app t1 t2 : attempts (t1 ++ t2) = attempts t1 + attempts t2.
Proof. unfold attempts; now rewrite filter_app, length_app. Qed.

Lemma attempts_rounds n : attempts (rounds install_command n) = n.
Proof.
  induction n as [|n IH]; [reflexivity|].
  change (rounds install_command (S n))
    with (failing ++ rounds install_command n).
  rewrite attempts_app, IH; reflexivity.
Qed.

(** Iterations that all fail: the loop runs to its end. *)
Lemma install_loop_all_fail n a :
  (forall i, a <= i < a + n -> system i <> 0%Z) ->
  loop (seq a n) = (rounds install_command n, false).
Proof.
  revert a; induction n as [|n IH]; intros a Hfail; [reflexivity|].
  simpl seq; simpl install_loop.
  destruct (Z.eqb_spec (system a) 0) as [E|_].
  - exfalso; apply (Hfail a); [lia|exact E].
  - simpl negb; cbv iota.
    rewrite IH by (intros i Hi; apply Hfail; lia).
    reflexivity.
Qed.

(** A first success in iteration [a + j]: the loop breaks there. *)
Lemma install_loop_first_success n a j :
  j < n ->
  (forall i, a <= i < a + j -> system i <> 0%Z) ->
  system (a + j) = 0%Z ->
  loop (seq a n) = (rounds install_command j ++ succeeding, true).
Proof.
  revert a j; induction n as [|n IH]; intros a j Hj Hfail Hok; [lia|].
  simpl seq; simpl install_loop.
  destruct j as [|j].
  - rewrite Nat.add_0_r in Hok; rewrite Hok; reflexivity.
  - destruct (Z.eqb_spec (system a) 0) as [E|_].
    + exfalso; apply (Hfail a); [lia|exact E].
    + simpl negb; cbv iota.
      rewrite (IH (S a) j); try lia.
      * reflexivity.
      * intros i Hi; apply Hfail; lia.
      * now replace (S a + j) with (a + S j) by lia.
Qed.

End InstallFacts.

(** C3. The install step, for every behaviour [system] of the
    command: when every one of the 10 iterations fails, the trace is 10
    failing rounds and the script raises; when iteration [j < 10] is the
    first to succeed, the trace is [j] failing rounds and the successful
    call, after which the loop is left and the script goes on; so 9
    failures and a success make exactly 10 attempts.  A failing round is
    the call, the message and a sleep of 3. *)
Theorem install_retry cmd system :
  ((forall i, i < 10 -> system i <> 0%Z) ->
   install cmd system
     = (rounds cmd 10, Raised (Exception (install_msg cmd)))
   /\ attempts (fst (install cmd system)) = 10)
  /\ (forall j, j < 10 ->
      (forall i, i < j -> system i <> 0%Z) -> system j = 0%Z ->
      install cmd system = (rounds cmd j ++ succeeding_round cmd, Returned)
      /\ attempts (fst (install cmd system)) = j + 1)
  /\ ((forall i, i < 9 -> system i <> 0%Z) -> system 9 = 0%Z ->
      attempts (fst (install cmd system)) = 10
      /\ snd (install cmd system) = Returned)
  /\ failing_round cmd = [OsSystem cmd; PrintLine (install_msg cmd); Sleep 3]
  /\ succeeding_round cmd = [OsSystem cmd].
Proof.
  assert (Hsucc : forall j, j < 10 ->
      (forall i, i < j -> system i <> 0%Z) -> system j = 0%Z ->
      install cmd system = (rounds cmd j ++ succeeding_round cmd, Returned)
      /\ attempts (fst (install cmd system)) = j + 1).
  { intros j Hj Hfail Hok. unfold install.
    rewrite (@install_loop_first_success cmd system 10 0 j Hj).
    - split; [reflexivity|].
      cbv beta iota delta [fst].
      rewrite attempts_app, attempts_rounds; reflexivity.
    - intros i Hi; apply Hfail; lia.
    - exact Hok. }
  split; [|split; [exact Hsucc|split; [|split; reflexivity]]].
  - intros Hfail. unfold install.
    rewrite (@install_loop_all_fail cmd system 10 0)
      by (intros i Hi; apply Hfail; lia).
    split; [reflexivity|]. reflexivity.
  - intros Hfail Hok.
    destruct (Hsucc 9 ltac:(lia) Hfail Hok) as [E A].
    split; [exact A|now rewrite E].
Qed.

Lemma install_retry_witness :
  let cmd := u "pip install numpy" in
  let nine_failures := fun i => if i <? 9 then 1%Z else 0%Z in
  let all_failures := fun _ : nat => 256%Z in
  (attempts (fst (install cmd nine_failures)) = 10
   /\ snd (install cmd nine_failures) = Returned)
  /\ (install cmd all_failures
      = (rounds cmd 10, Raised (Exception (install_msg cmd)))
      /\ attempts (fst (install cmd all_failures)) = 10).
Proof.
  intros cmd nine_failures all_failures.
  destruct (@install_retry cmd nine_failures) as [_ [_ [Hnine _]]].
  destruct (@install_retry cmd all_failures) as [Hall _].
  split.
  - apply Hnine; [|reflexivity].
    intros i Hi. unfold nine_failures.
    destruct (Nat.ltb_spec i 9); [discriminate|lia].
  - apply Hall. intros i _. discriminate.
Defined.

(** * [start_worker] and [stop_worker] *)

Section DispatchFacts.

Variables TRAIN INFERENCE ADVISOR : str.
Variable fails : list effect -> extcall -> option nat.

Local Abbreviation start_worker' := (start_worker TRAIN INFERENCE ADVISOR fails).
Local Abbreviation stop_worker' := (stop_worker fails).
Local Abbreviation step' := (step TRAIN INFERENCE ADVISOR fails).
Local Abbreviation run' := (run TRAIN INFERENCE ADVISOR fails).

Lemma last_constructed_app es es' acc :
  last_constructed (es ++ es') acc
  = last_constructed es' (last_constructed es acc).
Proof. revert acc; induction es as [|e es IH]; intros acc; simpl; auto. Qed.

Lemma construct_and_start_keeps w st :
  worker_is_last st -> worker_is_last (snd (construct_and_start fails w st)).
Proof.
  unfold worker_is_last, construct_and_start, perform; intros Hst.
  destruct (fails (effects st) (New w)) as [tag|] eqn:E1; simpl.
  - rewrite last_constructed_app; simpl. exact Hst.
  - destruct (fails _ (WorkerStart w)) as [tag|] eqn:E2; simpl;
      rewrite !last_constructed_app; reflexivity.
Qed.

Lemma step_keeps st c : worker_is_last st -> worker_is_last (step' st c).
Proof.
  intros Hst; destruct c as [sid sty cid|]; simpl.
  - unfold start_worker.
    destruct (str_eqb sty TRAIN); [now apply construct_and_start_keeps|].
    destruct (str_eqb sty INFERENCE); [now apply construct_and_start_keeps|].
    destruct (str_eqb sty ADVISOR); [now apply construct_and_start_keeps|].
    exact Hst.
  - unfold stop_worker, perform.
    destruct (worker st) as [w|] eqn:Ew; [|exact Hst].
    unfold worker_is_last in *.
    destruct (fails (effects st) (WorkerStop w)); simpl;
      rewrite last_constructed_app; simpl; congruence.
Qed.

Lemma run_keeps cs : worker_is_last (run' cs).
Proof.
  unfold run.
  assert (H : forall st, worker_is_last st ->
                         worker_is_last (fold_left step' cs st)).
  { induction cs as [|c cs IH]; intros st Hst; simpl; [exact Hst|].
    apply IH, step_keeps, Hst. }
  apply H; reflexivity.
Qed.

Lemma last_constructed_none es :
  (forall e, In e es -> constructed e = None) ->
  last_constructed es None = None.
Proof.
  induction es as [|e es IH]; intros H; simpl; [reflexivity|].
  rewrite (H e) by now left.
  apply IH; intros e' He'; apply H; now right.
Qed.

Lemma constructed_inv (e : effect) w :
  constructed e = Some w -> e = (New w, None).
Proof.
  destruct e as [c r]; destruct c, r; simpl; try discriminate.
  now intros [= ->].
Qed.

Lemma last_constructed_inv es acc w :
  last_constructed es acc = Some w ->
  acc = Some w \/ In (New w, None) es.
Proof.
  revert acc; induction es as [|e es IH]; intros acc H; simpl in *.
  - now left.
  - destruct (IH _ H) as [Hacc|Hin]; [|right; now right].
    destruct (constructed e) as [w1|] eqn:E; [|now left].
    injection Hacc as ->. right; left. now apply constructed_inv.
Qed.

Lemma last_constructed_isSome es acc :
  acc <> None \/ (exists e w, In e es /\ constructed e = Some w) ->
  exists w', last_constructed es acc = Some w'.
Proof.
  revert acc; induction es as [|e es IH]; intros acc H; simpl.
  - destruct H as [H|[e [w [[] _]]]].
    destruct acc as [w|]; [now exists w|contradiction].
  - apply IH.
    destruct (constructed e) as [w1|] eqn:E; [left; discriminate|].
    destruct H as [H|[e' [w [[->|Hin] Hc]]]].
    + now left.
    + congruence.
    + right; now exists e', w.
Qed.

Lemma last_constructed_some es e w :
  In e es -> constructed e = Some w ->
  exists w', last_constructed es None = Some w' /\ In (New w', None) es.
Proof.
  intros Hin Hc.
  destruct (@last_constructed_isSome es None) as [w' Hl].
  { right; now exists e, w. }
  exists w'; split; [exact Hl|].
  destruct (last_constructed_inv _ _ Hl) as [H|H]; [discriminate|exact H].
Qed.

End DispatchFacts.

(** C8. A service type that is none of [TRAIN], [INFERENCE] and
    [ADVISOR] makes [start_worker] raise at once, with a message that
    ends in the service type given; no constructor is called and the
    global [worker] and the log of calls stay as they were. *)
Theorem start_worker_invalid TRAIN INFERENCE ADVISOR fails
        (service_id service_type container_id : str) (st : state) :
  service_type <> TRAIN -> service_type <> INFERENCE ->
  service_type <> ADVISOR ->
  start_worker TRAIN INFERENCE ADVISOR fails
               service_id service_type container_id st
  = (Raised (Exception (u "Invalid service type: " ++ service_type)), st).
Proof.
  intros H1 H2 H3. unfold start_worker.
  apply str_eqb_neq in H1, H2, H3. now rewrite H1, H2, H3.
Qed.

Lemma start_worker_invalid_witness :
  start_worker (u "TRAIN") (u "INFERENCE") (u "ADVISOR") (fun _ _ => None)
               (u "svc-1") (u "BOGUS") (u "ctr-1") initial
  = (Raised (Exception (u "Invalid service type: BOGUS")), initial).
Proof.
  apply (@start_worker_invalid (u "TRAIN") (u "INFERENCE") (u "ADVISOR")
           (fun _ _ => None) (u "svc-1") (u "BOGUS") (u "ctr-1") initial);
    discriminate.
Defined.

(** C9. After any sequence of calls of [start_worker] and
    [stop_worker]: if no constructor call has returned, [stop_worker]
    returns normally, makes no call and leaves the state as it is (so
    does a stop before any start); if one has, [stop_worker] calls
    [stop()] on the worker last constructed, which is the one the global
    [worker] holds. *)
Theorem stop_worker_safe TRAIN INFERENCE ADVISOR fails (cs : list call) :
  let st := run TRAIN INFERENCE ADVISOR fails cs in
  (never_constructed st -> stop_worker fails st = (Returned, st))
  /\ stop_worker fails initial = (Returned, initial)
  /\ (forall e w0, In e (effects st) -> constructed e = Some w0 ->
      exists w, worker st = Some w
                /\ In (New w, None) (effects st)
                /\ effects (snd (stop_worker fails st))
                   = effects st
                       ++ [(WorkerStop w, fails (effects st) (WorkerStop w))]).
Proof.
  intros st.
  pose proof (run_keeps TRAIN INFERENCE ADVISOR fails cs) as Hinv.
  fold st in Hinv; unfold worker_is_last in Hinv.
  split; [|split; [reflexivity|]].
  - intros Hnever. unfold stop_worker.
    rewrite Hinv, (last_constructed_none _ Hnever). reflexivity.
  - intros e w0 Hin Hc.
    destruct (last_constructed_some _ _ Hin Hc) as [w [Hl Hw]].
    exists w. rewrite Hinv. split; [exact Hl|split; [exact Hw|]].
    unfold stop_worker, perform. rewrite Hinv, Hl.
    destruct (fails (effects st) (WorkerStop w)); reflexivity.
Qed.

Lemma stop_worker_safe_witness :
  let fails := fun (_ : list effect) (_ : extcall) => @None nat in
  let TRAIN := u "TRAIN" in
  let INFERENCE := u "INFERENCE" in
  let ADVISOR := u "ADVISOR" in
  let st := run TRAIN INFERENCE ADVISOR fails
                [CallStart (u "svc-1") (u "TRAIN") (u "ctr-1")] in
  stop_worker fails (run TRAIN INFERENCE ADVISOR fails [])
  = (Returned, run TRAIN INFERENCE ADVISOR fails [])
  /\ exists w,
       worker st = Some w
       /\ In (New w, None) (effects st)
       /\ effects (snd (stop_worker fails st))
          = effects st ++ [(WorkerStop w, fails (effects st) (WorkerStop w))].
Proof.
  intros fails TRAIN INFERENCE ADVISOR st.
  destruct (@stop_worker_safe TRAIN INFERENCE ADVISOR fails []) as [Hnone _].
  destruct (@stop_worker_safe TRAIN INFERENCE ADVISOR fails
              [CallStart (u "svc-1") (u "TRAIN") (u "ctr-1")])
    as [_ [_ Hsome]].
  split.
  - apply Hnone. intros e [].
  - apply (Hsome (New (TrainWorker (u "svc-1") (u "ctr-1")), None)
                 (TrainWorker (u "svc-1") (u "ctr-1"))).
    + left. reflexivity.
    + reflexivity.
Defined.

(** * Facts about the [json] model *)

Section JsonFacts.

Local Open Scope N_scope.

(** Decide the comparisons of code points a goal branches on. *)
Ltac cmp :=
  repeat match goal with
    | |- context [?a <=? ?b] => destruct (N.leb_spec a b); try lia
    | |- context [?a <? ?b] => destruct (N.ltb_spec a b); try lia
    | |- context [?a =? ?b] => destruct (N.eqb_spec a b); try lia
    end; cbn [andb orb negb].

(** Arithmetic with the euclidean division unfolded. *)
Ltac divlia := Z.to_euclidean_division_equations; lia.

(** *** Escapes *)

Lemma hexval_hexdigit d : d < 16 -> hexval (hexdigit d) = Some d.
Proof.
  intros Hd; unfold hexval, hexdigit.
  destruct (N.ltb_spec d 10).
  - cmp. f_equal; lia.
  - cmp. f_equal; lia.
Qed.

Lemma hex4_digits n :
  n < 65536 ->
  hex4 (hexdigit ((n / 4096) mod 16)) (hexdigit ((n / 256) mod 16))
       (hexdigit ((n / 16) mod 16)) (hexdigit (n mod 16)) = Some n.
Proof.
  intros Hn; unfold hex4.
  rewrite !hexval_hexdigit by (apply N.mod_upper_bound; discriminate).
  f_equal.
  zify; divlia.
Qed.

Lemma small_testbit x n i : x < 2 ^ n -> n <= i -> N.testbit x i = false.
Proof.
  intros Hx Hi.
  destruct (N.eq_dec x 0) as [->|Hnz]; [apply N.bits_0|].
  apply N.bits_above_log2.
  apply N.log2_lt_pow2 in Hx; lia.
Qed.

Lemma lor_shifted a x n : x < 2 ^ n -> N.lor (a * 2 ^ n) x = a * 2 ^ n + x.
Proof.
  intros Hx.
  assert (Hland : N.land (a * 2 ^ n) x = 0).
  { apply N.bits_inj; intros i. rewrite N.land_spec, N.bits_0.
    destruct (N.lt_ge_cases i n) as [Hi|Hi].
    - now rewrite N.mul_pow2_bits_low.
    - rewrite (small_testbit Hx Hi). apply andb_false_r. }
  now rewrite N.add_nocarry_lxor, N.lxor_lor.
Qed.

Lemma land_1023 x : N.land x 1023 = x mod 1024.
Proof. change 1023 with (N.ones 10). now rewrite N.land_ones. Qed.

Lemma high_surrogate_eq n :
  high_surrogate n = 55296 + (n / 1024) mod 1024.
Proof.
  unfold high_surrogate.
  rewrite land_1023, N.shiftr_div_pow2.
  change (2 ^ 10) with 1024. change 55296 with (54 * 2 ^ 10).
  apply lor_shifted. change (2 ^ 10) with 1024.
  apply N.mod_upper_bound; discriminate.
Qed.

Lemma low_surrogate_eq n : low_surrogate n = 56320 + n mod 1024.
Proof.
  unfold low_surrogate. rewrite land_1023.
  change 56320 with (55 * 2 ^ 10).
  apply lor_shifted. change (2 ^ 10) with 1024.
  apply N.mod_upper_bound; discriminate.
Qed.

Lemma high_surrogate_range n :
  55296 <= high_surrogate n /\ high_surrogate n <= 56319.
Proof. rewrite high_surrogate_eq. zify; divlia. Qed.

Lemma low_surrogate_range n :
  56320 <= low_surrogate n /\ low_surrogate n <= 57343.
Proof. rewrite low_surrogate_eq. zify; divlia. Qed.

(** A code point of Unicode comes back from its surrogate pair. *)
Lemma join_surrogates_pair c :
  65536 <= c -> c < 1114112 ->
  join_surrogates (high_surrogate (c - 65536)) (low_surrogate (c - 65536))
  = c.
Proof.
  intros Hlo Hhi. unfold join_surrogates.
  rewrite high_surrogate_eq, low_surrogate_eq.
  rewrite N.shiftl_mul_pow2.
  replace (55296 + ((c - 65536) / 1024) mod 1024 - 55296)
    with (((c - 65536) / 1024) mod 1024) by (zify; divlia).
  replace (56320 + (c - 65536) mod 1024 - 56320)
    with ((c - 65536) mod 1024) by (zify; divlia).
  rewrite lor_shifted
    by (change (2 ^ 10) with 1024; apply N.mod_upper_bound; discriminate).
  change (2 ^ 10) with 1024. zify; divlia.
Qed.

(** [scanstring] at a [\uXXXX] escape. *)
Lemma scanstring_u n r2 :
  n < 65536 ->
  scanstring (u_escape n ++ r2)
  = if is_high n then
      match r2 with
      | b :: v :: l1 :: l2 :: l3 :: l4 :: r3 =>
          if (b =? 92) && (v =? 117) then
            match hex4 l1 l2 l3 l4 with
            | None => None
            | Some uni2 =>
                if is_low uni2 then
                  push (join_surrogates n uni2) (scanstring r3)
                else push n (scanstring r2)
            end
          else push n (scanstring r2)
      | _ => push n (scanstring r2)
      end
    else push n (scanstring r2).
Proof.
  intros Hn. unfold u_escape.
  cbn [app scanstring].
  change (92 =? 34) with false. change (92 =? 92) with true.
  change (117 =? 117) with true. cbv iota.
  rewrite (hex4_digits Hn). reflexivity.
Qed.

(** No second escape follows: the first one stands alone. *)
Lemma scanstring_u_alone n r2 :
  n < 65536 ->
  match r2 with
  | b :: v :: _ => (b =? 92) && (v =? 117) = false
  | _ => True
  end ->
  scanstring (u_escape n ++ r2) = push n (scanstring r2).
Proof.
  intros Hn Hr2. rewrite (scanstring_u _ Hn).
  destruct (is_high n); [|reflexivity].
  destruct r2 as [|b [|v [|l1 [|l2 [|l3 [|l4 r3]]]]]]; try reflexivity.
  now rewrite Hr2.
Qed.

(** The text of a string starts with no [\u] escape unless its first
    character is written as one. *)
Lemma escape_char_head c t :
  match escape_char c ++ t with
  | b :: v :: _ =>
      (b =? 92) && (v =? 117) = true ->
      exists n, n < 65536 /\ escape_char c ++ t = u_escape n ++
                  (if c <? 65536 then t
                   else u_escape (low_surrogate (c - 65536)) ++ t)
                /\ n = (if c <? 65536 then c else high_surrogate (c - 65536))
  | _ => True
  end.
Proof.
  unfold escape_char.
  destruct (N.eqb_spec c 92) as [->|H92]; [cbn; discriminate|].
  destruct (N.eqb_spec c 34) as [->|H34]; [cbn; discriminate|].
  destruct (N.eqb_spec c 8) as [->|H8]; [cbn; discriminate|].
  destruct (N.eqb_spec c 12) as [->|H12]; [cbn; discriminate|].
  destruct (N.eqb_spec c 10) as [->|H10]; [cbn; discriminate|].
  destruct (N.eqb_spec c 13) as [->|H13]; [cbn; discriminate|].
  destruct (N.eqb_spec c 9) as [->|H9]; [cbn; discriminate|].
  destruct ((32 <=? c) && (c <=? 126)) eqn:Hp.
  - cbn [app]. destruct t as [|v t]; [exact I|].
    intros H. apply andb_true_iff in H as [H _].
    apply N.eqb_eq in H. congruence.
  - destruct (N.ltb_spec c 65536) as [Hc|Hc].
    + unfold u_escape at 1. cbn [app]. intros _.
      exists c. repeat split; assumption.
    + rewrite <- app_assoc. unfold u_escape at 1. cbn [app]. intros _.
      exists (high_surrogate (c - 65536)).
      pose proof (high_surrogate_range (c - 65536)).
      split; [lia|split; reflexivity].
Qed.


Lemma scanstring_u_pair n m t :
  n < 65536 -> m < 65536 -> is_high n = true ->
  scanstring (u_escape n ++ u_escape m ++ t)
  = if is_low m then push (join_surrogates n m) (scanstring t)
    else push n (scanstring (u_escape m ++ t)).
Proof.
  intros Hn Hm Hhigh. rewrite (scanstring_u _ Hn), Hhigh.
  unfold u_escape at 1 3. cbn [app].
  change ((92 =? 92) && (117 =? 117)) with true. cbv iota.
  rewrite (hex4_digits Hm). reflexivity.
Qed.

Lemma is_high_lt c : is_high c = true -> c < 65536.
Proof. unfold is_high. intros H. apply andb_true_iff in H as [_ H].
       apply N.leb_le in H. lia. Qed.

Lemma is_low_lt c : is_low c = true -> c < 65536.
Proof. unfold is_low. intros H. apply andb_true_iff in H as [_ H].
       apply N.leb_le in H. lia. Qed.

Lemma escape_char_written c : written c (escape_char c).
Proof.
  unfold escape_char.
  destruct (N.eqb_spec c 92) as [->|H92];
    [now apply written_short with (x := 92)|].
  destruct (N.eqb_spec c 34) as [->|H34];
    [now apply written_short with (x := 34)|].
  destruct (N.eqb_spec c 8) as [->|H8];
    [now apply written_short with (x := 98)|].
  destruct (N.eqb_spec c 12) as [->|H12];
    [now apply written_short with (x := 102)|].
  destruct (N.eqb_spec c 10) as [->|H10];
    [now apply written_short with (x := 110)|].
  destruct (N.eqb_spec c 13) as [->|H13];
    [now apply written_short with (x := 114)|].
  destruct (N.eqb_spec c 9) as [->|H9];
    [now apply written_short with (x := 116)|].
  assert (Hesc : escape_char c
                 = if (32 <=? c) && (c <=? 126) then [c]
                   else if c <? 65536 then u_escape c
                   else u_escape (high_surrogate (c - 65536))
                          ++ u_escape (low_surrogate (c - 65536))).
  { unfold escape_char.
    destruct (N.eqb_spec c 92); [contradiction|].
    destruct (N.eqb_spec c 34); [contradiction|].
    destruct (N.eqb_spec c 8); [contradiction|].
    destruct (N.eqb_spec c 12); [contradiction|].
    destruct (N.eqb_spec c 10); [contradiction|].
    destruct (N.eqb_spec c 13); [contradiction|].
    destruct (N.eqb_spec c 9); [contradiction|].
    reflexivity. }
  destruct (N.leb_spec 32 c) as [H32|H32];
    destruct (N.leb_spec c 126) as [H126|H126]; cbn [andb] in *.
  - now apply written_plain.
  - destruct (N.ltb_spec c 65536) as [Hc|Hc].
    + now apply written_u.
    + now apply written_pair.
  - destruct (N.ltb_spec c 65536) as [Hc|Hc]; [|lia].
    now apply written_u.
  - lia.
Qed.

(** [scanstring] reads back what [encode_basestring_ascii] wrote. *)
Lemma scanstring_escaped_upto k s rest :
  (List.length s <= k)%nat ->
  scanstring (flat_map escape_char s ++ dq :: rest)
  = Some (reread_str s, rest).
Proof.
  revert s; induction k as [|k IH]; intros s Hlen.
  { destruct s; [reflexivity|simpl in Hlen; lia]. }
  destruct s as [|c r]; [reflexivity|].
  simpl in Hlen.
  assert (IHr : scanstring (flat_map escape_char r ++ dq :: rest)
                = Some (reread_str r, rest)) by (apply IH; lia).
  change (flat_map escape_char (c :: r))
    with (escape_char c ++ flat_map escape_char r).
  rewrite <- app_assoc.
  set (t := flat_map escape_char r ++ dq :: rest) in *.
  destruct (escape_char_written c) as [x _ Hx Hu Hc| _ H32 H126 H34 H92
                                      | _ Hc | _ Hc].
  - (* a two-character escape *)
    cbn [app scanstring].
    change (92 =? 34) with false. change (92 =? 92) with true. cbv iota.
    rewrite Hu, Hx, IHr. cbn [push reread_str].
    assert (H1 : (65536 <=? c) = false) by (apply N.leb_gt; lia).
    assert (H2 : is_high c = false)
      by (unfold is_high; apply andb_false_iff; left; apply N.leb_gt; lia).
    now rewrite H1, H2.
  - (* a printable character *)
    cbn [app scanstring].
    assert (H1 : (c =? 34) = false) by now apply N.eqb_neq.
    assert (H2 : (c =? 92) = false) by now apply N.eqb_neq.
    assert (H3 : (c <? 32) = false) by (apply N.ltb_ge; lia).
    rewrite H1, H2, H3, IHr. cbn [push reread_str].
    assert (H4 : (65536 <=? c) = false) by (apply N.leb_gt; lia).
    assert (H5 : is_high c = false)
      by (unfold is_high; apply andb_false_iff; left; apply N.leb_gt; lia).
    now rewrite H4, H5.
  - (* one [\u] escape *)
    cbn [reread_str].
    assert (H1 : (65536 <=? c) = false) by (apply N.leb_gt; lia).
    rewrite H1.
    destruct (is_high c) eqn:Hhigh.
    + destruct r as [|d r'].
      * subst t. cbn [flat_map app].
        rewrite scanstring_u_alone; [|exact Hc|].
        -- reflexivity.
        -- destruct rest; [exact I|reflexivity].
      * change (flat_map escape_char (d :: r'))
          with (escape_char d ++ flat_map escape_char r') in t.
        assert (IHr' : scanstring (flat_map escape_char r' ++ dq :: rest)
                       = Some (reread_str r', rest))
          by (apply IH; simpl in Hlen; lia).
        subst t. rewrite <- app_assoc in *.
        set (t' := flat_map escape_char r' ++ dq :: rest) in *.
        destruct (escape_char_written d) as [x _ Hx Hu Hd| _ H32 H126 H34 H92
                                            | _ Hd | _ Hd].
        -- assert (Hl : is_low d = false)
             by (unfold is_low; apply andb_false_iff; left;
                 apply N.leb_gt; lia).
           rewrite Hl, scanstring_u_alone, IHr; [reflexivity|exact Hc|].
           cbn [app]. now rewrite Hu, andb_false_r.
        -- assert (Hl : is_low d = false)
             by (unfold is_low; apply andb_false_iff; left;
                 apply N.leb_gt; lia).
           rewrite Hl, scanstring_u_alone, IHr; [reflexivity|exact Hc|].
           cbn [app].
           destruct t' as [|v t'']; [exact I|].
           assert (E : (d =? 92) = false) by now apply N.eqb_neq.
           now rewrite E.
        -- rewrite scanstring_u_pair by assumption.
           destruct (is_low d); [now rewrite IHr'|now rewrite IHr].
        -- assert (Hl : is_low d = false)
             by (unfold is_low; apply andb_false_iff; right;
                 apply N.leb_gt; lia).
           rewrite Hl.
           pose proof (high_surrogate_range (d - 65536)) as [Hh1 Hh2].
           rewrite <- app_assoc in *.
           rewrite scanstring_u_pair; [|exact Hc|lia|exact Hhigh].
           assert (Hl' : is_low (high_surrogate (d - 65536)) = false)
             by (unfold is_low; apply andb_false_iff; left;
                 apply N.leb_gt; lia).
           now rewrite Hl', IHr.
    + rewrite (scanstring_u _ Hc), Hhigh, IHr. reflexivity.
  - (* a surrogate pair *)
    cbn [reread_str].
    assert (H1 : (65536 <=? c) = true) by now apply N.leb_le.
    rewrite H1.
    pose proof (high_surrogate_range (c - 65536)) as [Hh1 Hh2].
    pose proof (low_surrogate_range (c - 65536)) as [Hl1 Hl2].
    rewrite <- app_assoc.
    rewrite scanstring_u_pair; [|lia|lia|].
    + assert (Hl : is_low (low_surrogate (c - 65536)) = true)
        by (unfold is_low; apply andb_true_iff; split; apply N.leb_le; lia).
      now rewrite Hl, IHr.
    + unfold is_high; apply andb_true_iff; split; apply N.leb_le; lia.
Qed.

Lemma scanstring_escaped s rest :
  scanstring (flat_map escape_char s ++ dq :: rest)
  = Some (reread_str s, rest).
Proof. now apply scanstring_escaped_upto with (k := List.length s). Qed.

End JsonFacts.

(** *** Numbers *)

Section NumberFacts.

Local Open Scope N_scope.

Lemma number_stop_digit rest : number_stop rest = true -> digit_stop rest = true.
Proof.
  destruct rest as [|c rest]; [reflexivity|]; simpl.
  destruct (is_digit c); [discriminate|reflexivity].
Qed.

Lemma span_digits_app l rest :
  digit_stop rest = true ->
  span_digits (l ++ rest)
  = (fst (span_digits l), snd (span_digits l) ++ rest).
Proof.
  intros Hstop; induction l as [|c l IH].
  - destruct rest as [|c rest]; [reflexivity|].
    simpl in *. destruct (is_digit c); [discriminate|reflexivity].
  - cbn [app span_digits]. destruct (is_digit c); [|reflexivity].
    rewrite IH. now destruct (span_digits l).
Qed.

Lemma span_digits_all ds :
  forallb is_digit ds = true -> span_digits ds = (ds, []).
Proof.
  induction ds as [|c ds IH]; [reflexivity|]; simpl.
  intros H; apply andb_true_iff in H as [Hc Hds].
  now rewrite Hc, (IH Hds).
Qed.

Lemma match_integer_app l rest neg ds r0 :
  digit_stop rest = true ->
  match_integer l = Some (neg, ds, r0) ->
  match_integer (l ++ rest) = Some (neg, ds, r0 ++ rest).
Proof.
  intros Hstop. unfold match_integer.
  assert (Hbody : forall b s1,
    match s1 with
    | c :: r =>
        if c =? 48 then Some (b, [c], r)
        else if is_digit c then
          let '(d, r') := span_digits r in Some (b, c :: d, r')
        else None
    | [] => None
    end = Some (neg, ds, r0) ->
    match s1 ++ rest with
    | c :: r =>
        if c =? 48 then Some (b, [c], r)
        else if is_digit c then
          let '(d, r') := span_digits r in Some (b, c :: d, r')
        else None
    | [] => None
    end = Some (neg, ds, r0 ++ rest)).
  { intros b [|c r]; [discriminate|]. cbn [app].
    destruct (c =? 48); [now intros [= <- <- <-]|].
    destruct (is_digit c); [|discriminate].
    rewrite (span_digits_app r _ Hstop).
    destruct (span_digits r) as [d r']. now intros [= <- <- <-]. }
  destruct l as [|c l]; [discriminate|]. cbn [app].
  destruct (c =? 45).
  - apply Hbody.
  - apply (Hbody false (c :: l)).
Qed.

Lemma match_frac_app r0 rest f r1 :
  digit_stop rest = true ->
  match_frac r0 = Some (f, r1) ->
  match_frac (r0 ++ rest) = Some (f, r1 ++ rest).
Proof.
  intros Hstop. unfold match_frac.
  destruct r0 as [|c r]; [discriminate|]. cbn [app].
  destruct (c =? 46); [|discriminate].
  rewrite (span_digits_app r _ Hstop).
  destruct (span_digits r) as [[|d0 d] r']; [discriminate|].
  now intros [= <- <-].
Qed.

Lemma match_frac_none r0 rest :
  number_stop rest = true ->
  match_frac r0 = None -> match_frac (r0 ++ rest) = None.
Proof.
  intros Hstop. unfold match_frac.
  destruct r0 as [|c r].
  - intros _. destruct rest as [|c rest]; [reflexivity|].
    cbn [app]. simpl in Hstop.
    destruct (c =? 46); [|reflexivity].
    now rewrite !orb_true_r in Hstop.
  - cbn [app]. destruct (c =? 46); [|reflexivity].
    rewrite (span_digits_app r _ (number_stop_digit _ Hstop)).
    now destruct (span_digits r) as [[|d0 d] r'].
Qed.

Lemma match_exp_app r1 rest neg ds r2 :
  digit_stop rest = true ->
  match_exp r1 = Some (neg, ds, r2) ->
  match_exp (r1 ++ rest) = Some (neg, ds, r2 ++ rest).
Proof.
  intros Hstop. unfold match_exp.
  destruct r1 as [|c r]; [discriminate|]. cbn [app].
  destruct ((c =? 101) || (c =? 69)); [|discriminate].
  destruct r as [|sg r]; [discriminate|]. cbn [app].
  assert (Hsp : forall b x,
    match span_digits x with
    | ([], _) => None
    | (d, r') => Some (b, d, r')
    end = Some (neg, ds, r2) ->
    match span_digits (x ++ rest) with
    | ([], _) => None
    | (d, r') => Some (b, d, r')
    end = Some (neg, ds, r2 ++ rest)).
  { intros b x. rewrite (span_digits_app x _ Hstop).
    destruct (span_digits x) as [[|d0 d] r']; [discriminate|].
    now intros [= <- <- <-]. }
  destruct (sg =? 45); [apply Hsp|].
  destruct (sg =? 43); [apply Hsp|].
  apply (Hsp false (sg :: r)).
Qed.

Lemma match_exp_stop rest :
  number_stop rest = true -> match_exp rest = None.
Proof.
  destruct rest as [|c rest]; [reflexivity|]. simpl.
  destruct (is_digit c); [discriminate|].
  destruct (c =? 46); [discriminate|].
  destruct (c =? 101); [discriminate|].
  destruct (c =? 69); [discriminate|reflexivity].
Qed.

(** A number that takes all of [l] is read the same with [rest]
    behind it, when [rest] cannot continue a number. *)
Lemma match_number_app l rest v :
  number_stop rest = true ->
  match_number l = Some (v, []) ->
  match_number (l ++ rest) = Some (v, rest).
Proof.
  intros Hstop. pose proof (number_stop_digit _ Hstop) as Hd.
  unfold match_number.
  destruct (match_integer l) as [[[neg ds] r0]|] eqn:Hint; [|discriminate].
  rewrite (match_integer_app l rest Hd Hint).
  destruct (match_frac r0) as [[f r1]|] eqn:Hf.
  - rewrite (match_frac_app r0 rest Hd Hf).
    destruct (match_exp r1) as [[[eneg eds] r2]|] eqn:He.
    + rewrite (match_exp_app _ rest Hd He). now intros [= <- ->].
    + intros [= <- ->]. cbn [app]. now rewrite (match_exp_stop _ Hstop).
  - rewrite (match_frac_none r0 rest Hstop Hf).
    destruct (match_exp r0) as [[[eneg eds] r2]|] eqn:He.
    + rewrite (match_exp_app _ rest Hd He). now intros [= <- ->].
    + intros [= <- ->]. cbn [app]. now rewrite (match_exp_stop _ Hstop).
Qed.

(** A number starts with a minus sign or a digit. *)
Lemma match_number_head l v r :
  match_number l = Some (v, r) ->
  exists c l', l = c :: l' /\ ((c =? 45) || is_digit c) = true.
Proof.
  unfold match_number, match_integer.
  destruct l as [|c l']; [discriminate|].
  intros H. exists c, l'. split; [reflexivity|].
  destruct (c =? 45) eqn:E45; [reflexivity|].
  destruct (c =? 48) eqn:E48.
  - apply N.eqb_eq in E48; now subst.
  - destruct (is_digit c); [reflexivity|discriminate].
Qed.

(** *** Decimal integers *)

Lemma uint_chars_digits d : forallb is_digit (uint_chars d) = true.
Proof. induction d; simpl; auto. Qed.

Lemma digits_value_acc ds acc :
  fold_left (fun a c => 10 * a + (c - 48)) ds acc
  = acc * 10 ^ N.of_nat (List.length ds) + digits_value ds.
Proof.
  unfold digits_value.
  revert acc; induction ds as [|c ds IH]; intros acc.
  - simpl. lia.
  - cbn [fold_left List.length]. rewrite IH, (IH (10 * 0 + (c - 48))).
    rewrite Nat2N.inj_succ, N.pow_succ_r'. lia.
Qed.

Lemma of_uint_acc_value d acc :
  Npos (Pos.of_uint_acc d acc)
  = fold_left (fun a c => 10 * a + (c - 48)) (uint_chars d) (Npos acc).
Proof.
  revert acc; induction d; intros acc; cbn [Pos.of_uint_acc uint_chars];
    [reflexivity|..]; rewrite IHd; cbn [fold_left]; f_equal; lia.
Qed.

Lemma of_uint_value d : Pos.of_uint d = digits_value (uint_chars d).
Proof.
  unfold digits_value.
  induction d; cbn [Pos.of_uint uint_chars]; [reflexivity|..];
    try (rewrite of_uint_acc_value; reflexivity).
  rewrite IHd. reflexivity.
Qed.

Lemma decimal_value n : digits_value (decimal n) = n.
Proof.
  unfold decimal. rewrite <- of_uint_value.
  apply DecimalN.Unsigned.of_to.
Qed.

Lemma decimal_digits n : forallb is_digit (decimal n) = true.
Proof. apply uint_chars_digits. Qed.

Lemma nzhead_not_zero d d' : Decimal.nzhead d <> Decimal.D0 d'.
Proof. induction d; simpl; try discriminate; auto. Qed.

Lemma to_uint_head p :
  match Pos.to_uint p with
  | Decimal.Nil | Decimal.D0 _ => False
  | _ => True
  end.
Proof.
  pose proof (DecimalPos.Unsigned.to_of (Pos.to_uint p)) as H.
  rewrite DecimalPos.Unsigned.of_to in H. simpl in H.
  pose proof (DecimalPos.Unsigned.to_uint_nonzero p) as Hnz.
  destruct (Pos.to_uint p) as [|d|d|d|d|d|d|d|d|d|d] eqn:E; try exact I.
  - discriminate H.
  - unfold Decimal.unorm in H. simpl in H.
    destruct (Decimal.nzhead d) as [|u|u|u|u|u|u|u|u|u|u] eqn:En;
      try discriminate H.
    + injection H as H. subst d. now apply Hnz.
    + exact (@nzhead_not_zero d u En).
Qed.

(** The decimal text of a positive number: a digit [1-9], then digits. *)
Lemma decimal_pos p :
  exists c ds, decimal (Npos p) = c :: ds
               /\ is_digit c = true /\ (c =? 48) = false /\ (c =? 45) = false
               /\ forallb is_digit ds = true.
Proof.
  pose proof (to_uint_head p) as Hh.
  pose proof (decimal_digits (Npos p)) as Hd.
  unfold decimal in *. simpl N.to_uint in *.
  destruct (Pos.to_uint p); try contradiction;
    cbn [uint_chars forallb] in *;
    (eexists; eexists; split; [reflexivity|]);
    repeat split; try reflexivity; exact Hd.
Qed.

Lemma match_integer_pos p :
  match_integer (decimal (Npos p)) = Some (false, decimal (Npos p), []).
Proof.
  destruct (decimal_pos p) as [c [ds [E [Hc [H48 [H45 Hds]]]]]].
  rewrite E. unfold match_integer.
  now rewrite H45, H48, Hc, (span_digits_all _ Hds).
Qed.

Lemma match_integer_neg p :
  match_integer (45 :: decimal (Npos p)) = Some (true, decimal (Npos p), []).
Proof.
  destruct (decimal_pos p) as [c [ds [E [Hc [H48 [H45 Hds]]]]]].
  rewrite E. unfold match_integer. change (45 =? 45) with true. cbv iota.
  now rewrite H48, Hc, (span_digits_all _ Hds).
Qed.

(** The scanner reads [int.__repr__] back. *)
Lemma match_number_int z :
  match_number (int_repr z) = Some (VInt z, []).
Proof.
  unfold match_number, int_repr.
  destruct z as [|p|p].
  - reflexivity.
  - change (Z.to_N (Z.pos p)) with (Npos p).
    rewrite match_integer_pos. cbn [match_frac match_exp].
    unfold py_int. now rewrite decimal_value.
  - rewrite match_integer_neg. cbn [match_frac match_exp].
    unfold py_int. now rewrite decimal_value.
Qed.

End NumberFacts.

(** *** [scan_once] reads back what [dumps] wrote *)

Section RereadFacts.

Local Open Scope N_scope.

Lemma sf_eqb_eq a b : sf_eqb a b = true -> a = b.
Proof.
  destruct a as [s|s| |s m e], b as [s'|s'| |s' m' e']; simpl;
    try discriminate; try reflexivity.
  - intros H; apply Bool.eqb_prop in H; now subst.
  - intros H; apply Bool.eqb_prop in H; now subst.
  - intros H. apply andb_true_iff in H as [H He].
    apply andb_true_iff in H as [Hs Hm].
    apply Bool.eqb_prop in Hs. apply Pos.eqb_eq in Hm. apply Z.eqb_eq in He.
    now subst.
Qed.

Lemma skip_ws_start c t : is_ws c = false -> skip_ws (c :: t) = c :: t.
Proof. intros H; simpl; now rewrite H. Qed.

(** A finite float that is [float_ok] is read back from its [repr]. *)
Lemma float_ok_reads f :
  float_ok f = true ->
  match f with
  | S754_nan | S754_infinity _ => True
  | _ => match_number (float_repr f) = Some (VFloat f, [])
  end.
Proof.
  unfold float_ok.
  destruct f as [s|s| |s m e]; try exact (fun _ => I);
    (destruct (match_number _) as [[w r]|]; [|discriminate]);
    destruct w; try discriminate; destruct r; try discriminate;
    intros H; apply sf_eqb_eq in H; now subst.
Qed.

Lemma skip_ws_space r : skip_ws (32 :: r) = skip_ws r.
Proof. reflexivity. Qed.

Lemma skip_ws_comma r : skip_ws (44 :: r) = 44 :: r.
Proof. reflexivity. Qed.

Lemma skip_ws_colon r : skip_ws (58 :: r) = 58 :: r.
Proof. reflexivity. Qed.

Lemma skip_ws_quote r : skip_ws (34 :: r) = 34 :: r.
Proof. reflexivity. Qed.

Lemma skip_ws_bracket r : skip_ws (93 :: r) = 93 :: r.
Proof. reflexivity. Qed.

Lemma skip_ws_brace r : skip_ws (125 :: r) = 125 :: r.
Proof. reflexivity. Qed.

(** The unfoldings of [scan_once] by the first character. *)
Lemma scan_once_string fuel r :
  scan_once (S fuel) (34 :: r)
  = match scanstring r with
    | Some (x, r') => Ok (VStr x, r')
    | None => ValueError
    end.
Proof. reflexivity. Qed.

Lemma scan_once_object fuel r :
  scan_once (S fuel) (123 :: r)
  = match skip_ws r with
    | c1 :: r1 =>
        if c1 =? 125 then Ok (VDict [], r1)
        else if c1 =? 34 then
          match object_loop fuel r1 with
          | Ok (pairs, r2) => Ok (VDict (dict_of_pairs pairs), r2)
          | ValueError => ValueError
          | OutOfFuel => OutOfFuel
          end
        else ValueError
    | [] => ValueError
    end.
Proof. reflexivity. Qed.

Lemma scan_once_array fuel r :
  scan_once (S fuel) (91 :: r)
  = match skip_ws r with
    | c1 :: r1 =>
        if c1 =? 93 then Ok (VList [], r1)
        else
          match array_loop fuel (c1 :: r1) with
          | Ok (values, r2) => Ok (VList values, r2)
          | ValueError => ValueError
          | OutOfFuel => OutOfFuel
          end
    | [] =>
        match array_loop fuel [] with
        | Ok (values, r2) => Ok (VList values, r2)
        | ValueError => ValueError
        | OutOfFuel => OutOfFuel
        end
    end.
Proof. reflexivity. Qed.

Lemma scan_once_other fuel c r :
  (c =? 34) = false -> (c =? 123) = false -> (c =? 91) = false ->
  scan_once (S fuel) (c :: r)
  = let s := c :: r in
    if is_prefix (u "null") s then Ok (VNone, skipn 4 s)
    else if is_prefix (u "true") s then Ok (VBool true, skipn 4 s)
    else if is_prefix (u "false") s then Ok (VBool false, skipn 5 s)
    else
      match match_number s with
      | Some (v, r') => Ok (v, r')
      | None =>
          if is_prefix (u "NaN") s then Ok (VFloat S754_nan, skipn 3 s)
          else if is_prefix (u "Infinity") s then
            Ok (VFloat (S754_infinity false), skipn 8 s)
          else if is_prefix (u "-Infinity") s then
            Ok (VFloat (S754_infinity true), skipn 9 s)
          else ValueError
      end.
Proof.
  intros H1 H2 H3. cbn [scan_once]. now rewrite H1, H2, H3.
Qed.

Lemma object_loop_eq fuel s :
  object_loop (S fuel) s
  = match scanstring s with
    | None => ValueError
    | Some (key, r) =>
        match skip_ws r with
        | c :: r1 =>
            if c =? 58 then
              match scan_once fuel (skip_ws r1) with
              | Ok (v, r2) =>
                  match skip_ws r2 with
                  | c2 :: r3 =>
                      if c2 =? 125 then Ok ([(key, v)], r3)
                      else if c2 =? 44 then
                        match skip_ws r3 with
                        | c3 :: r4 =>
                            if c3 =? 34 then
                              match object_loop fuel r4 with
                              | Ok (pairs, r5) => Ok ((key, v) :: pairs, r5)
                              | ValueError => ValueError
                              | OutOfFuel => OutOfFuel
                              end
                            else ValueError
                        | [] => ValueError
                        end
                      else ValueError
                  | [] => ValueError
                  end
              | ValueError => ValueError
              | OutOfFuel => OutOfFuel
              end
            else ValueError
        | [] => ValueError
        end
    end.
Proof. reflexivity. Qed.

Lemma array_loop_eq fuel s :
  array_loop (S fuel) s
  = match scan_once fuel s with
    | Ok (v, r) =>
        match skip_ws r with
        | c :: r1 =>
            if c =? 93 then Ok ([v], r1)
            else if c =? 44 then
              match array_loop fuel (skip_ws r1) with
              | Ok (values, r2) => Ok (v :: values, r2)
              | ValueError => ValueError
              | OutOfFuel => OutOfFuel
              end
            else ValueError
        | [] => ValueError
        end
    | ValueError => ValueError
    | OutOfFuel => OutOfFuel
    end.
Proof. reflexivity. Qed.

(** A number that takes all of [l], read by [scan_once]. *)
Lemma scan_once_number fuel l rest v :
  match_number l = Some (v, []) -> number_stop rest = true ->
  scan_once (S fuel) (l ++ rest) = Ok (v, rest).
Proof.
  intros Hm Hstop.
  destruct (match_number_head _ Hm) as [c [l' [-> Hc]]].
  pose proof (match_number_app (c :: l') rest Hstop Hm) as Happ.
  cbn [app] in *.
  assert (Hrange : c = 45 \/ (48 <= c /\ c <= 57)).
  { apply orb_true_iff in Hc as [Hc|Hc].
    - left; now apply N.eqb_eq.
    - right. unfold is_digit in Hc. apply andb_true_iff in Hc as [H1 H2].
      split; now apply N.leb_le. }
  assert (Hne : forall k, k <> 45 -> (k < 48 \/ 57 < k) -> (k =? c) = false)
    by (intros k H1 H2; apply N.eqb_neq; lia).
  rewrite scan_once_other; try (rewrite N.eqb_sym; apply Hne; lia).
  cbv zeta.
  change (u "null") with [110; 117; 108; 108].
  change (u "true") with [116; 114; 117; 101].
  change (u "false") with [102; 97; 108; 115; 101].
  cbn [is_prefix].
  rewrite !Hne by lia. cbn [andb].
  now rewrite Happ.
Qed.

Lemma dumps_head v :
  floats_ok v = true ->
  exists c t, dumps v = c :: t /\ value_start c.
Proof.
  assert (Hnum : forall l w, match_number l = Some (w, []) ->
            exists c t, l = c :: t /\ value_start c).
  { intros l w Hm. destruct (match_number_head _ Hm) as [c [l' [-> Hc]]].
    exists c, l'. split; [reflexivity|].
    apply orb_true_iff in Hc as [Hc|Hc].
    - apply N.eqb_eq in Hc; subst; now split.
    - unfold is_digit in Hc. apply andb_true_iff in Hc as [H1 H2].
      apply N.leb_le in H1, H2. unfold value_start, is_ws.
      split.
      + repeat (apply orb_false_iff; split); apply N.eqb_neq; lia.
      + apply N.eqb_neq; lia. }
  destruct v as [|b|z|f|s|l|d]; intros Hok.
  - now exists 110, (u "ull").
  - destruct b; [now exists 116, (u "rue")|now exists 102, (u "alse")].
  - apply (Hnum _ _ (match_number_int z)).
  - cbn [floats_ok] in Hok. pose proof (float_ok_reads f Hok) as Hm.
    destruct f as [s|s| |s m e].
    + apply (Hnum _ _ Hm).
    + destruct s; [now exists 45, (u "Infinity")|now exists 73, (u "nfinity")].
    + now exists 78, (u "aN").
    + apply (Hnum _ _ Hm).
  - exists 34, (flat_map escape_char s ++ [dq]). now split.
  - cbn [dumps app]. eexists; eexists; split; [reflexivity|now split].
  - cbn [dumps app]. eexists; eexists; split; [reflexivity|now split].
Qed.

Lemma skip_ws_dumps v rest :
  floats_ok v = true -> skip_ws (dumps v ++ rest) = dumps v ++ rest.
Proof.
  intros Hok. destruct (dumps_head v Hok) as [c [t [-> [Hws _]]]].
  now apply skip_ws_start.
Qed.

Lemma join_items_cons a b l :
  join_items (a :: b :: l) = a ++ u ", " ++ join_items (b :: l).
Proof. reflexivity. Qed.

Lemma reads_back_atom v :
  (forall fuel rest, number_stop rest = true ->
     scan_once (S fuel) (dumps v ++ rest) = Ok (reread v, rest)) ->
  reads_back v.
Proof.
  intros H rest Hstop. exists 1%nat. intros [|fuel] Hf; [lia|].
  now apply H.
Qed.

Lemma reads_back_float f : float_ok f = true -> reads_back (VFloat f).
Proof.
  intros Hok. apply reads_back_atom. intros fuel rest Hstop.
  pose proof (float_ok_reads f Hok) as Hm.
  destruct f as [s|s| |s m e]; cbn [dumps floatstr reread].
  - now apply scan_once_number.
  - destruct s; reflexivity.
  - reflexivity.
  - now apply scan_once_number.
Qed.

Lemma reads_back_str s : reads_back (VStr s).
Proof.
  apply reads_back_atom. intros fuel rest _.
  cbn [dumps reread]. unfold encode_basestring_ascii.
  cbn [app]. rewrite <- app_assoc. cbn [app].
  now rewrite scan_once_string, scanstring_escaped.
Qed.

(** The elements of a list, from the first one to the closing bracket. *)
Lemma array_loop_elements x xs rest :
  Forall reads_back (x :: xs) ->
  forallb floats_ok (x :: xs) = true ->
  exists f0, forall fuel, (f0 <= fuel)%nat ->
    array_loop fuel (join_items (map dumps (x :: xs)) ++ 93 :: rest)
    = Ok (map reread (x :: xs), rest).
Proof.
  revert x; induction xs as [|y ys IH]; intros x Hrb Hok.
  - apply Forall_inv in Hrb.
    destruct (Hrb (93 :: rest)) as [f0 Hf0]; [reflexivity|].
    exists (S f0). intros [|fuel] Hf; [lia|].
    cbn [map join_items]. rewrite array_loop_eq, Hf0 by lia.
    rewrite skip_ws_bracket. reflexivity.
  - pose proof (Forall_inv Hrb) as Hx. apply Forall_inv_tail in Hrb.
    cbn [forallb] in Hok. apply andb_true_iff in Hok as [Hokx Hok].
    destruct (IH y Hrb Hok) as [f1 Hf1].
    change (map dumps (x :: y :: ys))
      with (dumps x :: dumps y :: map dumps ys).
    rewrite join_items_cons.
    change (dumps y :: map dumps ys) with (map dumps (y :: ys)).
    rewrite <- !app_assoc.
    change (u ", " ++ join_items (map dumps (y :: ys)) ++ 93 :: rest)
      with (44 :: 32 :: join_items (map dumps (y :: ys)) ++ 93 :: rest).
    destruct (Hx (44 :: 32 :: join_items (map dumps (y :: ys)) ++ 93 :: rest))
      as [f0 Hf0]; [reflexivity|].
    exists (S (Nat.max f0 f1)). intros [|fuel] Hf; [lia|].
    rewrite array_loop_eq, Hf0 by lia.
    rewrite skip_ws_comma. cbv beta iota.
    change (44 =? 93) with false. change (44 =? 44) with true. cbv iota.
    rewrite skip_ws_space.
    assert (Hsk : skip_ws (join_items (map dumps (y :: ys)) ++ 93 :: rest)
                  = join_items (map dumps (y :: ys)) ++ 93 :: rest).
    { cbn [forallb] in Hok. apply andb_true_iff in Hok as [Hoky _].
      destruct (dumps_head y Hoky) as [c [t [E [Hws _]]]].
      cbn [map]. destruct ys as [|z zs].
      - cbn [join_items map]. rewrite E. now apply skip_ws_start.
      - change (map dumps (z :: zs)) with (dumps z :: map dumps zs).
        rewrite join_items_cons, E. now apply skip_ws_start. }
    rewrite Hsk, Hf1 by lia. reflexivity.
Qed.

Lemma reads_back_list l :
  Forall reads_back l -> forallb floats_ok l = true -> reads_back (VList l).
Proof.
  intros Hrb Hok rest _.
  destruct l as [|x xs].
  - exists 1%nat. intros [|fuel] Hf; [lia|]. reflexivity.
  - destruct (array_loop_elements rest Hrb Hok) as [f0 Hf0].
    exists (S f0). intros [|fuel] Hf; [lia|].
    cbn [dumps reread]. cbn [app]. rewrite <- app_assoc. cbn [app].
    rewrite scan_once_array.
    assert (Hhead : exists c t,
               join_items (map dumps (x :: xs)) ++ 93 :: rest = c :: t
               /\ value_start c).
    { cbn [forallb] in Hok. apply andb_true_iff in Hok as [Hokx _].
      destruct (dumps_head x Hokx) as [c [t [E Hc]]].
      destruct xs as [|y ys].
      - cbn [map join_items]. rewrite E. cbn [app]. now eexists; eexists.
      - change (map dumps (x :: y :: ys))
          with (dumps x :: dumps y :: map dumps ys).
        rewrite join_items_cons, E. cbn [app]. now eexists; eexists. }
    destruct Hhead as [c [t [E [Hws H93]]]].
    pose proof (Hf0 fuel ltac:(lia)) as Hloop.
    rewrite E in *. rewrite (skip_ws_start c t Hws), H93, Hloop.
    reflexivity.
Qed.

Lemma member_item kv :
  encode_basestring_ascii (fst kv) ++ u ": " ++ dumps (snd kv)
  = dq :: member_text kv.
Proof.
  unfold encode_basestring_ascii, member_text.
  cbn [app]. now rewrite <- app_assoc.
Qed.

Lemma members_text kv d rest :
  join_items (map member_item_text (kv :: d)) ++ 125 :: rest
  = 34 :: member_text kv ++ more_members d rest.
Proof.
  revert kv; induction d as [|kv' d IH]; intros kv.
  - cbn [map join_items more_members]. unfold member_item_text.
    now rewrite member_item.
  - change (map member_item_text (kv :: kv' :: d))
      with (member_item_text kv :: map member_item_text (kv' :: d)).
    change (map member_item_text (kv' :: d))
      with (member_item_text kv' :: map member_item_text d) at 1.
    rewrite join_items_cons.
    change (member_item_text kv' :: map member_item_text d)
      with (map member_item_text (kv' :: d)).
    rewrite <- !app_assoc, IH.
    unfold member_item_text. rewrite member_item. reflexivity.
Qed.

(** The members of a dict, from after the first quote to the closing
    brace. *)
Lemma object_loop_members kv d rest :
  Forall (fun kv => reads_back (snd kv)) (kv :: d) ->
  forallb (fun kv => floats_ok (snd kv)) (kv :: d) = true ->
  exists f0, forall fuel, (f0 <= fuel)%nat ->
    object_loop fuel (member_text kv ++ more_members d rest)
    = Ok (map (fun kv => (reread_str (fst kv), reread (snd kv))) (kv :: d),
          rest).
Proof.
  revert kv; induction d as [|kv' d IH]; intros kv Hrb Hok.
  - apply Forall_inv in Hrb.
    cbn [forallb] in Hok. apply andb_true_iff in Hok as [Hokv _].
    destruct (Hrb (125 :: rest)) as [f0 Hf0]; [reflexivity|].
    exists (S f0). intros [|fuel] Hf; [lia|].
    cbn [map more_members]. unfold member_text.
    rewrite <- !app_assoc. cbn [app].
    rewrite object_loop_eq, scanstring_escaped.
    change (u ": ") with [58; 32]. cbn [app].
    rewrite skip_ws_colon. cbv beta iota.
    change (58 =? 58) with true. cbv iota.
    rewrite skip_ws_space, (skip_ws_dumps _ _ Hokv), Hf0 by lia.
    rewrite skip_ws_brace. reflexivity.
  - pose proof (Forall_inv Hrb) as Hx. apply Forall_inv_tail in Hrb.
    cbn [forallb] in Hok. apply andb_true_iff in Hok as [Hokv Hok].
    destruct (IH kv' Hrb Hok) as [f1 Hf1].
    cbn [more_members].
    destruct (Hx (44 :: 32 :: 34 :: member_text kv' ++ more_members d rest))
      as [f0 Hf0]; [reflexivity|].
    exists (S (Nat.max f0 f1)). intros [|fuel] Hf; [lia|].
    unfold member_text at 1. rewrite <- !app_assoc. cbn [app].
    rewrite object_loop_eq, scanstring_escaped.
    change (u ": ") with [58; 32]. cbn [app].
    rewrite skip_ws_colon. cbv beta iota.
    change (58 =? 58) with true. cbv iota.
    rewrite skip_ws_space, (skip_ws_dumps _ _ Hokv), Hf0 by lia.
    rewrite skip_ws_comma. cbv beta iota.
    change (44 =? 125) with false. change (44 =? 44) with true. cbv iota.
    rewrite skip_ws_space, skip_ws_quote. cbv beta iota.
    change (34 =? 34) with true. cbv iota.
    rewrite Hf1 by lia. reflexivity.
Qed.

Lemma reads_back_dict d :
  Forall (fun kv => reads_back (snd kv)) d ->
  forallb (fun kv => floats_ok (snd kv)) d = true ->
  reads_back (VDict d).
Proof.
  intros Hrb Hok rest _.
  destruct d as [|kv d].
  - exists 1%nat. intros [|fuel] Hf; [lia|]. reflexivity.
  - destruct (object_loop_members rest Hrb Hok) as [f0 Hf0].
    exists (S f0). intros [|fuel] Hf; [lia|].
    cbn [dumps reread]. cbn [app]. rewrite <- app_assoc. cbn [app].
    rewrite scan_once_object.
    change (fun kv0 : str * value =>
              encode_basestring_ascii (fst kv0) ++ u ": " ++ dumps (snd kv0))
      with member_item_text.
    rewrite members_text, skip_ws_quote. cbv beta iota.
    change (34 =? 125) with false.
    change (34 =? 34) with true. cbv iota.
    rewrite Hf0 by lia. reflexivity.
Qed.

(** Every value whose floats read back is read back by [scan_once]. *)
Lemma reads_back_all v : floats_ok v = true -> reads_back v.
Proof.
  induction v as [|b|z|f|s|l IH|d IH] using value_ind'; intros Hok.
  - apply reads_back_atom. reflexivity.
  - apply reads_back_atom. now destruct b.
  - apply reads_back_atom. intros fuel rest Hstop.
    cbn [dumps reread]. apply scan_once_number; [apply match_number_int|easy].
  - now apply reads_back_float.
  - apply reads_back_str.
  - cbn [floats_ok] in Hok. apply reads_back_list; [|exact Hok].
    rewrite Forall_forall in *. intros x Hx. apply IH; [exact Hx|].
    rewrite forallb_forall in Hok. now apply Hok.
  - cbn [floats_ok] in Hok. apply reads_back_dict; [|exact Hok].
    rewrite Forall_forall in *. intros kv Hkv. apply IH; [exact Hkv|].
    rewrite forallb_forall in Hok. now apply Hok.
Qed.

End RereadFacts.

(** *** The decoder consumes its input and never runs out of fuel *)

Section FuelFacts.

Local Open Scope N_scope.

Lemma skip_ws_length s : (List.length (skip_ws s) <= List.length s)%nat.
Proof.
  induction s as [|c s IH]; simpl; [lia|].
  destruct (is_ws c); simpl; lia.
Qed.

Lemma push_inv c t x r :
  push c t = Some (x, r) ->
  exists x', t = Some (x', r) /\ x = c :: x'.
Proof.
  destruct t as [[x' r']|]; simpl; [|discriminate].
  intros [= <- <-]. now exists x'.
Qed.

Lemma scanstring_consumes_upto n s x r :
  (List.length s <= n)%nat ->
  scanstring s = Some (x, r) -> (List.length r < List.length s)%nat.
Proof.
  revert s x r; induction n as [|n IH]; intros s x r Hn.
  { destruct s; [discriminate|simpl in Hn; lia]. }
  assert (Hrec : forall c t, (List.length t <= n)%nat ->
            push c (scanstring t) = Some (x, r) ->
            (List.length r < List.length t)%nat).
  { intros c t Ht Hp. destruct (push_inv _ _ Hp) as [x' [E _]].
    now apply (IH t x' r). }
  destruct s as [|c r0]; [discriminate|]. simpl in Hn.
  cbn [scanstring].
  destruct (c =? 34).
  { intros [= <- <-]. simpl; lia. }
  destruct (c =? 92).
  - destruct r0 as [|e r1]; [discriminate|]. simpl in Hn.
    destruct (e =? 117).
    + destruct r1 as [|h1 [|h2 [|h3 [|h4 r2]]]]; try discriminate.
      simpl in Hn.
      destruct (hex4 h1 h2 h3 h4) as [uni|]; [|discriminate].
      assert (Hr2 : push uni (scanstring r2) = Some (x, r) ->
                    (List.length r < List.length (c :: e :: h1 :: h2 :: h3 :: h4 :: r2))%nat).
      { intros Hp. apply Hrec in Hp; simpl; lia. }
      destruct (is_high uni); [|exact Hr2].
      destruct r2 as [|b [|v [|l1 [|l2 [|l3 [|l4 r3]]]]]]; try exact Hr2.
      destruct ((b =? 92) && (v =? 117)); [|exact Hr2].
      destruct (hex4 l1 l2 l3 l4) as [uni2|]; [|discriminate].
      destruct (is_low uni2); [|exact Hr2].
      intros Hp. apply Hrec in Hp; simpl in *; lia.
    + destruct (unescape e) as [ch|]; [|discriminate].
      intros Hp. apply Hrec in Hp; simpl in *; lia.
  - destruct (c <? 32); [discriminate|].
    intros Hp. apply Hrec in Hp; simpl in *; lia.
Qed.

Lemma scanstring_consumes s x r :
  scanstring s = Some (x, r) -> (List.length r < List.length s)%nat.
Proof. now apply scanstring_consumes_upto with (n := List.length s). Qed.

Lemma span_digits_length s :
  (List.length (snd (span_digits s)) <= List.length s)%nat.
Proof.
  induction s as [|c s IH]; simpl; [lia|].
  destruct (is_digit c); [|simpl; lia].
  destruct (span_digits s); simpl in *; lia.
Qed.

Lemma match_integer_consumes s neg ds r :
  match_integer s = Some (neg, ds, r) ->
  (List.length r < List.length s)%nat.
Proof.
  unfold match_integer.
  assert (Hbody : forall b s1,
    match s1 with
    | c :: r0 =>
        if c =? 48 then Some (b, [c], r0)
        else if is_digit c then
          let '(d, r') := span_digits r0 in Some (b, c :: d, r')
        else None
    | [] => None
    end = Some (neg, ds, r) -> (List.length r < List.length s1)%nat).
  { intros b [|c r0]; [discriminate|].
    destruct (c =? 48); [intros [= <- <- <-]; simpl; lia|].
    destruct (is_digit c); [|discriminate].
    pose proof (span_digits_length r0) as Hl.
    destruct (span_digits r0) as [d r']. intros [= <- <- <-].
    simpl in *; lia. }
  destruct s as [|c s']; [discriminate|].
  destruct (c =? 45).
  - intros H. apply Hbody in H. simpl; lia.
  - apply (Hbody false (c :: s')).
Qed.

Lemma match_frac_consumes s f r :
  match_frac s = Some (f, r) -> (List.length r <= List.length s)%nat.
Proof.
  unfold match_frac. destruct s as [|c s']; [discriminate|].
  destruct (c =? 46); [|discriminate].
  pose proof (span_digits_length s') as Hl.
  destruct (span_digits s') as [[|d0 d] r']; [discriminate|].
  intros [= <- <-]. simpl in *; lia.
Qed.

Lemma match_exp_consumes s neg ds r :
  match_exp s = Some (neg, ds, r) -> (List.length r <= List.length s)%nat.
Proof.
  unfold match_exp. destruct s as [|c s']; [discriminate|].
  destruct ((c =? 101) || (c =? 69)); [|discriminate].
  assert (Hsp : forall b x,
    match span_digits x with
    | ([], _) => None
    | (d, r') => Some (b, d, r')
    end = Some (neg, ds, r) -> (List.length r <= List.length x)%nat).
  { intros b x. pose proof (span_digits_length x) as Hl.
    destruct (span_digits x) as [[|d0 d] r']; [discriminate|].
    intros [= <- <- <-]. exact Hl. }
  destruct s' as [|sg s''].
  - intros H. apply Hsp in H. simpl in *; lia.
  - destruct (sg =? 45); [intros H; apply Hsp in H; simpl in *; lia|].
    destruct (sg =? 43); [intros H; apply Hsp in H; simpl in *; lia|].
    intros H; apply Hsp in H; simpl in *; lia.
Qed.

Lemma match_number_consumes s v r :
  match_number s = Some (v, r) -> (List.length r < List.length s)%nat.
Proof.
  unfold match_number.
  destruct (match_integer s) as [[[neg ds] r0]|] eqn:Hi; [|discriminate].
  apply match_integer_consumes in Hi.
  destruct (match_frac r0) as [[f r1]|] eqn:Hf.
  - apply match_frac_consumes in Hf.
    destruct (match_exp r1) as [[[eneg eds] r2]|] eqn:He.
    + apply match_exp_consumes in He. intros [= <- <-]. lia.
    + intros [= <- <-]. lia.
  - destruct (match_exp r0) as [[[eneg eds] r2]|] eqn:He.
    + apply match_exp_consumes in He. intros [= <- <-]. lia.
    + intros [= <- <-]. lia.
Qed.

Lemma scan_once_other_consumes fuel c r v r' :
  (c =? 34) = false -> (c =? 123) = false -> (c =? 91) = false ->
  scan_once (S fuel) (c :: r) = Ok (v, r') ->
  (List.length r' < List.length (c :: r))%nat.
Proof.
  intros H1 H2 H3. rewrite scan_once_other by assumption. cbv zeta.
  assert (Hskip : forall k, (List.length (skipn (S k) (c :: r))
                             < List.length (c :: r))%nat).
  { intros k. cbn [skipn]. pose proof (length_skipn k r). simpl. lia. }
  destruct (is_prefix (u "null") (c :: r));
    [intros [= <- <-]; exact (Hskip 3%nat)|].
  destruct (is_prefix (u "true") (c :: r));
    [intros [= <- <-]; exact (Hskip 3%nat)|].
  destruct (is_prefix (u "false") (c :: r));
    [intros [= <- <-]; exact (Hskip 4%nat)|].
  destruct (match_number (c :: r)) as [[w rr]|] eqn:Hm.
  - intros [= <- <-]. now apply match_number_consumes in Hm.
  - destruct (is_prefix (u "NaN") (c :: r));
      [intros [= <- <-]; exact (Hskip 2%nat)|].
    destruct (is_prefix (u "Infinity") (c :: r));
      [intros [= <- <-]; exact (Hskip 7%nat)|].
    destruct (is_prefix (u "-Infinity") (c :: r));
      [intros [= <- <-]; exact (Hskip 8%nat)|discriminate].
Qed.

(** What is left after a value, a run of members or a run of elements
    is shorter than the input. *)
Lemma decoder_consumes fuel :
  forall s,
    (forall v r, scan_once fuel s = Ok (v, r) ->
                 (List.length r < List.length s)%nat)
    /\ (forall ps r, object_loop fuel s = Ok (ps, r) ->
                     (List.length r < List.length s)%nat)
    /\ (forall vs r, array_loop fuel s = Ok (vs, r) ->
                     (List.length r < List.length s)%nat).
Proof.
  induction fuel as [|fuel IH]; intros s.
  { repeat split; intros; discriminate. }
  repeat split.
  - (* scan_once *)
    intros v r. destruct s as [|c s']; [discriminate|].
    destruct (c =? 34) eqn:E34.
    { apply N.eqb_eq in E34; subst c. rewrite scan_once_string.
      destruct (scanstring s') as [[x r']|] eqn:Hs; [|discriminate].
      apply scanstring_consumes in Hs. intros [= <- <-]. simpl; lia. }
    destruct (c =? 123) eqn:E123.
    { apply N.eqb_eq in E123; subst c. rewrite scan_once_object.
      pose proof (skip_ws_length s') as Hw.
      destruct (skip_ws s') as [|c1 r1]; [discriminate|].
      destruct (c1 =? 125); [intros [= <- <-]; simpl in *; lia|].
      destruct (c1 =? 34); [|discriminate].
      destruct (object_loop fuel r1) as [[ps r2]| |] eqn:Ho; try discriminate.
      apply (IH r1) in Ho. intros [= <- <-]. simpl in *; lia. }
    destruct (c =? 91) eqn:E91.
    { apply N.eqb_eq in E91; subst c. rewrite scan_once_array.
      pose proof (skip_ws_length s') as Hw.
      destruct (skip_ws s') as [|c1 r1].
      - destruct (array_loop fuel []) as [[vs r2]| |] eqn:Ha;
          try discriminate.
        apply (IH []) in Ha. simpl in Ha; lia.
      - destruct (c1 =? 93); [intros [= <- <-]; simpl in *; lia|].
        destruct (array_loop fuel (c1 :: r1)) as [[vs r2]| |] eqn:Ha;
          try discriminate.
        apply (IH (c1 :: r1)) in Ha. intros [= <- <-]. simpl in *; lia. }
    now apply scan_once_other_consumes.
  - (* object_loop *)
    intros ps r. rewrite object_loop_eq.
    destruct (scanstring s) as [[key r0]|] eqn:Hs; [|discriminate].
    apply scanstring_consumes in Hs.
    pose proof (skip_ws_length r0) as Hw0.
    destruct (skip_ws r0) as [|c r1]; [discriminate|].
    destruct (c =? 58); [|discriminate].
    pose proof (skip_ws_length r1) as Hw1.
    destruct (scan_once fuel (skip_ws r1)) as [[v r2]| |] eqn:Hv;
      try discriminate.
    apply (IH (skip_ws r1)) in Hv.
    pose proof (skip_ws_length r2) as Hw2.
    destruct (skip_ws r2) as [|c2 r3]; [discriminate|].
    destruct (c2 =? 125); [intros [= <- <-]; simpl in *; lia|].
    destruct (c2 =? 44); [|discriminate].
    pose proof (skip_ws_length r3) as Hw3.
    destruct (skip_ws r3) as [|c3 r4]; [discriminate|].
    destruct (c3 =? 34); [|discriminate].
    destruct (object_loop fuel r4) as [[ps' r5]| |] eqn:Ho; try discriminate.
    apply (IH r4) in Ho. intros [= <- <-]. simpl in *; lia.
  - (* array_loop *)
    intros vs r. rewrite array_loop_eq.
    destruct (scan_once fuel s) as [[v r0]| |] eqn:Hv; try discriminate.
    apply (IH s) in Hv.
    pose proof (skip_ws_length r0) as Hw0.
    destruct (skip_ws r0) as [|c r1]; [discriminate|].
    destruct (c =? 93); [intros [= <- <-]; simpl in *; lia|].
    destruct (c =? 44); [|discriminate].
    pose proof (skip_ws_length r1) as Hw1.
    destruct (array_loop fuel (skip_ws r1)) as [[vs' r2]| |] eqn:Ha;
      try discriminate.
    apply (IH (skip_ws r1)) in Ha. intros [= <- <-]. simpl in *; lia.
Qed.

(** With fuel beyond twice the length of the input, the decoder
    answers. *)
Lemma decoder_fuel fuel :
  forall s,
    ((2 * List.length s + 1 <= fuel)%nat -> scan_once fuel s <> OutOfFuel)
    /\ ((2 * List.length s + 2 <= fuel)%nat ->
        object_loop fuel s <> OutOfFuel)
    /\ ((2 * List.length s + 2 <= fuel)%nat ->
        array_loop fuel s <> OutOfFuel).
Proof.
  induction fuel as [|fuel IH]; intros s.
  { repeat split; intros; lia. }
  repeat split.
  - (* scan_once *)
    intros Hf. destruct s as [|c s']; [discriminate|]. simpl in Hf.
    destruct (c =? 34) eqn:E34.
    { apply N.eqb_eq in E34; subst c. rewrite scan_once_string.
      now destruct (scanstring s') as [[x r']|]. }
    destruct (c =? 123) eqn:E123.
    { apply N.eqb_eq in E123; subst c. rewrite scan_once_object.
      pose proof (skip_ws_length s') as Hw.
      destruct (skip_ws s') as [|c1 r1]; [discriminate|].
      destruct (c1 =? 125); [discriminate|].
      destruct (c1 =? 34); [|discriminate].
      destruct (IH r1) as [_ [Ho _]].
      destruct (object_loop fuel r1) as [[ps r2]| |]; try discriminate.
      exfalso; apply Ho; [simpl in *; lia|reflexivity]. }
    destruct (c =? 91) eqn:E91.
    { apply N.eqb_eq in E91; subst c. rewrite scan_once_array.
      pose proof (skip_ws_length s') as Hw.
      destruct (skip_ws s') as [|c1 r1].
      - destruct (IH []) as [_ [_ Ha]].
        destruct (array_loop fuel []) as [[vs r2]| |]; try discriminate.
        exfalso; apply Ha; [simpl in *; lia|reflexivity].
      - destruct (c1 =? 93); [discriminate|].
        destruct (IH (c1 :: r1)) as [_ [_ Ha]].
        destruct (array_loop fuel (c1 :: r1)) as [[vs r2]| |];
          try discriminate.
        exfalso; apply Ha; [simpl in *; lia|reflexivity]. }
    rewrite scan_once_other by assumption. cbv zeta.
    destruct (is_prefix (u "null") (c :: s')); [discriminate|].
    destruct (is_prefix (u "true") (c :: s')); [discriminate|].
    destruct (is_prefix (u "false") (c :: s')); [discriminate|].
    destruct (match_number (c :: s')) as [[w rr]|]; [discriminate|].
    destruct (is_prefix (u "NaN") (c :: s')); [discriminate|].
    destruct (is_prefix (u "Infinity") (c :: s')); [discriminate|].
    destruct (is_prefix (u "-Infinity") (c :: s')); discriminate.
  - (* object_loop *)
    intros Hf. rewrite object_loop_eq.
    destruct (scanstring s) as [[key r0]|] eqn:Hs; [|discriminate].
    apply scanstring_consumes in Hs.
    pose proof (skip_ws_length r0) as Hw0.
    destruct (skip_ws r0) as [|c r1]; [discriminate|].
    destruct (c =? 58); [|discriminate].
    pose proof (skip_ws_length r1) as Hw1.
    destruct (IH (skip_ws r1)) as [Hv' _].
    destruct (scan_once fuel (skip_ws r1)) as [[v r2]| |] eqn:Hv;
      try discriminate.
    2:{ exfalso; apply Hv'; [simpl in *; lia|reflexivity]. }
    apply (decoder_consumes fuel (skip_ws r1)) in Hv.
    pose proof (skip_ws_length r2) as Hw2.
    destruct (skip_ws r2) as [|c2 r3]; [discriminate|].
    destruct (c2 =? 125); [discriminate|].
    destruct (c2 =? 44); [|discriminate].
    pose proof (skip_ws_length r3) as Hw3.
    destruct (skip_ws r3) as [|c3 r4]; [discriminate|].
    destruct (c3 =? 34); [|discriminate].
    destruct (IH r4) as [_ [Ho _]].
    destruct (object_loop fuel r4) as [[ps' r5]| |]; try discriminate.
    exfalso; apply Ho; [simpl in *; lia|reflexivity].
  - (* array_loop *)
    intros Hf. rewrite array_loop_eq.
    destruct (IH s) as [Hv' _].
    destruct (scan_once fuel s) as [[v r0]| |] eqn:Hv; try discriminate.
    2:{ exfalso; apply Hv'; [lia|reflexivity]. }
    apply (decoder_consumes fuel s) in Hv.
    pose proof (skip_ws_length r0) as Hw0.
    destruct (skip_ws r0) as [|c r1]; [discriminate|].
    destruct (c =? 93); [discriminate|].
    destruct (c =? 44); [|discriminate].
    pose proof (skip_ws_length r1) as Hw1.
    destruct (IH (skip_ws r1)) as [_ [_ Ha]].
    destruct (array_loop fuel (skip_ws r1)) as [[vs' r2]| |];
      try discriminate.
    exfalso; apply Ha; [simpl in *; lia|reflexivity].
Qed.

(** Once the decoder answers, more fuel changes nothing. *)
Lemma decoder_stable fuel :
  forall s,
    (scan_once fuel s <> OutOfFuel ->
     scan_once (S fuel) s = scan_once fuel s)
    /\ (object_loop fuel s <> OutOfFuel ->
        object_loop (S fuel) s = object_loop fuel s)
    /\ (array_loop fuel s <> OutOfFuel ->
        array_loop (S fuel) s = array_loop fuel s).
Proof.
  induction fuel as [|fuel IH]; intros s.
  { repeat split; intros H; now contradiction H. }
  repeat split.
  - (* scan_once *)
    destruct s as [|c s']; [reflexivity|].
    destruct (c =? 34) eqn:E34.
    { apply N.eqb_eq in E34; subst c. now rewrite !scan_once_string. }
    destruct (c =? 123) eqn:E123.
    { apply N.eqb_eq in E123; subst c. rewrite !scan_once_object.
      destruct (skip_ws s') as [|c1 r1]; [reflexivity|].
      destruct (c1 =? 125); [reflexivity|].
      destruct (c1 =? 34); [|reflexivity].
      intros H. destruct (IH r1) as [_ [Ho _]]. rewrite Ho; [reflexivity|].
      intros E; rewrite E in H; now apply H. }
    destruct (c =? 91) eqn:E91.
    { apply N.eqb_eq in E91; subst c. rewrite !scan_once_array.
      destruct (skip_ws s') as [|c1 r1].
      - intros H. destruct (IH []) as [_ [_ Ha]]. rewrite Ha; [reflexivity|].
        intros E; rewrite E in H; now apply H.
      - destruct (c1 =? 93); [reflexivity|].
        intros H. destruct (IH (c1 :: r1)) as [_ [_ Ha]].
        rewrite Ha; [reflexivity|].
        intros E; rewrite E in H; now apply H. }
    intros _. now rewrite !scan_once_other by assumption.
  - (* object_loop *)
    rewrite (object_loop_eq (S fuel)), (object_loop_eq fuel).
    destruct (scanstring s) as [[key r0]|]; [|reflexivity].
    destruct (skip_ws r0) as [|c r1]; [reflexivity|].
    destruct (c =? 58); [|reflexivity].
    intros H. destruct (IH (skip_ws r1)) as [Hv _].
    rewrite Hv by (intros E; rewrite E in H; now apply H).
    destruct (scan_once fuel (skip_ws r1)) as [[v r2]| |]; try reflexivity.
    destruct (skip_ws r2) as [|c2 r3]; [reflexivity|].
    destruct (c2 =? 125); [reflexivity|].
    destruct (c2 =? 44); [|reflexivity].
    destruct (skip_ws r3) as [|c3 r4]; [reflexivity|].
    destruct (c3 =? 34); [|reflexivity].
    destruct (IH r4) as [_ [Ho _]]. rewrite Ho; [reflexivity|].
    intros E; rewrite E in H; now apply H.
  - (* array_loop *)
    rewrite (array_loop_eq (S fuel)), (array_loop_eq fuel).
    intros H. destruct (IH s) as [Hv _].
    rewrite Hv by (intros E; rewrite E in H; now apply H).
    destruct (scan_once fuel s) as [[v r0]| |]; try reflexivity.
    destruct (skip_ws r0) as [|c r1]; [reflexivity|].
    destruct (c =? 93); [reflexivity|].
    destruct (c =? 44); [|reflexivity].
    destruct (IH (skip_ws r1)) as [_ [_ Ha]]. rewrite Ha; [reflexivity|].
    intros E; rewrite E in H; now apply H.
Qed.

Lemma scan_once_stable fuel fuel' s :
  (fuel <= fuel')%nat -> scan_once fuel s <> OutOfFuel ->
  scan_once fuel' s = scan_once fuel s.
Proof.
  intros Hle Hans. induction Hle as [|m Hle IH]; [reflexivity|].
  destruct (decoder_stable m s) as [Hs _].
  rewrite Hs; [exact IH|]. now rewrite IH.
Qed.


(** [loads] reads back what [dumps] wrote. *)
Lemma loads_dumps v : floats_ok v = true -> loads (dumps v) = Ok (reread v).
Proof.
  intros Hok.
  destruct (reads_back_all v Hok [] eq_refl) as [f0 Hf0].
  rewrite app_nil_r in Hf0.
  destruct (dumps_head v Hok) as [c [t [E [Hws H93]]]].
  assert (Hbom : starts_with_bom (dumps v) = false).
  { rewrite E. unfold starts_with_bom.
    destruct (N.eqb_spec c 65279) as [->|]; [|reflexivity].
    specialize (Hf0 (S f0) ltac:(lia)). rewrite E in Hf0.
    rewrite scan_once_other in Hf0 by reflexivity.
    cbv zeta in Hf0. cbn in Hf0. discriminate. }
  unfold loads. rewrite Hbom. cbv zeta.
  assert (Hskip : skip_ws (dumps v) = dumps v).
  { rewrite E. now apply skip_ws_start. }
  rewrite Hskip.
  assert (Hfuel : scan_once (fuel_for (dumps v)) (dumps v) <> OutOfFuel).
  { apply decoder_fuel. unfold fuel_for. lia. }
  assert (Hsame : scan_once (Nat.max f0 (fuel_for (dumps v))) (dumps v)
                  = scan_once (fuel_for (dumps v)) (dumps v)).
  { apply scan_once_stable; [lia|exact Hfuel]. }
  rewrite <- Hsame, Hf0 by lia. reflexivity.
Qed.

End FuelFacts.

(** * Facts about dicts *)

Section DictFacts.

Lemma dict_get_set_same k v d : dict_get k (dict_set k v d) = Some v.
Proof.
  induction d as [|[k' v'] d IH]; simpl.
  - now rewrite str_eqb_refl.
  - destruct (str_eqb k' k) eqn:E; simpl; now rewrite E.
Qed.

Lemma dict_get_set_other k k' v d :
  k <> k' -> dict_get k (dict_set k' v d) = dict_get k d.
Proof.
  intros Hne. induction d as [|[k0 v0] d IH]; simpl.
  - assert (E : str_eqb k' k = false) by (apply str_eqb_neq; congruence).
    now rewrite E.
  - destruct (str_eqb k0 k') eqn:E; simpl.
    + apply str_eqb_eq in E; subst k0.
      assert (E : str_eqb k' k = false) by (apply str_eqb_neq; congruence).
      now rewrite E.
    + now rewrite IH.
Qed.

Lemma dict_in_get k d :
  dict_in k d = match dict_get k d with Some _ => true | None => false end.
Proof.
  induction d as [|[k' v'] d IH]; simpl; [reflexivity|].
  destruct (str_eqb k' k); simpl; auto.
Qed.

Lemma dict_in_keys k d :
  dict_in k d = existsb (str_eqb k) (map fst d).
Proof.
  induction d as [|[k' v'] d IH]; simpl; [reflexivity|].
  now rewrite IH, (str_eqb_sym k' k).
Qed.

Lemma dict_get_del k k' d :
  dict_get k (dict_del k' d)
  = if str_eqb k' k then None else dict_get k d.
Proof.
  induction d as [|[k0 v0] d IH]; simpl.
  - now destruct (str_eqb k' k).
  - destruct (str_eqb k0 k') eqn:E0.
    + apply str_eqb_eq in E0; subst k0. rewrite IH.
      now destruct (str_eqb k' k).
    + simpl. rewrite IH.
      destruct (str_eqb k0 k) eqn:E1; [|reflexivity].
      apply str_eqb_eq in E1; subst k0. now rewrite str_eqb_sym, E0.
Qed.

Lemma dict_set_new k v d :
  dict_in k d = false -> dict_set k v d = d ++ [(k, v)].
Proof.
  induction d as [|[k' v'] d IH]; simpl; [reflexivity|].
  intros H. apply orb_false_iff in H as [H1 H2].
  now rewrite H1, IH.
Qed.

Lemma keys_dict_set_old k v d :
  dict_in k d = true -> map fst (dict_set k v d) = map fst d.
Proof.
  induction d as [|[k' v'] d IH]; simpl; [discriminate|].
  destruct (str_eqb k' k) eqn:E; simpl; [reflexivity|].
  intros H. now rewrite IH.
Qed.

Lemma unique_keys_app_one ks k :
  unique_keys ks = true -> existsb (str_eqb k) ks = false ->
  unique_keys (ks ++ [k]) = true.
Proof.
  induction ks as [|k0 ks IH]; simpl; [reflexivity|].
  intros H Hk. apply andb_true_iff in H as [H0 H1].
  apply orb_false_iff in Hk as [Hk0 Hk].
  rewrite IH by assumption. rewrite andb_true_r.
  rewrite existsb_app. simpl.
  apply negb_true_iff in H0. rewrite H0, orb_false_r.
  now rewrite str_eqb_sym, Hk0.
Qed.

Lemma unique_keys_dict_set k v d :
  unique_keys (map fst d) = true ->
  unique_keys (map fst (dict_set k v d)) = true.
Proof.
  intros H. destruct (dict_in k d) eqn:E.
  - now rewrite keys_dict_set_old.
  - rewrite dict_set_new, map_app by assumption. simpl.
    apply unique_keys_app_one; [exact H|].
    now rewrite <- dict_in_keys.
Qed.

Lemma unique_keys_dict_update acc pairs :
  unique_keys (map fst acc) = true ->
  unique_keys (map fst (dict_update acc pairs)) = true.
Proof.
  unfold dict_update. revert acc.
  induction pairs as [|[k v] pairs IH]; intros acc H; simpl; [exact H|].
  apply IH. now apply unique_keys_dict_set.
Qed.

Lemma unique_keys_app_inv ks k ks' :
  unique_keys (ks ++ k :: ks') = true ->
  existsb (str_eqb k) ks = false /\ unique_keys ((ks ++ [k]) ++ ks') = true.
Proof.
  intros H. split.
  - induction ks as [|k0 ks IH]; simpl in *; [reflexivity|].
    apply andb_true_iff in H as [H0 H1].
    rewrite (IH H1), orb_false_r.
    apply negb_true_iff in H0. rewrite existsb_app in H0. simpl in H0.
    apply orb_false_iff in H0 as [_ H0].
    apply orb_false_iff in H0 as [H0 _].
    now rewrite str_eqb_sym.
  - now rewrite <- app_assoc.
Qed.

(** Pairs with each key once make the dict that lists them. *)
Lemma dict_update_unique acc pairs :
  unique_keys (map fst (acc ++ pairs)) = true ->
  dict_update acc pairs = acc ++ pairs.
Proof.
  unfold dict_update. revert acc.
  induction pairs as [|[k v] pairs IH]; intros acc H; simpl.
  - now rewrite app_nil_r.
  - rewrite map_app in H. simpl in H.
    destruct (unique_keys_app_inv _ _ _ H) as [Hk Hu].
    rewrite dict_set_new by now rewrite dict_in_keys.
    rewrite IH.
    + now rewrite <- app_assoc.
    + now rewrite !map_app in *.
Qed.

Lemma dict_of_pairs_unique pairs :
  unique_keys (map fst pairs) = true -> dict_of_pairs pairs = pairs.
Proof. intros H. unfold dict_of_pairs. now rewrite dict_update_unique. Qed.

Lemma unique_keys_dict_del k d :
  unique_keys (map fst d) = true ->
  unique_keys (map fst (dict_del k d)) = true.
Proof.
  induction d as [|[k' v'] d IH]; simpl; [reflexivity|].
  intros H. apply andb_true_iff in H as [H0 H1].
  destruct (str_eqb k' k); [now apply IH|]. simpl.
  rewrite IH by assumption. rewrite andb_true_r.
  apply negb_true_iff in H0. apply negb_true_iff.
  rewrite <- dict_in_keys in *.
  rewrite dict_in_get in *. rewrite dict_get_del.
  destruct (str_eqb k k'); [reflexivity|exact H0].
Qed.

Lemma dict_in_del k d : dict_in k (dict_del k d) = false.
Proof. now rewrite dict_in_get, dict_get_del, str_eqb_refl. Qed.

Lemma dict_in_del_other k k' d :
  dict_in k d = false -> dict_in k (dict_del k' d) = false.
Proof.
  rewrite !dict_in_get, dict_get_del. intros H.
  destruct (str_eqb k' k); [reflexivity|exact H].
Qed.

End DictFacts.

(** * What [reread] leaves as it is *)

Section OkFacts.

Local Open Scope N_scope.

Lemma str_ok_reread s : str_ok s = true -> reread_str s = s.
Proof. unfold str_ok. apply str_eqb_eq. Qed.

Lemma value_ok_floats v : value_ok v = true -> floats_ok v = true.
Proof.
  induction v as [|b|z|f|s|l IH|d IH] using value_ind'; simpl; auto.
  - intros H. rewrite forallb_forall in *. intros x Hx.
    rewrite Forall_forall in IH. apply IH; auto.
  - intros H. apply andb_true_iff in H as [H _].
    rewrite forallb_forall in *. intros kv Hkv.
    rewrite Forall_forall in IH. apply IH; [exact Hkv|].
    specialize (H kv Hkv). now apply andb_true_iff in H as [_ H].
Qed.

Lemma value_ok_reread v : value_ok v = true -> reread v = v.
Proof.
  induction v as [|b|z|f|s|l IH|d IH] using value_ind'; simpl; auto.
  - intros H. now rewrite str_ok_reread.
  - intros H. f_equal. rewrite forallb_forall in H.
    rewrite Forall_forall in IH.
    rewrite <- (map_id l) at 2. apply map_ext_in.
    intros x Hx. apply IH; auto.
  - intros H. apply andb_true_iff in H as [H Hu].
    rewrite forallb_forall in H. rewrite Forall_forall in IH.
    assert (E : map (fun kv => (reread_str (fst kv), reread (snd kv))) d = d).
    { rewrite <- (map_id d) at 2. apply map_ext_in.
      intros [k x] Hkv. specialize (H _ Hkv).
      pose proof (IH _ Hkv) as IHx. cbn [fst snd] in *.
      apply andb_true_iff in H as [Hk Hx].
      now rewrite (str_ok_reread _ Hk), (IHx Hx). }
    rewrite E. f_equal. now apply dict_of_pairs_unique.
Qed.

(** The round trip through [dumps] and [loads], on valid values. *)
Lemma loads_dumps_ok v : value_ok v = true -> loads (dumps v) = Ok v.
Proof.
  intros H. rewrite loads_dumps by now apply value_ok_floats.
  now rewrite value_ok_reread.
Qed.

(** Characters below the surrogates are read back one by one. *)
Lemma reread_str_plain s :
  forallb (fun c => c <? 55296) s = true -> reread_str s = s.
Proof.
  induction s as [|c s IH]; simpl; [reflexivity|].
  intros H. apply andb_true_iff in H as [Hc Hs]. apply N.ltb_lt in Hc.
  assert (H1 : (65536 <=? c) = false) by (apply N.leb_gt; lia).
  assert (H2 : is_high c = false)
    by (unfold is_high; apply andb_false_iff; left; apply N.leb_gt; lia).
  now rewrite H1, H2, IH.
Qed.

Lemma str_ok_plain s :
  forallb (fun c => c <? 55296) s = true -> str_ok s = true.
Proof.
  intros H. unfold str_ok. rewrite reread_str_plain by assumption.
  apply str_eqb_refl.
Qed.

End OkFacts.

(** * Facts about the logger *)

Section LogFacts.

Local Open Scope N_scope.

Ltac divlia := zify; Z.to_euclidean_division_equations; lia.

(** *** Timestamps *)

Lemma digit_is_digit n : is_digit (digit n) = true.
Proof.
  unfold is_digit, digit.
  apply andb_true_iff; split; apply N.leb_le; divlia.
Qed.

Lemma digit_plain n : (digit n <? 55296) = true.
Proof.
  unfold digit. apply N.ltb_lt; divlia.
Qed.

Lemma strftime_plain dt :
  forallb (fun c => c <? 55296) (strftime dt) = true.
Proof.
  unfold strftime, four_digits, two_digits. cbn [app forallb].
  now rewrite !digit_plain.
Qed.

Lemma digit_value_digit n : digit_value (digit n) = Some (n mod 10).
Proof.
  unfold digit_value. rewrite digit_is_digit. unfold digit. f_equal.
  divlia.
Qed.

Lemma number2_digits n :
  n < 100 -> number2 (digit (n / 10)) (digit n) = Some n.
Proof.
  intros Hn. unfold number2. rewrite !digit_value_digit. f_equal.
  divlia.
Qed.

Lemma number4_digits n :
  n < 10000 ->
  number4 (digit (n / 1000)) (digit (n / 100)) (digit (n / 10)) (digit n)
  = Some n.
Proof.
  intros Hn. unfold number4, number2. rewrite !digit_value_digit. f_equal.
  divlia.
Qed.

(** A timestamp reads back as the instant at second resolution. *)
Lemma parse_timestamp_strftime dt :
  valid_datetime dt = true ->
  parse_timestamp (strftime dt) = Some (whole_second dt).
Proof.
  unfold valid_datetime. intros H.
  repeat (apply andb_true_iff in H as [H ?]).
  repeat match goal with
         | H : (_ <=? _) = true |- _ => apply N.leb_le in H
         | H : (_ <? _) = true |- _ => apply N.ltb_lt in H
         end.
  unfold strftime, four_digits, two_digits, parse_timestamp. cbn [app].
  change ((45 =? 45) && (45 =? 45) && (84 =? 84) && (58 =? 58) && (58 =? 58))
    with true. cbv iota.
  rewrite number4_digits by lia.
  rewrite !number2_digits by lia.
  reflexivity.
Qed.

(** *** The record [_log] serialises *)

Lemma log_emitted now log_type log_dict w :
  _log now log_type log_dict w
  = {| clock := S (clock w);
       emitted := emitted w
                    ++ [dumps (VDict (stamped log_type log_dict
                                              (now (clock w))))] |}.
Proof. reflexivity. Qed.

Lemma time_neq_type : u "time" <> u "type".
Proof. discriminate. Qed.

Lemma stamped_type ty d dt :
  dict_get (u "type") (stamped ty d dt) = Some (VStr ty).
Proof.
  unfold stamped.
  rewrite dict_get_set_other by (intros E; symmetry in E; revert E; apply time_neq_type).
  apply dict_get_set_same.
Qed.

Lemma stamped_time ty d dt :
  dict_get (u "time") (stamped ty d dt) = Some (VStr (strftime dt)).
Proof. unfold stamped. apply dict_get_set_same. Qed.

Lemma stamped_other ty d dt k :
  k <> u "type" -> k <> u "time" ->
  dict_get k (stamped ty d dt) = dict_get k d.
Proof.
  intros H1 H2. unfold stamped.
  now rewrite !dict_get_set_other.
Qed.

(** Assigning a valid entry keeps a dict valid. *)
Lemma pairs_ok_dict_set k v d :
  str_ok k = true -> value_ok v = true ->
  forallb (fun kv => str_ok (fst kv) && value_ok (snd kv)) d = true ->
  forallb (fun kv => str_ok (fst kv) && value_ok (snd kv)) (dict_set k v d)
  = true.
Proof.
  intros Hk Hv. induction d as [|[k' v'] d IH]; simpl.
  - now rewrite Hk, Hv.
  - intros H. apply andb_true_iff in H as [H0 H1].
    apply andb_true_iff in H0 as [H0k H0v].
    destruct (str_eqb k' k); simpl.
    + now rewrite H0k, Hv, H1.
    + now rewrite H0k, H0v, IH.
Qed.

Lemma value_ok_dict_set k v d :
  str_ok k = true -> value_ok v = true ->
  value_ok (VDict d) = true -> value_ok (VDict (dict_set k v d)) = true.
Proof.
  intros Hk Hv H. cbn [value_ok] in *.
  apply andb_true_iff in H as [H Hu].
  now rewrite pairs_ok_dict_set, unique_keys_dict_set.
Qed.

Lemma value_ok_timestamp dt : value_ok (VStr (strftime dt)) = true.
Proof. apply str_ok_plain, strftime_plain. Qed.

Lemma value_ok_stamped ty d dt :
  str_ok ty = true -> value_ok (VDict d) = true ->
  value_ok (VDict (stamped ty d dt)) = true.
Proof.
  intros Hty H. unfold stamped.
  apply value_ok_dict_set; [reflexivity|apply value_ok_timestamp|].
  now apply value_ok_dict_set.
Qed.

(** *** Decoding one line *)

Lemma parse_log_line_dumps v :
  floats_ok v = true -> parse_log_line (dumps v) = reread v.
Proof. intros H. unfold parse_log_line. now rewrite loads_dumps. Qed.

Lemma parse_log_line_dumps_ok v :
  value_ok v = true -> parse_log_line (dumps v) = v.
Proof. intros H. unfold parse_log_line. now rewrite loads_dumps_ok. Qed.

Lemma match_number_not_dict s d r : match_number s <> Some (VDict d, r).
Proof.
  unfold match_number.
  destruct (match_integer s) as [[[neg ds] r0]|]; [|discriminate].
  destruct (match_frac r0) as [[f r1]|];
    destruct (match_exp _) as [[[eneg eds] r2]|]; discriminate.
Qed.

(** A dict out of the decoder holds each key once. *)
Lemma scan_once_dict_unique fuel s d r :
  scan_once fuel s = Ok (VDict d, r) -> unique_keys (map fst d) = true.
Proof.
  destruct fuel as [|fuel]; [discriminate|].
  destruct s as [|c s']; [discriminate|].
  destruct (c =? 34) eqn:E34.
  { apply N.eqb_eq in E34; subst c. rewrite scan_once_string.
    now destruct (scanstring s') as [[x r']|]. }
  destruct (c =? 123) eqn:E123.
  { apply N.eqb_eq in E123; subst c. rewrite scan_once_object.
    destruct (skip_ws s') as [|c1 r1]; [discriminate|].
    destruct (c1 =? 125); [now intros [= <- <-]|].
    destruct (c1 =? 34); [|discriminate].
    destruct (object_loop fuel r1) as [[ps r2]| |]; try discriminate.
    intros [= <- <-]. now apply unique_keys_dict_update. }
  destruct (c =? 91) eqn:E91.
  { apply N.eqb_eq in E91; subst c. rewrite scan_once_array.
    destruct (skip_ws s') as [|c1 r1].
    - now destruct (array_loop fuel []) as [[vs r2]| |].
    - destruct (c1 =? 93); [discriminate|].
      now destruct (array_loop fuel (c1 :: r1)) as [[vs r2]| |]. }
  rewrite scan_once_other by assumption. cbv zeta.
  destruct (is_prefix (u "null") (c :: s')); [discriminate|].
  destruct (is_prefix (u "true") (c :: s')); [discriminate|].
  destruct (is_prefix (u "false") (c :: s')); [discriminate|].
  destruct (match_number (c :: s')) as [[w rr]|] eqn:Hm.
  - intros [= -> <-]. now apply match_number_not_dict in Hm.
  - destruct (is_prefix (u "NaN") (c :: s')); [discriminate|].
    destruct (is_prefix (u "Infinity") (c :: s')); [discriminate|].
    destruct (is_prefix (u "-Infinity") (c :: s')); discriminate.
Qed.

Lemma parse_log_line_unique line d :
  parse_log_line line = VDict d -> unique_keys (map fst d) = true.
Proof.
  unfold parse_log_line, loads.
  destruct (starts_with_bom line); [now intros [= <-]|]. cbv zeta.
  destruct (scan_once _ (skip_ws line)) as [[v r]| |] eqn:Hs;
    try now intros [= <-].
  destruct (skip_ws r); [|now intros [= <-]].
  intros ->. now apply scan_once_dict_unique in Hs.
Qed.

(** *** The loop of [parse_logs] *)

(** One iteration on an accepted line files its record, if any. *)
Lemma parse_logs_body_accepted acc line :
  accepted (parse_log_line line) = true ->
  parse_logs_body acc line
  = Return {| messages := messages acc
                            ++ message_of (entries (parse_log_line line));
              metrics := metrics acc
                           ++ metrics_of (entries (parse_log_line line));
              plots := plots acc
                         ++ plot_of (entries (parse_log_line line)) |}.
Proof.
  unfold parse_logs_body.
  assert (Hsame : Return acc
                  = Return {| messages := messages acc ++ [];
                              metrics := metrics acc ++ [];
                              plots := plots acc ++ [] |}).
  { rewrite !app_nil_r. now destruct acc. }
  destruct (parse_log_line line) as [|b|z|f|s|l|d]; try discriminate.
  - (* a string *)
    cbn [accepted contains bind entries]. intros H.
    apply negb_true_iff, andb_false_iff in H.
    destruct (is_substr (u "time") s); [|exact Hsame].
    destruct (is_substr (u "type") s); [|exact Hsame].
    now destruct H.
  - (* a list *)
    cbn [accepted contains bind entries]. intros H.
    apply negb_true_iff, andb_false_iff in H.
    destruct (existsb _ l); [|exact Hsame].
    destruct (existsb _ l); [|exact Hsame].
    now destruct H.
  - (* a record *)
    intros _. cbn [contains bind entries getitem delitem].
    unfold message_of, metrics_of, plot_of, stripped.
    rewrite !(dict_in_get _ d).
    destruct (dict_get (u "time") d) as [t|] eqn:Ht; cbn [negb];
      [|exact Hsame].
    destruct (dict_get (u "type") d) as [ty|] eqn:Hty; cbn [negb bind];
      [|exact Hsame].
    cbn [delitem].
    assert (Hty' : dict_in (u "type") (dict_del (u "time") d) = true).
    { rewrite dict_in_get, dict_get_del.
      change (str_eqb (u "time") (u "type")) with false. now rewrite Hty. }
    rewrite Hty'. cbn [bind].
    destruct (eq_str ty LogType.MESSAGE).
    { now rewrite !app_nil_r. }
    destruct (eq_str ty LogType.METRICS).
    { now rewrite !app_nil_r. }
    destruct (eq_str ty LogType.PLOT).
    { now rewrite !app_nil_r. }
    exact Hsame.
Qed.

(** One iteration on any other line raises [TypeError]. *)
Lemma parse_logs_body_refused acc line :
  accepted (parse_log_line line) = false ->
  parse_logs_body acc line = Raise TypeError.
Proof.
  unfold parse_logs_body.
  destruct (parse_log_line line) as [|b|z|f|s|l|d]; try reflexivity;
    cbn [accepted contains bind]; intros H.
  - apply negb_false_iff, andb_true_iff in H as [H1 H2].
    now rewrite H1, H2.
  - apply negb_false_iff, andb_true_iff in H as [H1 H2].
    now rewrite H1, H2.
  - discriminate.
Qed.

Lemma parse_logs_loop_spec lines acc :
  parse_logs_loop lines acc
  = if forallb (fun line => accepted (parse_log_line line)) lines then
      Return
        {| messages := messages acc
                         ++ messages (filed (map parse_log_line lines));
           metrics := metrics acc
                        ++ metrics (filed (map parse_log_line lines));
           plots := plots acc ++ plots (filed (map parse_log_line lines)) |}
    else Raise TypeError.
Proof.
  revert acc; induction lines as [|line lines IH]; intros acc.
  - cbn. rewrite !app_nil_r. now destruct acc.
  - cbn [parse_logs_loop forallb map filed flat_map messages metrics plots].
    destruct (accepted (parse_log_line line)) eqn:Hacc.
    + rewrite (parse_logs_body_accepted acc line Hacc). cbn [bind andb].
      rewrite IH. destruct (forallb _ lines); [|reflexivity].
      cbn [filed messages metrics plots]. now rewrite <- !app_assoc.
    + now rewrite (parse_logs_body_refused acc line Hacc).
Qed.

(** [parse_logs], for every list of lines. *)
Lemma parse_logs_spec lines :
  parse_logs lines
  = if forallb (fun line => accepted (parse_log_line line)) lines then
      Return (filed (map parse_log_line lines))
    else Raise TypeError.
Proof.
  unfold parse_logs. rewrite parse_logs_loop_spec.
  destruct (forallb _ lines); [|reflexivity].
  cbn [messages metrics plots app]. now destruct (filed _).
Qed.

End LogFacts.

(** * The claims about the logger *)

Lemma floats_ok_strs (names : list str) :
  forallb floats_ok (map VStr names) = true.
Proof. induction names; simpl; auto. Qed.

Lemma eq_str_true x s : eq_str x s = true -> x = VStr s.
Proof.
  destruct x; simpl; try discriminate.
  intros H. apply str_eqb_eq in H. now subst.
Qed.

(** C1, as the code has it.  [define_plot] called without [x_axis]
    emits one line; decoded, it is a record whose [x_axis] is [None]
    (JSON [null]), for every title and every list of metric names.  The
    plot record [parse_logs] returns for it has [x_axis] [None] too.
    It is the reader that puts ['time'] in its place
    ([x_axis or 'time'] in [ModelLoggerDebugHandler.emit]). *)
Theorem define_plot_default_x_axis now (title : str) (names : list str)
        (w : world) :
  exists line d,
    emitted (define_plot now (VStr title) (VList (map VStr names)) None w)
    = emitted w ++ [line]
    /\ parse_log_line line = VDict d
    /\ dict_get (u "x_axis") d = Some VNone
    /\ shown_x_axis d = VStr (u "time")
    /\ parse_logs [line]
       = Return
           {| messages := [];
              metrics := [];
              plots :=
                [VDict [(u "title", VStr (reread_str title));
                        (u "metrics",
                         VList (map reread (map VStr names)));
                        (u "x_axis", VNone)]] |}.
Proof.
  unfold define_plot. rewrite log_emitted.
  set (dt := now (clock w)).
  set (record := stamped LogType.PLOT
                   [(u "title", VStr title);
                    (u "metrics", VList (map VStr names));
                    (u "x_axis", VNone)] dt).
  exists (dumps (VDict record)).
  exists [(u "title", VStr (reread_str title));
          (u "metrics", VList (map reread (map VStr names)));
          (u "x_axis", VNone);
          (u "type", VStr LogType.PLOT);
          (u "time", VStr (strftime dt))].
  assert (Hline : parse_log_line (dumps (VDict record))
                  = VDict [(u "title", VStr (reread_str title));
                           (u "metrics", VList (map reread (map VStr names)));
                           (u "x_axis", VNone);
                           (u "type", VStr LogType.PLOT);
                           (u "time", VStr (strftime dt))]).
  { rewrite parse_log_line_dumps.
    - subst record. cbn [reread]. f_equal.
      change (stamped LogType.PLOT
                [(u "title", VStr title);
                 (u "metrics", VList (map VStr names));
                 (u "x_axis", VNone)] dt)
        with [(u "title", VStr title);
              (u "metrics", VList (map VStr names));
              (u "x_axis", VNone);
              (u "type", VStr LogType.PLOT);
              (u "time", VStr (strftime dt))].
      cbn [map fst snd reread].
      rewrite (reread_str_plain (strftime dt) (strftime_plain dt)).
      reflexivity.
    - subst record.
      change (stamped LogType.PLOT
                [(u "title", VStr title);
                 (u "metrics", VList (map VStr names));
                 (u "x_axis", VNone)] dt)
        with [(u "title", VStr title);
              (u "metrics", VList (map VStr names));
              (u "x_axis", VNone);
              (u "type", VStr LogType.PLOT);
              (u "time", VStr (strftime dt))].
      cbn [floats_ok forallb snd]. now rewrite floats_ok_strs. }
  split; [reflexivity|].
  split; [exact Hline|].
  split; [reflexivity|].
  split; [reflexivity|].
  rewrite parse_logs_spec. cbn [forallb map]. rewrite Hline.
  reflexivity.
Qed.

(** C1, as the spec states it, fails: the decoded record of a plot
    defined without [x_axis] does not hold the string ['time']. *)
Lemma define_plot_x_axis_is_not_time :
  ~ (exists d,
       map parse_log_line
           (emitted (define_plot sample_now (VStr (u "Accuracy"))
                                 (VList [VStr (u "a"); VStr (u "b")])
                                 None fresh))
       = [VDict d]
       /\ dict_get (u "x_axis") d = Some (VStr (u "time"))).
Proof.
  intros [d [H Hx]]. vm_compute in H. injection H as <-.
  vm_compute in Hx. discriminate.
Qed.

(** C2 at the failing input.  The line [1] is valid JSON and no
    record: [parse_log_line] returns the integer, and the membership
    test of [parse_logs] on it raises [TypeError] out of [parse_logs]. *)
Theorem parse_logs_raises_on_scalar :
  parse_log_line (u "1") = VInt 1
  /\ parse_logs [u "1"] = Raise TypeError.
Proof. split; vm_compute; reflexivity. Qed.

(** C5 at the failing input.  A well-formed MESSAGE line alone is
    returned; the same line followed by the line [1] makes [parse_logs]
    raise [TypeError], and nothing is returned. *)
Theorem parse_logs_loses_batch_on_scalar :
  let good :=
    dumps (VDict (stamped LogType.MESSAGE [(u "message", VStr (u "hi"))]
                          (sample_now 0))) in
  parse_logs [good]
  = Return {| messages := [VDict [(u "time", VStr (u "2020-01-02T03:04:05"));
                                  (u "message", VStr (u "hi"))]];
              metrics := [];
              plots := [] |}
  /\ parse_logs [good; u "1"] = Raise TypeError.
Proof. split; vm_compute; reflexivity. Qed.

(** C6.  Whenever [parse_logs] returns: every metrics record of the
    output comes from a line that decodes to a record of type METRICS,
    and is one dict holding that line's timestamp under [time] together
    with the line's other entries, [type] left out; every plot record
    comes from a line of type PLOT and holds the line's entries other
    than [time] and [type], so no timestamp. *)
Theorem parse_logs_record_shapes lines out :
  parse_logs lines = Return out ->
  Forall (fun r => exists line d,
              In line lines /\ parse_log_line line = VDict d
              /\ metrics_record d r) (metrics out)
  /\ Forall (fun r => exists line d,
                 In line lines /\ parse_log_line line = VDict d
                 /\ plot_record d r) (plots out).
Proof.
  rewrite parse_logs_spec.
  destruct (forallb _ lines); [|discriminate].
  intros [= <-]. cbn [filed metrics plots].
  assert (Hrec : forall (f : dict -> list value) r,
            f [] = [] ->
            In r (flat_map (fun v => f (entries v)) (map parse_log_line lines)) ->
            exists line d, In line lines /\ parse_log_line line = VDict d
                           /\ In r (f d)).
  { intros f r Hnil Hin. apply in_flat_map in Hin as [v [Hv Hr]].
    apply in_map_iff in Hv as [line [E Hline]]. subst v.
    exists line. destruct (parse_log_line line) as [|b|z|fl|s|l|d] eqn:Ep;
      cbn [entries] in Hr; try (rewrite Hnil in Hr; contradiction).
    now exists d. }
  assert (Hstrip : forall d, unique_keys (map fst d) = true ->
            unique_keys (map fst (stripped d)) = true
            /\ dict_get (u "time") (stripped d) = None
            /\ dict_get (u "type") (stripped d) = None
            /\ forall k, k <> u "time" -> k <> u "type" ->
                         dict_get k (stripped d) = dict_get k d).
  { intros d Hu. unfold stripped. repeat split.
    - now apply unique_keys_dict_del, unique_keys_dict_del.
    - rewrite !dict_get_del. reflexivity.
    - rewrite dict_get_del, str_eqb_refl. reflexivity.
    - intros k H1 H2. rewrite !dict_get_del.
      assert (E1 : str_eqb (u "type") k = false)
        by (apply str_eqb_neq; congruence).
      assert (E2 : str_eqb (u "time") k = false)
        by (apply str_eqb_neq; congruence).
      now rewrite E1, E2. }
  split; apply Forall_forall; intros r Hin.
  - destruct (Hrec metrics_of r eq_refl Hin) as [line [d [Hl [Hd Hr]]]].
    exists line, d. split; [exact Hl|split; [exact Hd|]].
    pose proof (parse_log_line_unique _ Hd) as Hu.
    destruct (Hstrip d Hu) as [Hus [Hst [Hsy Hso]]].
    unfold metrics_of in Hr.
    destruct (dict_get (u "time") d) as [t|] eqn:Ht; [|contradiction].
    destruct (dict_get (u "type") d) as [ty|] eqn:Hty; [|contradiction].
    destruct (eq_str ty LogType.MESSAGE); [contradiction|].
    destruct (eq_str ty LogType.METRICS) eqn:Em; [|contradiction].
    apply eq_str_true in Em; subst ty.
    destruct Hr as [<-|[]].
    exists t, ((u "time", t) :: stripped d).
    split; [exact Ht|split; [exact Hty|]].
    split.
    { f_equal. apply (dict_update_unique [(u "time", t)]).
      cbn [app map fst unique_keys]. rewrite Hus, andb_true_r.
      rewrite <- dict_in_keys, dict_in_get, Hst. reflexivity. }
    split; [reflexivity|].
    split.
    { cbn [dict_get]. change (str_eqb (u "time") (u "type")) with false.
      exact Hsy. }
    intros k H1 H2. cbn [dict_get].
    assert (E : str_eqb (u "time") k = false)
      by (apply str_eqb_neq; congruence).
    rewrite E. now apply Hso.
  - destruct (Hrec plot_of r eq_refl Hin) as [line [d [Hl [Hd Hr]]]].
    exists line, d. split; [exact Hl|split; [exact Hd|]].
    pose proof (parse_log_line_unique _ Hd) as Hu.
    destruct (Hstrip d Hu) as [Hus [Hst [Hsy Hso]]].
    unfold plot_of in Hr.
    destruct (dict_get (u "time") d) as [t|] eqn:Ht; [|contradiction].
    destruct (dict_get (u "type") d) as [ty|] eqn:Hty; [|contradiction].
    destruct (eq_str ty LogType.MESSAGE); [contradiction|].
    destruct (eq_str ty LogType.METRICS); [contradiction|].
    destruct (eq_str ty LogType.PLOT) eqn:Em; [|contradiction].
    apply eq_str_true in Em; subst ty.
    destruct Hr as [<-|[]].
    exists (stripped d).
    split; [now rewrite dict_in_get, Ht|].
    split; [exact Hty|].
    split.
    { f_equal. now apply (dict_update_unique []). }
    split; [exact Hst|]. split; [exact Hsy|exact Hso].
Qed.

Lemma parse_logs_record_shapes_witness :
  let lines :=
    emitted (log sample_now (VStr (u "epoch done"))
                 [(u "loss", VFloat half); (u "epoch", VInt 1)]
                 (define_plot sample_now (VStr (u "Loss"))
                              (VList [VStr (u "loss")]) None fresh)) in
  Forall (fun r => exists line d,
              In line lines /\ parse_log_line line = VDict d
              /\ metrics_record d r)
         (metrics (filed (map parse_log_line lines)))
  /\ Forall (fun r => exists line d,
                 In line lines /\ parse_log_line line = VDict d
                 /\ plot_record d r)
            (plots (filed (map parse_log_line lines))).
Proof.
  intros lines.
  apply (@parse_logs_record_shapes lines (filed (map parse_log_line lines))).
  vm_compute. reflexivity.
Defined.

(** C7.  One call of [log] hands the sink: a MESSAGE record exactly
    when the message is not empty, then a METRICS record exactly when
    the metrics are not empty, each independently of the other, so
    zero, one or two lines; every record carries the type tag it was
    emitted with.  In particular [log(loss=l, epoch=e)] emits one line,
    the METRICS record with both keys, and no MESSAGE record; with
    [loss=0.5, epoch=1] decoding gives back that one metrics record. *)
Theorem log_emits now (msg : str) (metrics : dict) (w : world) :
  emitted (log now (VStr msg) metrics w)
  = emitted w
      ++ match msg with
         | [] => []
         | _ :: _ =>
             [dumps (VDict (stamped LogType.MESSAGE
                                    [(u "message", VStr msg)]
                                    (now (clock w))))]
         end
      ++ match metrics with
         | [] => []
         | _ :: _ =>
             [dumps (VDict (stamped LogType.METRICS metrics
                                    (now (match msg with
                                          | [] => clock w
                                          | _ :: _ => S (clock w)
                                          end))))]
         end
  /\ (forall ty d dt,
        dict_get (u "type") (stamped ty d dt) = Some (VStr ty))
  /\ (forall loss epoch,
        emitted (log_loss now loss epoch w)
        = emitted w
            ++ [dumps (VDict [(u "loss", loss); (u "epoch", epoch);
                              (u "type", VStr LogType.METRICS);
                              (u "time", VStr (strftime (now (clock w))))])])
  /\ parse_logs (emitted (log_loss now (VFloat half) (VInt 1) fresh))
     = Return {| messages := [];
                 metrics :=
                   [VDict [(u "time", VStr (strftime (now 0%nat)));
                           (u "loss", VFloat half); (u "epoch", VInt 1)]];
                 plots := [] |}.
Proof.
  split; [|split; [|split]].
  - unfold log. destruct msg as [|c msg]; destruct metrics as [|kv metrics];
      cbn [truthy]; rewrite ?log_emitted; cbn [emitted clock];
      rewrite ?app_nil_r, <- ?app_assoc; reflexivity.
  - intros ty d dt. apply stamped_type.
  - intros loss epoch. reflexivity.
  - set (record := [(u "loss", VFloat half); (u "epoch", VInt 1);
                    (u "type", VStr LogType.METRICS);
                    (u "time", VStr (strftime (now 0%nat)))]).
    change (emitted (log_loss now (VFloat half) (VInt 1) fresh))
      with [dumps (VDict record)].
    assert (Hline : parse_log_line (dumps (VDict record)) = VDict record).
    { apply parse_log_line_dumps_ok. subst record.
      cbn [value_ok forallb fst snd map].
      change (value_ok (VStr (strftime (now 0%nat))))
        with (str_ok (strftime (now 0%nat))).
      rewrite (str_ok_plain _ (strftime_plain (now 0%nat))).
      vm_compute. reflexivity. }
    rewrite parse_logs_spec. cbn [forallb map]. rewrite Hline.
    reflexivity.
Qed.

(** C10.  For metrics that are not empty, whatever their keys: the
    line [log] emits is the record with [type] set to METRICS and
    [time] set to the timestamp, so a value the caller gave under
    either key is overwritten, and every other key keeps its value.
    When the metrics are valid values, the line decodes to that very
    record: a metric under another key comes back, and one under
    [type] or [time] comes back only if it happens to be the tag or the
    timestamp. *)
Theorem log_overwrites_type_and_time now (metrics : dict) (w : world) :
  metrics <> [] ->
  let dt := now (clock w) in
  let record := stamped LogType.METRICS metrics dt in
  let line := dumps (VDict record) in
  emitted (log now (VStr []) metrics w) = emitted w ++ [line]
  /\ dict_get (u "type") record = Some (VStr LogType.METRICS)
  /\ dict_get (u "time") record = Some (VStr (strftime dt))
  /\ (forall k, k <> u "type" -> k <> u "time" ->
                dict_get k record = dict_get k metrics)
  /\ (value_ok (VDict metrics) = true ->
      parse_log_line line = VDict record
      /\ (forall k v, dict_get k metrics = Some v ->
                      k <> u "type" -> k <> u "time" ->
                      dict_get k (entries (parse_log_line line)) = Some v)
      /\ (forall v, dict_get (u "type") metrics = Some v ->
                    v <> VStr LogType.METRICS ->
                    dict_get (u "type") (entries (parse_log_line line))
                    <> Some v)
      /\ (forall v, dict_get (u "time") metrics = Some v ->
                    v <> VStr (strftime dt) ->
                    dict_get (u "time") (entries (parse_log_line line))
                    <> Some v)).
Proof.
  intros Hne dt record line.
  split.
  { unfold log. cbn [truthy]. destruct metrics as [|kv metrics];
      [contradiction|]. now rewrite log_emitted. }
  split; [apply stamped_type|].
  split; [apply stamped_time|].
  split; [intros k H1 H2; now apply stamped_other|].
  intros Hok.
  assert (Hline : parse_log_line line = VDict record).
  { apply parse_log_line_dumps_ok. now apply value_ok_stamped. }
  rewrite Hline. cbn [entries].
  split; [reflexivity|]. split; [|split].
  - intros k v Hk H1 H2. subst record. now rewrite stamped_other.
  - intros v _ Hv. subst record. rewrite stamped_type. congruence.
  - intros v _ Hv. subst record. rewrite stamped_time. congruence.
Qed.

Lemma log_overwrites_type_and_time_witness :
  let metrics := [(u "type", VStr (u "mine")); (u "loss", VInt 3)] in
  let record := stamped LogType.METRICS metrics (sample_now 0) in
  dict_get (u "type") record = Some (VStr LogType.METRICS)
  /\ dict_get (u "loss") (entries (parse_log_line (dumps (VDict record))))
     = Some (VInt 3)
  /\ dict_get (u "type") (entries (parse_log_line (dumps (VDict record))))
     <> Some (VStr (u "mine")).
Proof.
  intros metrics record.
  destruct (@log_overwrites_type_and_time sample_now metrics fresh)
    as [_ [Hty [_ [_ Hback]]]]; [discriminate|].
  destruct (Hback eq_refl) as [_ [Hkeep [Hlost _]]].
  split; [exact Hty|]. split.
  - apply Hkeep; [reflexivity|discriminate|discriminate].
  - apply Hlost; [reflexivity|discriminate].
Defined.

(** C4, as the code has it.  For an event whose fields are valid
    values and none of whose fields is called [type] or [time], encoded
    at a valid instant: the line decodes to a record that gives back
    every field and the type tag, and whose timestamp reads as that
    instant at second resolution. *)
Theorem encode_decode_round_trip now (e : event) (w : world) :
  valid_event e = true -> free_keys e = true ->
  valid_datetime (now (clock w)) = true ->
  exists line,
    emitted (encode now e w) = emitted w ++ [line]
    /\ reproduced e (now (clock w)) (parse_log_line line).
Proof.
  intros Hvalid Hfree Hdt. unfold encode. rewrite log_emitted.
  eexists. split; [reflexivity|].
  assert (Hty : str_ok (tag_of e) = true) by now destruct e.
  rewrite parse_log_line_dumps_ok by now apply value_ok_stamped.
  exists (stamped (tag_of e) (fields_of e) (now (clock w))).
  split; [reflexivity|].
  unfold free_keys in Hfree. apply andb_true_iff in Hfree as [Hf1 Hf2].
  apply negb_true_iff in Hf1, Hf2. rewrite dict_in_get in Hf1, Hf2.
  split.
  { intros k x Hk. rewrite stamped_other; [exact Hk| |].
    - intros ->. now rewrite Hk in Hf1.
    - intros ->. now rewrite Hk in Hf2. }
  split; [apply stamped_type|].
  exists (strftime (now (clock w))).
  split; [apply stamped_time|now apply parse_timestamp_strftime].
Qed.

Lemma encode_decode_round_trip_witness :
  exists line,
    emitted (encode sample_now
                    (MetricsEvent [(u "loss", VFloat half);
                                   (u "epoch", VInt 1)]) fresh)
    = emitted fresh ++ [line]
    /\ reproduced (MetricsEvent [(u "loss", VFloat half);
                                 (u "epoch", VInt 1)])
                  (sample_now (clock fresh)) (parse_log_line line).
Proof.
  apply (@encode_decode_round_trip sample_now
           (MetricsEvent [(u "loss", VFloat half); (u "epoch", VInt 1)])
           fresh); vm_compute; reflexivity.
Defined.

(** C4, as the spec states it, fails: a valid metrics event with a
    metric called [time] does not come back, its value is replaced by
    the timestamp. *)
Lemma metric_named_time_is_lost :
  valid_event (MetricsEvent [(u "time", VInt 1)]) = true
  /\ ~ (exists line,
          emitted (encode sample_now (MetricsEvent [(u "time", VInt 1)])
                          fresh) = [line]
          /\ reproduced (MetricsEvent [(u "time", VInt 1)]) (sample_now 0)
                        (parse_log_line line)).
Proof.
  split; [reflexivity|].
  intros [line [Hline [d [Hd [Hfields _]]]]].
  vm_compute in Hline. injection Hline as <-.
  vm_compute in Hd. injection Hd as <-.
  specialize (Hfields (u "time") (VInt 1) eq_refl).
  vm_compute in Hfields. discriminate.
Qed.

(** * Further properties *)

(** [parse_logs] as a whole.  It raises [TypeError] exactly when some
    line decodes to a value that is no record and on which the test
    ['time' not in ... or 'type' not in ...] does not send the loop on;
    otherwise it returns what the decoded lines add to the three lists,
    line after line, so in the order of the input within each list. *)
Theorem parse_logs_files_in_order lines :
  parse_logs lines
  = if forallb (fun line => accepted (parse_log_line line)) lines then
      Return {| messages :=
                  flat_map (fun v => message_of (entries v))
                           (map parse_log_line lines);
                metrics :=
                  flat_map (fun v => metrics_of (entries v))
                           (map parse_log_line lines);
                plots :=
                  flat_map (fun v => plot_of (entries v))
                           (map parse_log_line lines) |}
    else Raise TypeError.
Proof. apply parse_logs_spec. Qed.



(** [parse_log_line] undoes [json.dumps] on every valid value: the
    line written for [v] decodes to [v]. *)
Theorem parse_log_line_inverts_dumps (v : value) :
  value_ok v = true -> parse_log_line (dumps v) = v.
Proof. apply parse_log_line_dumps_ok. Qed.

Lemma parse_log_line_inverts_dumps_witness :
  parse_log_line
    (dumps (VDict [(u "loss", VFloat half); (u "tags", VList [VStr (u "a\b"); VNone]);
                   (u "ok", VBool true); (u "n", VInt (-12))]))
  = VDict [(u "loss", VFloat half); (u "tags", VList [VStr (u "a\b"); VNone]);
           (u "ok", VBool true); (u "n", VInt (-12))].
Proof.
  apply parse_log_line_inverts_dumps. vm_compute. reflexivity.
Defined.


(** The install loop calls the command at least once and at most ten
    times, whatever the exit statuses. *)
Theorem install_attempts_bounded (cmd : str) (system : nat -> Z) :
  1 <= attempts (fst (install cmd system)) <= 10.
Proof.
  assert (H : forall range,
             attempts (fst (install_loop cmd system range))
             <= List.length range
             /\ (range <> [] ->
                 1 <= attempts (fst (install_loop cmd system range)))).
  { induction range as [|i range [IH1 IH2]]; [split; [apply le_n|congruence]|].
    cbn [install_loop]. cbv zeta.
    destruct (negb (system i =? 0)%Z).
    - destruct (install_loop cmd system range) as [t broke].
      unfold attempts in *. cbn [fst filter is_attempt List.length] in *.
      split; [lia|intros _; lia].
    - unfold attempts. cbn. split; [lia|intros _; lia]. }
  unfold install.
  destruct (H (seq 0 10)) as [H1 H2].
  destruct (install_loop cmd system (seq 0 10)) as [t broke].
  cbn [fst] in *. split; [apply H2; discriminate|exact H1].
Qed.

(** [define_loss_plot] emits one PLOT line, for the plot
    "Loss Over Epochs" of [loss] against [epoch]. *)
Theorem define_loss_plot_emits now (w : world) :
  exists line,
    emitted (define_loss_plot now w) = emitted w ++ [line]
    /\ parse_log_line line
       = VDict [(u "title", VStr (u "Loss Over Epochs"));
                (u "metrics", VList [VStr (u "loss")]);
                (u "x_axis", VStr (u "epoch"));
                (u "type", VStr LogType.PLOT);
                (u "time", VStr (strftime (now (clock w))))].
Proof.
  unfold define_loss_plot, define_plot. rewrite log_emitted.
  eexists. split; [reflexivity|].
  rewrite parse_log_line_dumps_ok; [reflexivity|].
  apply value_ok_stamped; reflexivity.
Qed.

(** * More on the worker script *)

Section ScriptFacts.

Variables TRAIN INFERENCE ADVISOR : str.
Variable fails : list effect -> extcall -> option nat.

Local Abbreviation start_worker' := (start_worker TRAIN INFERENCE ADVISOR fails).
Local Abbreviation stop_worker' := (stop_worker fails).
Local Abbreviation step' := (step TRAIN INFERENCE ADVISOR fails).
Local Abbreviation run' := (run TRAIN INFERENCE ADVISOR fails).
Local Abbreviation selected' := (selected TRAIN INFERENCE ADVISOR).
Local Abbreviation calls_of_step' :=
  (calls_of_step TRAIN INFERENCE ADVISOR fails).

Lemma slept_app t1 t2 : slept (t1 ++ t2) = (slept t1 + slept t2)%Z.
Proof.
  induction t1 as [|[cmd|msg|secs] t1 IH]; cbn [app slept]; lia.
Qed.

Lemma slept_rounds cmd n : slept (rounds cmd n) = (3 * Z.of_nat n)%Z.
Proof.
  induction n as [|n IH]; [reflexivity|].
  change (rounds cmd (S n)) with (failing_round cmd ++ rounds cmd n).
  rewrite slept_app, IH. cbn [failing_round slept]. lia.
Qed.

(** Below [n], either every exit status is a failure or there is a
    first success. *)
Lemma first_success (system : nat -> Z) n :
  (forall i, i < n -> system i <> 0%Z)
  \/ exists j, j < n /\ (forall i, i < j -> system i <> 0%Z)
               /\ system j = 0%Z.
Proof.
  induction n as [|n [IH|[j [Hj [Hfail Hok]]]]].
  - left. intros i Hi. lia.
  - destruct (Z.eq_dec (system n) 0) as [E|E].
    + right. exists n. split; [lia|]. split; [|exact E].
      intros i Hi. apply IH. exact Hi.
    + left. intros i Hi. destruct (Nat.eq_dec i n) as [->|Hn]; [exact E|].
      apply IH. lia.
  - right. exists j. split; [lia|]. now split.
Qed.

Lemma start_worker_selected sid sty cid st :
  start_worker' sid sty cid st
  = match selected' sid sty cid with
    | Some w => construct_and_start fails w st
    | None => (Raised (Exception (invalid_service_type sty)), st)
    end.
Proof.
  unfold start_worker, selected.
  destruct (str_eqb sty TRAIN); [reflexivity|].
  destruct (str_eqb sty INFERENCE); [reflexivity|].
  destruct (str_eqb sty ADVISOR); reflexivity.
Qed.

Lemma snoc_split (A : Type) (es : list A) x pre y post :
  es ++ [x] = pre ++ y :: post ->
  (post = [] /\ pre = es /\ y = x)
  \/ exists post', post = post' ++ [x] /\ es = pre ++ y :: post'.
Proof.
  intros H. destruct (@exists_last _ (y :: post)) as [l [z E]];
    [discriminate|].
  rewrite E in H. rewrite app_assoc in H.
  apply app_inj_tail in H as [H1 H2]. subst z.
  destruct post as [|p post].
  - left. destruct l as [|a l]; cbn in E.
    + injection E as ->. rewrite app_nil_r in H1. now subst.
    + injection E as _ E. destruct l; discriminate.
  - right. destruct (@exists_last _ (p :: post)) as [l' [z' E']];
      [discriminate|].
    rewrite E' in E. change (y :: l' ++ [z']) with ((y :: l') ++ [z']) in E.
    apply app_inj_tail in E as [E1 E2]. subst z' l.
    exists l'. split; [exact E'|exact H1].
Qed.

Lemma worker_stop_keeps st : worker (snd (stop_worker' st)) = worker st.
Proof.
  unfold stop_worker, perform. destruct (worker st) as [w|] eqn:E;
    [|exact E].
  destruct (fails (effects st) (WorkerStop w)); reflexivity.
Qed.

Lemma construct_and_start_worker w st :
  worker (snd (construct_and_start fails w st))
  = match fails (effects st) (New w) with
    | Some _ => worker st
    | None => Some w
    end.
Proof.
  unfold construct_and_start, perform.
  destruct (fails (effects st) (New w)); [reflexivity|]. cbn [effects].
  destruct (fails _ (WorkerStart w)); reflexivity.
Qed.

Lemma step_keeps_set st c :
  worker st <> None -> worker (step' st c) <> None.
Proof.
  intros H. destruct c as [sid sty cid|]; cbn [step].
  - rewrite start_worker_selected.
    destruct (selected' sid sty cid) as [w|]; [|exact H].
    rewrite construct_and_start_worker.
    destruct (fails (effects st) (New w)); [exact H|discriminate].
  - now rewrite worker_stop_keeps.
Qed.

Lemma step_effects st c :
  effects (step' st c) = effects st ++ calls_of_step' st c.
Proof.
  destruct c as [sid sty cid|]; cbn [step calls_of_step].
  - rewrite start_worker_selected.
    destruct (selected' sid sty cid) as [w|];
      [|cbn [snd]; now rewrite app_nil_r].
    unfold construct_and_start, perform.
    destruct (fails (effects st) (New w)) as [tag|]; [reflexivity|].
    cbn [effects].
    destruct (fails _ (WorkerStart w)); cbn [snd effects];
      now rewrite <- app_assoc.
  - unfold stop_worker, perform.
    destruct (worker st) as [w|]; [|cbn [snd]; now rewrite app_nil_r].
    destruct (fails (effects st) (WorkerStop w)); reflexivity.
Qed.

Lemma ordered_step st c :
  worker_is_last st -> ordered (effects st) -> ordered (effects (step' st c)).
Proof.
  intros Hlast [Hstop Hstart]. rewrite step_effects.
  destruct c as [sid sty cid|]; cbn [calls_of_step].
  - destruct (selected' sid sty cid) as [w|];
      [|now rewrite app_nil_r].
    destruct (fails (effects st) (New w)) as [tag|].
    + split; intros pre w0 r post E;
        apply snoc_split in E as [[_ [_ E]]|[post' [-> E]]];
        try discriminate; eauto.
    + change [(New w, @None nat);
              (WorkerStart w,
               fails (effects st ++ [(New w, None)]) (WorkerStart w))]
        with ([(New w, @None nat)]
                ++ [(WorkerStart w,
                     fails (effects st ++ [(New w, None)]) (WorkerStart w))]).
      rewrite app_assoc.
      split; intros pre w0 r post E.
      * apply snoc_split in E as [[_ [_ E]]|[post' [-> E]]];
          [discriminate|].
        apply snoc_split in E as [[_ [_ E]]|[post'' [-> E]]];
          [discriminate|]. eauto.
      * apply snoc_split in E as [[_ [-> E]]|[post' [-> E]]].
        -- injection E as -> _. now exists (effects st).
        -- apply snoc_split in E as [[_ [_ E]]|[post'' [-> E]]];
             [discriminate|]. eauto.
  - destruct (worker st) as [w|] eqn:Ew; [|now rewrite app_nil_r].
    split; intros pre w0 r post E.
    + apply snoc_split in E as [[_ [-> E]]|[post' [-> E]]]; [|eauto].
      injection E as -> _.
      unfold worker_is_last in Hlast. rewrite Ew in Hlast.
      symmetry in Hlast.
      destruct (last_constructed_inv _ _ Hlast) as [H|H];
        [discriminate|exact H].
    + apply snoc_split in E as [[_ [_ E]]|[post' [-> E]]];
        [discriminate|eauto].
Qed.

Lemma ordered_run cs : ordered (effects (run' cs)).
Proof.
  unfold run.
  assert (H : forall st, worker_is_last st -> ordered (effects st) ->
                         ordered (effects (fold_left step' cs st))).
  { induction cs as [|c cs IH]; intros st Hl Ho; cbn [fold_left];
      [exact Ho|].
    apply IH; [now apply step_keeps|now apply ordered_step]. }
  apply H; [reflexivity|].
  split; intros pre w r post E; destruct pre; discriminate.
Qed.

End ScriptFacts.

(** The install step always ends in one of eleven ways, told apart by
    the first iteration [j] whose exit status is [0]: [j] failing
    rounds, each with a sleep of 3, then the successful call, and the
    script goes on; or, when there is none among the ten, ten failing
    rounds and the exception.  So the step sleeps [3 * j] seconds, 30
    at most, and runs the command [j + 1] times, 10 at most. *)
Theorem install_outcomes (cmd : str) (system : nat -> Z) :
  exists j,
    j <= 10
    /\ (forall i, i < j -> system i <> 0%Z)
    /\ (j < 10 -> system j = 0%Z)
    /\ install cmd system
       = (rounds cmd j ++ (if j <? 10 then succeeding_round cmd else []),
          if j <? 10 then Returned
          else Raised (Exception (install_msg cmd)))
    /\ slept (fst (install cmd system)) = (3 * Z.of_nat j)%Z
    /\ attempts (fst (install cmd system)) = (if j <? 10 then j + 1 else 10).
Proof.
  destruct (first_success system 10) as [Hall|[j [Hj [Hfail Hok]]]].
  - exists 10.
    assert (E : install cmd system
                = (rounds cmd 10, Raised (Exception (install_msg cmd)))).
    { unfold install.
      rewrite (@install_loop_all_fail cmd system 10 0)
        by (intros i Hi; apply Hall; lia).
      reflexivity. }
    split; [lia|]. split; [exact Hall|]. split; [lia|].
    split; [rewrite E; cbn [Nat.ltb Nat.leb]; now rewrite app_nil_r|].
    rewrite E. cbv beta iota delta [fst].
    split; [apply slept_rounds|apply attempts_rounds].
  - exists j.
    assert (E : install cmd system
                = (rounds cmd j ++ succeeding_round cmd, Returned)).
    { unfold install.
      rewrite (@install_loop_first_success cmd system 10 0 j Hj);
        [reflexivity| |exact Hok].
      intros i Hi. apply Hfail. lia. }
    apply Nat.ltb_lt in Hj as Hb. rewrite Hb.
    split; [lia|]. split; [exact Hfail|]. split; [intros _; exact Hok|].
    split; [exact E|].
    rewrite E. cbv beta iota delta [fst].
    split.
    + rewrite slept_app, slept_rounds. cbn [succeeding_round slept]. lia.
    + rewrite attempts_app, attempts_rounds. reflexivity.
Qed.

(** [start_worker] with a service type that selects worker [w].  When
    the constructor raises, the exception goes to the caller, [start()]
    is not called and the global [worker] stays what it was, a worker
    started earlier included.  When the constructor returns, the global
    [worker] is [w] from then on, whether [start()] returns or raises,
    and the call ends as [start()] does. *)
Theorem start_worker_outcome TRAIN INFERENCE ADVISOR fails
        (service_id service_type container_id : str) (w : worker_obj)
        (st : state) :
  selected TRAIN INFERENCE ADVISOR service_id service_type container_id
  = Some w ->
  let r := start_worker TRAIN INFERENCE ADVISOR fails
                        service_id service_type container_id st in
  match fails (effects st) (New w) with
  | Some tag =>
      r = (Raised (Foreign tag),
           {| worker := worker st;
              effects := effects st ++ [(New w, Some tag)] |})
  | None =>
      let started :=
        fails (effects st ++ [(New w, None)]) (WorkerStart w) in
      r = (match started with
           | Some tag => Raised (Foreign tag)
           | None => Returned
           end,
           {| worker := Some w;
              effects :=
                effects st ++ [(New w, None); (WorkerStart w, started)] |})
  end.
Proof.
  intros Hsel r. subst r. rewrite start_worker_selected, Hsel.
  unfold construct_and_start, perform.
  destruct (fails (effects st) (New w)) as [tag|]; [reflexivity|].
  cbn [effects].
  destruct (fails _ (WorkerStart w)); cbn [effects];
    now rewrite <- app_assoc.
Qed.

Lemma start_worker_outcome_witness :
  start_worker (u "TRAIN") (u "INFERENCE") (u "ADVISOR")
               (fun _ c => match c with WorkerStart _ => Some 7 | _ => None end)
               (u "svc-1") (u "ADVISOR") (u "ctr-1") initial
  = (Raised (Foreign 7),
     {| worker := Some (AdvisorWorker (u "svc-1"));
        effects := [(New (AdvisorWorker (u "svc-1")), None);
                    (WorkerStart (AdvisorWorker (u "svc-1")), Some 7)] |}).
Proof.
  apply (@start_worker_outcome (u "TRAIN") (u "INFERENCE") (u "ADVISOR")
           (fun _ c => match c with WorkerStart _ => Some 7 | _ => None end)
           (u "svc-1") (u "ADVISOR") (u "ctr-1")
           (AdvisorWorker (u "svc-1")) initial).
  reflexivity.
Defined.

(** Nothing sets the global [worker] back to [None]: once a constructor
    has returned, every later [stop_worker] finds a worker.  And
    [stop_worker] keeps the worker it signals, so [n] calls of
    [stop_worker] in a row call [stop()] [n] times on the same worker. *)
Theorem worker_never_cleared TRAIN INFERENCE ADVISOR fails
        (cs cs' : list call) (n : nat) :
  let run' := run TRAIN INFERENCE ADVISOR fails in
  let stops es := List.length (filter is_stop es) in
  (worker (run' cs) <> None -> worker (run' (cs ++ cs')) <> None)
  /\ worker (run' (cs ++ repeat CallStop n)) = worker (run' cs)
  /\ stops (effects (run' (cs ++ repeat CallStop n)))
     = stops (effects (run' cs))
       + match worker (run' cs) with Some _ => n | None => 0 end.
Proof.
  intros run' stops. subst run'. unfold run. rewrite !fold_left_app.
  set (st := fold_left (step TRAIN INFERENCE ADVISOR fails) cs initial).
  clearbody st. split.
  - revert st. induction cs' as [|c cs' IH]; intros st H; cbn [fold_left];
      [exact H|].
    now apply IH, step_keeps_set.
  - revert st. induction n as [|n IH]; intros st; cbn [repeat fold_left].
    + split; [reflexivity|]. destruct (worker st); lia.
    + destruct (IH (step TRAIN INFERENCE ADVISOR fails st CallStop))
        as [IH1 IH2].
      rewrite IH1, IH2. cbn [step]. rewrite worker_stop_keeps.
      split; [reflexivity|].
      pose proof (step_effects TRAIN INFERENCE ADVISOR fails st CallStop)
        as E.
      cbn [step] in E. rewrite E. cbn [calls_of_step].
      subst stops. cbv beta.
      destruct (worker st) as [w|].
      * rewrite filter_app, length_app. cbn. lia.
      * now rewrite app_nil_r.
Qed.

Lemma worker_never_cleared_witness :
  let fails := fun (_ : list effect) (_ : extcall) => @None nat in
  let run' := run (u "TRAIN") (u "INFERENCE") (u "ADVISOR") fails in
  let start := CallStart (u "svc-1") (u "TRAIN") (u "ctr-1") in
  worker (run' ([start] ++ [CallStart (u "svc-2") (u "BOGUS") (u "ctr-2")]))
  <> None.
Proof.
  intros fails run' start.
  destruct (@worker_never_cleared (u "TRAIN") (u "INFERENCE") (u "ADVISOR")
              fails [start]
              [CallStart (u "svc-2") (u "BOGUS") (u "ctr-2")] 0)
    as [H _].
  apply H. discriminate.
Defined.

(** In the calls the script makes to the worker classes, whatever
    [run_worker] does with [start_worker] and [stop_worker]: [stop()]
    is only called on a worker whose constructor has returned before,
    and [start()] only on a worker whose constructor has just
    returned. *)
Theorem calls_in_order TRAIN INFERENCE ADVISOR fails (cs : list call) :
  let es := effects (run TRAIN INFERENCE ADVISOR fails cs) in
  (forall pre w r post,
      es = pre ++ (WorkerStop w, r) :: post -> In (New w, None) pre)
  /\ (forall pre w r post,
        es = pre ++ (WorkerStart w, r) :: post ->
        exists pre', pre = pre' ++ [(New w, None)]).
Proof. exact (ordered_run TRAIN INFERENCE ADVISOR fails cs). Qed.

Lemma calls_in_order_witness :
  let fails := fun (_ : list effect) (_ : extcall) => @None nat in
  let w := TrainWorker (u "svc-1") (u "ctr-1") in
  In (New w, @None nat) [(New w, @None nat); (WorkerStart w, @None nat)].
Proof.
  intros fails w.
  destruct (@calls_in_order (u "TRAIN") (u "INFERENCE") (u "ADVISOR") fails
              [CallStart (u "svc-1") (u "TRAIN") (u "ctr-1"); CallStop])
    as [H _].
  apply (H [(New w, None); (WorkerStart w, None)] w None []).
  reflexivity.
Defined.

(** * More on the logger *)

Section SessionFacts.

Variable now : nat -> datetime.

Lemma filed_app l1 l2 : filed (l1 ++ l2) = join_logs (filed l1) (filed l2).
Proof. unfold filed, join_logs. cbn. now rewrite !flat_map_app. Qed.

Lemma dict_del_absent k d : dict_in k d = false -> dict_del k d = d.
Proof.
  induction d as [|[k' v'] d IH]; cbn; [reflexivity|].
  intros H. apply orb_false_iff in H as [H1 H2].
  now rewrite H1, IH.
Qed.

Lemma dict_del_app k a b : dict_del k (a ++ b) = dict_del k a ++ dict_del k b.
Proof.
  induction a as [|[k' v'] a IH]; cbn; [reflexivity|].
  destruct (str_eqb k' k); cbn; now rewrite IH.
Qed.

Lemma dict_in_app k a b : dict_in k (a ++ b) = dict_in k a || dict_in k b.
Proof.
  induction a as [|[k' v'] a IH]; cbn; [reflexivity|].
  now rewrite IH, orb_assoc.
Qed.

Lemma dict_get_app k a b :
  dict_get k (a ++ b)
  = match dict_get k a with Some v => Some v | None => dict_get k b end.
Proof.
  induction a as [|[k' v'] a IH]; cbn; [reflexivity|].
  now destruct (str_eqb k' k).
Qed.

(** With no field called [type] or [time], [_log] adds both at the
    end. *)
Lemma stamped_free ty d dt :
  dict_in (u "type") d = false -> dict_in (u "time") d = false ->
  stamped ty d dt
  = d ++ [(u "type", VStr ty); (u "time", VStr (strftime dt))].
Proof.
  intros H1 H2. unfold stamped. rewrite (dict_set_new _ _ _ H1).
  rewrite dict_set_new; [now rewrite <- app_assoc|].
  rewrite dict_in_app, H2. reflexivity.
Qed.

Lemma stripped_stamped ty d dt :
  dict_in (u "type") d = false -> dict_in (u "time") d = false ->
  stripped (stamped ty d dt) = d.
Proof.
  intros H1 H2. rewrite stamped_free by assumption. unfold stripped.
  rewrite !dict_del_app, (dict_del_absent _ _ H2), (dict_del_absent _ _ H1).
  cbn. apply app_nil_r.
Qed.

(** A line that starts as a record decodes to a record, [{}] when
    it does not decode. *)
Lemma parse_log_line_record d :
  exists d', parse_log_line (dumps (VDict d)) = VDict d'.
Proof.
  unfold parse_log_line, loads. cbn [dumps app].
  set (text := join_items _ ++ [125%N]).
  change (starts_with_bom (123%N :: text)) with false. cbv iota.
  change (skip_ws (123%N :: text)) with (123%N :: text). cbv zeta.
  unfold fuel_for.
  replace (2 * List.length (123%N :: text) + 1)
    with (S (2 * List.length (123%N :: text))) by lia.
  rewrite scan_once_object.
  destruct (skip_ws text) as [|c1 r1]; [now exists []|].
  destruct (c1 =? 125)%N.
  { destruct (skip_ws r1); now eexists. }
  destruct (c1 =? 34)%N; [|now exists []].
  destruct (object_loop _ r1) as [[pairs r2]| |]; try now exists [].
  destruct (skip_ws r2); now eexists.
Qed.

Lemma accepted_record d : accepted (parse_log_line (dumps (VDict d))) = true.
Proof. destruct (parse_log_line_record d) as [d' ->]. reflexivity. Qed.

Lemma records_log ty d w :
  records (emitted w) -> records (emitted (_log now ty d w)).
Proof.
  intros H. rewrite log_emitted. cbn [emitted].
  apply Forall_app. split; [exact H|].
  constructor; [now eexists|constructor].
Qed.

Lemma records_act a w : records (emitted w) -> records (emitted (act now w a)).
Proof.
  intros H. destruct a as [msg ms|loss epoch|title ms x|]; cbn [act].
  - unfold log. destruct (truthy msg), (truthy (VDict ms));
      repeat apply records_log; exact H.
  - unfold log_loss, log. cbn [truthy]. now apply records_log.
  - unfold define_plot. now apply records_log.
  - unfold define_loss_plot, define_plot. now apply records_log.
Qed.

Lemma records_session acts w :
  records (emitted w) -> records (emitted (session now acts w)).
Proof.
  unfold session. revert w.
  induction acts as [|a acts IH]; intros w H; cbn [fold_left]; [exact H|].
  now apply IH, records_act.
Qed.

Lemma records_accepted lines :
  records lines ->
  forallb (fun line => accepted (parse_log_line line)) lines = true.
Proof.
  induction 1 as [|line lines [d ->] _ IH]; cbn [forallb]; [reflexivity|].
  now rewrite accepted_record, IH.
Qed.

Lemma filed_message msg dt :
  filed [VDict (stamped LogType.MESSAGE [(u "message", msg)] dt)]
  = {| messages := [VDict [(u "time", VStr (strftime dt));
                           (u "message", msg)]];
       metrics := []; plots := [] |}.
Proof. reflexivity. Qed.

Lemma filed_plot title ms x_axis dt :
  filed [VDict (stamped LogType.PLOT
                        [(u "title", title); (u "metrics", ms);
                         (u "x_axis", x_axis)] dt)]
  = {| messages := []; metrics := [];
       plots := [VDict [(u "title", title); (u "metrics", ms);
                        (u "x_axis", x_axis)]] |}.
Proof. reflexivity. Qed.

Lemma filed_metrics ms dt :
  unique_keys (map fst ms) = true ->
  dict_in (u "type") ms = false -> dict_in (u "time") ms = false ->
  filed [VDict (stamped LogType.METRICS ms dt)]
  = {| messages := [];
       metrics := [VDict ((u "time", VStr (strftime dt)) :: ms)];
       plots := [] |}.
Proof.
  intros Hu H1 H2. unfold filed. cbn [map flat_map entries].
  unfold message_of, metrics_of, plot_of.
  rewrite stamped_time, stamped_type, stripped_stamped by assumption.
  cbn [eq_str]. change (str_eqb LogType.METRICS LogType.MESSAGE) with false.
  change (str_eqb LogType.METRICS LogType.METRICS) with true.
  cbv iota. cbn [app]. f_equal. f_equal. f_equal.
  apply (dict_update_unique [(u "time", VStr (strftime dt))]).
  cbn [app map fst unique_keys]. rewrite Hu, andb_true_r.
  now rewrite <- dict_in_keys, H2.
Qed.

Lemma decoded_log ty d w :
  str_ok ty = true -> value_ok (VDict d) = true ->
  map parse_log_line (emitted (_log now ty d w))
  = map parse_log_line (emitted w)
      ++ [VDict (stamped ty d (now (clock w)))].
Proof.
  intros Hty Hd. rewrite log_emitted. cbn [emitted].
  rewrite map_app. cbn [map].
  now rewrite parse_log_line_dumps_ok by now apply value_ok_stamped.
Qed.

Lemma join_logs_assoc a b c :
  join_logs (join_logs a b) c = join_logs a (join_logs b c).
Proof. unfold join_logs. cbn. now rewrite !app_assoc. Qed.

Lemma join_logs_empty a :
  join_logs a {| messages := []; metrics := []; plots := [] |} = a.
Proof. destruct a. unfold join_logs. cbn. now rewrite !app_nil_r. Qed.

Lemma filed_log msg ms w :
  value_ok msg = true -> value_ok (VDict ms) = true ->
  dict_in (u "type") ms = false -> dict_in (u "time") ms = false ->
  filed (map parse_log_line (emitted (log now msg ms w)))
  = join_logs (filed (map parse_log_line (emitted w)))
              (logged now (Log msg ms) (clock w))
    /\ clock (log now msg ms w) = clock w + ticks (Log msg ms).
Proof.
  intros Hmsg Hms H1 H2.
  assert (Hu : unique_keys (map fst ms) = true).
  { cbn [value_ok] in Hms. now apply andb_true_iff in Hms as [_ Hu]. }
  assert (Hm : value_ok (VDict [(u "message", msg)]) = true).
  { cbn [value_ok forallb fst snd map unique_keys existsb].
    now rewrite Hmsg. }
  unfold log, logged, ticks. cbn [log_args].
  destruct (truthy msg), (truthy (VDict ms)).
  - rewrite !decoded_log by (reflexivity || assumption).
    rewrite <- app_assoc, filed_app. cbn [app].
    change [VDict (stamped LogType.MESSAGE [(u "message", msg)]
                           (now (clock w)));
            VDict (stamped LogType.METRICS ms
                           (now (clock (_log now LogType.MESSAGE
                                             [(u "message", msg)] w))))]
      with ([VDict (stamped LogType.MESSAGE [(u "message", msg)]
                            (now (clock w)))]
              ++ [VDict (stamped LogType.METRICS ms (now (S (clock w))))]).
    rewrite filed_app, filed_message, filed_metrics by assumption.
    split; [reflexivity|]. cbn [clock _log]. lia.
  - rewrite decoded_log by (reflexivity || assumption).
    rewrite filed_app, filed_message.
    split; [reflexivity|]. cbn [clock _log]. lia.
  - rewrite decoded_log by (reflexivity || assumption).
    rewrite filed_app, filed_metrics by assumption.
    split; [reflexivity|]. cbn [clock _log]. lia.
  - rewrite join_logs_empty. split; [reflexivity|lia].
Qed.

Lemma filed_define_plot title ms x_axis w :
  value_ok title = true -> value_ok ms = true -> value_ok x_axis = true ->
  filed (map parse_log_line
             (emitted (_log now LogType.PLOT
                            [(u "title", title); (u "metrics", ms);
                             (u "x_axis", x_axis)] w)))
  = join_logs (filed (map parse_log_line (emitted w)))
              {| messages := []; metrics := [];
                 plots := [VDict [(u "title", title); (u "metrics", ms);
                                  (u "x_axis", x_axis)]] |}.
Proof.
  intros Ht Hm Hx. rewrite decoded_log; [|reflexivity|].
  - now rewrite filed_app, filed_plot.
  - cbn [value_ok forallb fst snd map unique_keys existsb].
    now rewrite Ht, Hm, Hx.
Qed.

Lemma filed_act a w :
  clean a = true ->
  filed (map parse_log_line (emitted (act now w a)))
  = join_logs (filed (map parse_log_line (emitted w)))
              (logged now a (clock w))
    /\ clock (act now w a) = clock w + ticks a.
Proof.
  intros Hc. destruct a as [msg ms|loss epoch|title ms x|].
  - unfold clean in Hc. cbn [log_args] in Hc.
    apply andb_true_iff in Hc as [Hc H2].
    apply andb_true_iff in Hc as [Hc H1].
    apply andb_true_iff in Hc as [Hmsg Hms].
    apply negb_true_iff in H1, H2.
    now apply filed_log.
  - unfold clean in Hc. cbn [log_args] in Hc.
    apply andb_true_iff in Hc as [Hc H2].
    apply andb_true_iff in Hc as [Hc H1].
    apply andb_true_iff in Hc as [Hmsg Hms].
    apply negb_true_iff in H1, H2.
    exact (filed_log (VStr []) [(u "loss", loss); (u "epoch", epoch)] w
                     Hmsg Hms H1 H2).
  - unfold clean in Hc.
    destruct x as [x|]; cbn [log_args plot_args] in Hc;
      apply andb_true_iff in Hc as [Hc Hx];
      apply andb_true_iff in Hc as [Ht Hm].
    + split; [now apply filed_define_plot|].
      cbn [act define_plot _log clock ticks log_args plot_args]. lia.
    + split; [now apply filed_define_plot|].
      cbn [act define_plot _log clock ticks log_args plot_args]. lia.
  - split; [now apply filed_define_plot|].
    cbn [act define_loss_plot define_plot _log clock ticks log_args
             plot_args]. lia.
Qed.

Lemma filed_session acts w :
  forallb clean acts = true ->
  filed (map parse_log_line (emitted (session now acts w)))
  = join_logs (filed (map parse_log_line (emitted w)))
              (all_logged now acts (clock w)).
Proof.
  unfold session. revert w.
  induction acts as [|a acts IH]; intros w Hc; cbn [fold_left all_logged].
  - now rewrite join_logs_empty.
  - cbn [forallb] in Hc. apply andb_true_iff in Hc as [Ha Hc].
    destruct (filed_act a w Ha) as [Hf Hk].
    now rewrite IH, Hf, Hk, join_logs_assoc.
Qed.

End SessionFacts.

(** [parse_logs] on two batches one after the other: it raises when
    it raises on either, and otherwise returns, list by list, what it
    returns for the first followed by what it returns for the second. *)
Theorem parse_logs_app (lines1 lines2 : list str) :
  parse_logs (lines1 ++ lines2)
  = match parse_logs lines1, parse_logs lines2 with
    | Return a, Return b => Return (join_logs a b)
    | Raise e, _ => Raise e
    | _, Raise e => Raise e
    end.
Proof.
  rewrite !parse_logs_spec, forallb_app, map_app, filed_app.
  destruct (forallb _ lines1), (forallb _ lines2); reflexivity.
Qed.

(** Whatever calls of [log], [log_loss], [define_plot] and
    [define_loss_plot] a program makes, with whatever arguments,
    [parse_logs] returns on the lines they emitted: each of them is the
    text of a record, so none is a line on which [parse_logs] raises. *)
Theorem parse_logs_reads_every_session (now : nat -> datetime)
        (acts : list action) :
  exists out, parse_logs (emitted (session now acts fresh)) = Return out.
Proof.
  rewrite parse_logs_spec, records_accepted; [now eexists|].
  apply records_session. constructor.
Qed.

(** The logger and [parse_logs] together.  For calls whose arguments
    are valid values and whose metrics are not called [type] or [time],
    [parse_logs] on the emitted lines returns: the messages logged, each
    with the timestamp of its call, in the order of the calls; the
    metrics of each call as one record with the timestamp first; the
    plots defined, as they were given, [x_axis] being [None] where it
    was left out. *)
Theorem session_round_trip (now : nat -> datetime) (acts : list action) :
  forallb clean acts = true ->
  parse_logs (emitted (session now acts fresh))
  = Return (all_logged now acts 0).
Proof.
  intros Hc.
  rewrite parse_logs_spec, records_accepted
    by (apply records_session; constructor).
  rewrite (filed_session now acts fresh Hc).
  cbn [emitted fresh map clock]. unfold filed, join_logs. cbn.
  now destruct (all_logged now acts 0).
Qed.

Lemma session_round_trip_witness :
  parse_logs
    (emitted
       (session sample_now
                [DefineLossPlot;
                 Log (VStr (u "epoch 1 done")) [];
                 LogLoss (VFloat half) (VInt 1);
                 DefinePlot (VStr (u "Accuracy")) (VList [VStr (u "acc")])
                            None]
                fresh))
  = Return
      {| messages :=
           [VDict [(u "time", VStr (u "2020-01-02T03:04:05"));
                   (u "message", VStr (u "epoch 1 done"))]];
         metrics :=
           [VDict [(u "time", VStr (u "2020-01-02T03:04:05"));
                   (u "loss", VFloat half); (u "epoch", VInt 1)]];
         plots :=
           [VDict [(u "title", VStr (u "Loss Over Epochs"));
                   (u "metrics", VList [VStr (u "loss")]);
                   (u "x_axis", VStr (u "epoch"))];
            VDict [(u "title", VStr (u "Accuracy"));
                   (u "metrics", VList [VStr (u "acc")]);
                   (u "x_axis", VNone)]] |}.
Proof.
  apply (@session_round_trip sample_now
           [DefineLossPlot;
            Log (VStr (u "epoch 1 done")) [];
            LogLoss (VFloat half) (VInt 1);
            DefinePlot (VStr (u "Accuracy")) (VList [VStr (u "acc")]) None]).
  vm_compute. reflexivity.
Defined.

(** * The debug handler *)

Section HandlerFacts.

Variable module_name : str.
Variable repr_container : value -> str.

Local Abbreviation emit' := (emit module_name repr_container).
Local Abbreviation py_str' := (py_str repr_container).
Local Abbreviation metric_text' := (metric_text repr_container).

Lemma all_strs_map names : all_strs (map VStr names) = Some names.
Proof. induction names as [|n names IH]; cbn; [reflexivity|now rewrite IH]. Qed.

Lemma join_raises sep x e : join sep x = Raise e -> e = TypeError.
Proof.
  destruct x as [|b|z|f|s|l|d]; cbn; try (now intros [= <-]); try discriminate.
  destruct (all_strs l); [discriminate|now intros [= <-]].
Qed.

Lemma emit_record line d stdout :
  parse_log_line line = VDict d ->
  emit' line stdout
  = if eq_str (get d (u "type")) LogType.PLOT then
      match join (u ", ") (get d (u "metrics")) with
      | Return joined =>
          Printed
            (stdout
               ++ [u "[" ++ module_name ++ u "] "
                     ++ (u "Plot `" ++ py_str' (get d (u "title"))
                           ++ u "` of " ++ joined ++ u " against "
                           ++ py_str' (shown_x_axis d)
                           ++ u " will be registered when this model is being trained on Rafiki")])
      | Raise e => Failed (Uncaught e)
      end
    else if eq_str (get d (u "type")) LogType.METRICS then
      Printed
        (stdout
           ++ [u "[" ++ module_name ++ u "] "
                 ++ (u "Metric(s) logged: "
                       ++ join_strs (u ", ") (map metric_text' d))])
    else if eq_str (get d (u "type")) LogType.MESSAGE then
      Printed
        (stdout
           ++ [u "[" ++ module_name ++ u "] "
                 ++ py_str' (get d (u "message"))])
    else
      Printed (stdout ++ [u "[" ++ module_name ++ u "] " ++ line]).
Proof. intros H. unfold emit. rewrite H. reflexivity. Qed.

End HandlerFacts.

(** When [emit] raises.  It raises [AttributeError] exactly on a line
    that decodes to something other than a record (a number, a string,
    a list, [true], [false] or [null]), and [TypeError] exactly on a
    PLOT record whose [metrics] cannot be joined; on every other line
    it prints. *)
Theorem emit_raises module_name repr_container (line : str)
        (stdout : list str) (e : handler_exn) :
  emit module_name repr_container line stdout = Failed e
  <-> (e = AttributeError /\ forall d, parse_log_line line <> VDict d)
      \/ (e = Uncaught TypeError
          /\ exists d,
               parse_log_line line = VDict d
               /\ eq_str (get d (u "type")) LogType.PLOT = true
               /\ join (u ", ") (get d (u "metrics")) = Raise TypeError).
Proof.
  split.
  - destruct (parse_log_line line) as [|b|z|f|s|l|d] eqn:E;
      try (unfold emit; rewrite E; intros [= <-]; left;
           split; [reflexivity|discriminate]).
    rewrite (emit_record module_name repr_container _ stdout E).
    destruct (eq_str (get d (u "type")) LogType.PLOT) eqn:Ep.
    + destruct (join (u ", ") (get d (u "metrics"))) as [joined|e'] eqn:Ej;
        [discriminate|].
      intros [= <-]. apply join_raises in Ej as He. subst e'.
      right. split; [reflexivity|]. now exists d.
    + destruct (eq_str (get d (u "type")) LogType.METRICS); [discriminate|].
      destruct (eq_str (get d (u "type")) LogType.MESSAGE); discriminate.
  - intros [[-> H]|[-> [d [E [Ep Ej]]]]].
    + unfold emit.
      destruct (parse_log_line line) as [|b|z|f|s|l|d]; try reflexivity.
      now destruct (H d).
    + rewrite (emit_record module_name repr_container _ stdout E), Ep, Ej.
      reflexivity.
Qed.

Lemma emit_raises_witness :
  emit (u "rafiki.model.log") (fun _ => []) (u "[1, 2]") []
  = Failed AttributeError.
Proof.
  apply (@emit_raises (u "rafiki.model.log") (fun _ => []) (u "[1, 2]") []
           AttributeError).
  left. split; [reflexivity|]. vm_compute. discriminate.
Defined.

(** What [emit] echoes.  A line that does not decode, and a record
    whose [type] is none of the three tags (or is missing), is printed
    as it is after the module's name. *)
Theorem emit_echoes module_name repr_container (line : str)
        (stdout : list str) :
  (loads line = ValueError ->
   emit module_name repr_container line stdout
   = Printed (stdout ++ [u "[" ++ module_name ++ u "] " ++ line]))
  /\ (forall d,
        parse_log_line line = VDict d ->
        eq_str (get d (u "type")) LogType.PLOT = false ->
        eq_str (get d (u "type")) LogType.METRICS = false ->
        eq_str (get d (u "type")) LogType.MESSAGE = false ->
        emit module_name repr_container line stdout
        = Printed (stdout ++ [u "[" ++ module_name ++ u "] " ++ line])).
Proof.
  split.
  - intros H.
    rewrite (@emit_record module_name repr_container line [] stdout);
      [reflexivity|].
    unfold parse_log_line. now rewrite H.
  - intros d E H1 H2 H3.
    now rewrite (emit_record module_name repr_container _ stdout E),
      H1, H2, H3.
Qed.

Lemma emit_echoes_witness :
  emit (u "rafiki.model.log") (fun _ => []) (u "Epoch 1/10") []
  = Printed [u "[rafiki.model.log] Epoch 1/10"].
Proof.
  destruct (@emit_echoes (u "rafiki.model.log") (fun _ => [])
              (u "Epoch 1/10") []) as [H _].
  apply H. vm_compute. reflexivity.
Defined.

(** A message logged with [log] is printed by the debug handler as it
    was given, after the module's name. *)
Theorem emit_shows_message module_name repr_container
        (now : nat -> datetime) (msg : str) (w : world)
        (stdout : list str) :
  str_ok msg = true -> msg <> [] ->
  exists line,
    emitted (log now (VStr msg) [] w) = emitted w ++ [line]
    /\ emit module_name repr_container line stdout
       = Printed (stdout ++ [u "[" ++ module_name ++ u "] " ++ msg]).
Proof.
  intros Hok Hne. unfold log.
  destruct msg as [|c msg]; [contradiction|]. cbn [truthy].
  rewrite log_emitted. cbn [emitted].
  eexists. split; [reflexivity|].
  rewrite (@emit_record module_name repr_container _
             (stamped LogType.MESSAGE [(u "message", VStr (c :: msg))]
                      (now (clock w))) stdout); [reflexivity|].
  apply parse_log_line_dumps_ok, value_ok_stamped; [reflexivity|].
  cbn [value_ok forallb fst snd map unique_keys existsb].
  now rewrite Hok.
Qed.

Lemma emit_shows_message_witness :
  exists line,
    emitted (log sample_now (VStr (u "Starting model training..."))
                 [] fresh)
    = emitted fresh ++ [line]
    /\ emit (u "rafiki.model.log") (fun _ => []) line []
       = Printed ([] ++ [u "[" ++ u "rafiki.model.log" ++ u "] "
                           ++ u "Starting model training..."]).
Proof.
  apply (@emit_shows_message (u "rafiki.model.log") (fun _ => []) sample_now
           (u "Starting model training...") fresh []).
  - vm_compute. reflexivity.
  - discriminate.
Defined.

(** Metrics logged with [log] are printed by the debug handler as
    [key=value] pairs, and the [type] and [time] that [_log] added are
    printed among them, last: the handler does not take them out as
    [parse_logs] does. *)
Theorem emit_shows_metrics module_name repr_container
        (now : nat -> datetime) (metrics : dict) (w : world)
        (stdout : list str) :
  metrics <> [] -> value_ok (VDict metrics) = true ->
  dict_in (u "type") metrics = false ->
  dict_in (u "time") metrics = false ->
  exists line,
    emitted (log now (VStr []) metrics w) = emitted w ++ [line]
    /\ emit module_name repr_container line stdout
       = Printed
           (stdout
              ++ [u "[" ++ module_name ++ u "] Metric(s) logged: "
                    ++ join_strs (u ", ")
                         (map (metric_text repr_container) metrics
                            ++ [u "type=METRICS";
                                u "time=" ++ strftime (now (clock w))])]).
Proof.
  intros Hne Hok H1 H2. unfold log. cbn [truthy].
  destruct metrics as [|kv metrics]; [contradiction|].
  rewrite log_emitted. cbn [emitted].
  eexists. split; [reflexivity|].
  rewrite (@emit_record module_name repr_container _
             (stamped LogType.METRICS (kv :: metrics) (now (clock w)))
             stdout)
    by now apply parse_log_line_dumps_ok, value_ok_stamped.
  unfold get. rewrite stamped_type. cbn [eq_str].
  change (str_eqb LogType.METRICS LogType.PLOT) with false.
  change (str_eqb LogType.METRICS LogType.METRICS) with true.
  cbv iota. rewrite stamped_free by assumption.
  rewrite map_app. reflexivity.
Qed.

Lemma emit_shows_metrics_witness :
  exists line,
    emitted (log sample_now (VStr []) [(u "epoch", VInt 1)] fresh)
    = emitted fresh ++ [line]
    /\ emit (u "rafiki.model.log") (fun _ => []) line []
       = Printed
           [u "[rafiki.model.log] Metric(s) logged: epoch=1, type=METRICS, time=2020-01-02T03:04:05"].
Proof.
  apply (@emit_shows_metrics (u "rafiki.model.log") (fun _ => []) sample_now
           [(u "epoch", VInt 1)] fresh []);
    [discriminate|reflexivity|reflexivity|reflexivity].
Defined.

(** A plot defined with [define_plot] is announced by the debug handler
    with its title, its metrics separated by [', '] and its x-axis; the
    x-axis announced is [time] when [x_axis] was left out or is the
    empty string. *)
Theorem emit_shows_plot module_name repr_container
        (now : nat -> datetime) (title : str) (names : list str)
        (x_axis : option str) (w : world) (stdout : list str) :
  value_ok (VStr title) = true ->
  value_ok (VList (map VStr names)) = true ->
  match x_axis with Some x => str_ok x | None => true end = true ->
  exists line,
    emitted (define_plot now (VStr title) (VList (map VStr names))
                         (option_map VStr x_axis) w)
    = emitted w ++ [line]
    /\ emit module_name repr_container line stdout
       = Printed
           (stdout
              ++ [u "[" ++ module_name ++ u "] Plot `" ++ title ++ u "` of "
                    ++ join_strs (u ", ") names ++ u " against "
                    ++ match x_axis with
                       | Some (c :: x) => c :: x
                       | _ => u "time"
                       end
                    ++ u " will be registered when this model is being trained on Rafiki"]).
Proof.
  intros Ht Hn Hx. unfold define_plot. rewrite log_emitted. cbn [emitted].
  eexists. split; [reflexivity|].
  set (x := match option_map VStr x_axis with Some v => v | None => VNone end).
  rewrite (@emit_record module_name repr_container _
             (stamped LogType.PLOT
                [(u "title", VStr title);
                 (u "metrics", VList (map VStr names)); (u "x_axis", x)]
                (now (clock w))) stdout).
  2:{ apply parse_log_line_dumps_ok, value_ok_stamped; [reflexivity|].
      cbn [value_ok forallb fst snd map unique_keys existsb].
      cbn [value_ok] in Ht, Hn. rewrite Ht, Hn.
      subst x. destruct x_axis as [x|]; cbn [option_map value_ok];
        [now rewrite Hx|reflexivity]. }
  change (get (stamped LogType.PLOT
                 [(u "title", VStr title);
                  (u "metrics", VList (map VStr names)); (u "x_axis", x)]
                 (now (clock w))) (u "type")) with (VStr LogType.PLOT).
  change (eq_str (VStr LogType.PLOT) LogType.PLOT) with true. cbv iota.
  change (get (stamped LogType.PLOT
                 [(u "title", VStr title);
                  (u "metrics", VList (map VStr names)); (u "x_axis", x)]
                 (now (clock w))) (u "metrics"))
    with (VList (map VStr names)).
  cbn [join]. rewrite all_strs_map.
  change (get (stamped LogType.PLOT
                 [(u "title", VStr title);
                  (u "metrics", VList (map VStr names)); (u "x_axis", x)]
                 (now (clock w))) (u "title")) with (VStr title).
  change (shown_x_axis
            (stamped LogType.PLOT
               [(u "title", VStr title);
                (u "metrics", VList (map VStr names)); (u "x_axis", x)]
               (now (clock w))))
    with (if truthy x then x else VStr (u "time")).
  subst x. destruct x_axis as [[|c x]|]; reflexivity.
Qed.

Lemma emit_shows_plot_witness :
  exists line,
    emitted (define_plot sample_now (VStr (u "Precision & Recall"))
                         (VList (map VStr [u "precision"; u "recall"]))
                         (option_map VStr None) fresh)
    = emitted fresh ++ [line]
    /\ emit (u "rafiki.model.log") (fun _ => []) line []
       = Printed
           [u "[rafiki.model.log] Plot `Precision & Recall` of precision, recall against time will be registered when this model is being trained on Rafiki"].
Proof.
  apply (@emit_shows_plot (u "rafiki.model.log") (fun _ => []) sample_now
           (u "Precision & Recall") [u "precision"; u "recall"] None fresh
           []); reflexivity.
Defined.
